(** * werf: the synchronization command and the buildah container backend

    A shallow embedding of

    - [runSynchronization] and the flag set-up of [NewCmd]
      (package [synchronization], second half of [pkg/deploy/helm/init.go]);
    - [BuildStapelStage], [GetImageInfo] and [BuildDockerfile] of
      [BuildahBackend] (package [container_backend]);
    - the image operations of [BuildahBackend]: [Rmi], [Pull], [Tag],
      [Push], [RefreshImageObject], [PullImageFromRegistry], [RenameImage]
      and [RemoveImage];
    - [InitActionConfig] and [loadReleasesInMemory] (package [helm], first
      half of [pkg/deploy/helm/init.go]).

    Go strings are byte sequences and are modelled by [string]; Go maps
    with string keys by [gmap string _]; a Go [error] value by [option error]
    with [None] for [nil]; calls through the [buildah.Buildah] interface by
    a state monad over an abstract engine state that also records every
    call made. *)

From Stdlib Require Import ZArith Ascii String List Lia Bool.
From stdpp Require Import base option list strings gmap.

Local Open Scope string_scope.
Local Open Scope list_scope.

(** ** Go library functions used by the modelled code *)

Module GoStrings.

(** [len(s)]. *)
Definition len (s : string) : nat := String.length s.

(** [strings.HasPrefix(s, prefix)]. *)
Fixpoint HasPrefix (s prefix : string) : bool :=
  match prefix, s with
  | EmptyString, _ => true
  | String _ _, EmptyString => false
  | String a p', String b s' => if decide (a = b) then HasPrefix s' p' else false
  end.

(** [strings.Index(s, sep)]: position of the first instance of [sep]
    in [s]; [None] stands for [-1]. *)
Fixpoint Index (s sep : string) : option nat :=
  if HasPrefix s sep then Some 0
  else match s with
       | EmptyString => None
       | String _ s' => S <$> Index s' sep
       end.

(** [s[:m]] and [s[m:]]. *)
Fixpoint take (m : nat) (s : string) : string :=
  match m, s with
  | S m', String a s' => String a (take m' s')
  | _, _ => EmptyString
  end.

Fixpoint drop (m : nat) (s : string) : string :=
  match m, s with
  | S m', String _ s' => drop m' s'
  | _, _ => s
  end.

(** The loop of [genSplit] (with [sepSave = 0]): at most [n] cuts. *)
Fixpoint genSplit_loop (n : nat) (s sep : string) : list string :=
  match n with
  | O => [s]
  | S n' =>
      match Index s sep with
      | None => [s]
      | Some m => take m s :: genSplit_loop n' (drop (m + len sep) s) sep
      end
  end.

(** [strings.SplitN(s, sep, n)] for a non-empty [sep] and [n >= 0]:
    [n = 0] gives [nil]; otherwise [n] is capped by [len(s)+1] and the
    string is cut at the first [n-1] separators. *)
Definition SplitN (s sep : string) (n : nat) : list string :=
  match n with
  | O => []
  | S _ => genSplit_loop (Nat.min n (len s + 1) - 1) s sep
  end.

(** [fmt.Sprintf("%s%s", a, b)]. *)
Definition Sprintf_ss (a b : string) : string := a +:+ b.

(** [strings.Join(elems, sep)]. *)
Fixpoint Join (elems : list string) (sep : string) : string :=
  match elems with
  | [] => EmptyString
  | [e] => e
  | e :: es => e +:+ sep +:+ Join es sep
  end.

End GoStrings.

Module Filepath.

(** [filepath.Separator] on the Unix build. *)
Definition Separator : ascii := "/"%char.

Definition IsPathSeparator (c : ascii) : bool := bool_decide (c = Separator).

(** The path elements between separators, empty ones included. The loop
    of [Clean] consumes its input one separator or one whole element at
    a time, so it is a fold over this list. *)
Fixpoint elements (path : string) : list string :=
  match path with
  | EmptyString => [EmptyString]
  | String c rest =>
      if IsPathSeparator c then EmptyString :: elements rest
      else match elements rest with
           | e :: es => String c e :: es
           | [] => [String c EmptyString]
           end
  end.

(** The output buffer of [Clean] ([lazybuf]): the bytes written so far,
    last written first, so that [out.w] is the length; with the index
    [dotdot] where a [..] element must stop. *)
Record cleanState := { out : list ascii; dotdot : nat }.

Definition w (st : cleanState) : nat := length (out st).

Definition append_byte (c : ascii) (st : cleanState) : cleanState :=
  {| out := c :: out st; dotdot := dotdot st |}.

Fixpoint append_bytes (e : string) (st : cleanState) : cleanState :=
  match e with
  | EmptyString => st
  | String c e' => append_bytes e' (append_byte c st)
  end.

(** [out.w--; for out.w > dotdot && !IsPathSeparator(out.index(out.w)) { out.w-- }] *)
Fixpoint backtrack (dd : nat) (o : list ascii) : list ascii :=
  match o with
  | [] => []
  | c :: o' =>
      if bool_decide (dd < length o') && negb (IsPathSeparator c)
      then backtrack dd o'
      else o'
  end.

(** One turn of the loop of [Clean] at the start of element [e]. *)
Definition clean_step (rooted : bool) (st : cleanState) (e : string) : cleanState :=
  if bool_decide (e = "") then st
  else if bool_decide (e = ".") then st
  else if bool_decide (e = "..") then
    if bool_decide (dotdot st < w st) then
      {| out := backtrack (dotdot st) (out st); dotdot := dotdot st |}
    else if negb rooted then
      let st1 := if bool_decide (0 < w st) then append_byte Separator st else st in
      let st2 := append_byte "."%char (append_byte "."%char st1) in
      {| out := out st2; dotdot := w st2 |}
    else st
  else
    let st1 :=
      if (rooted && negb (bool_decide (w st = 1)))
         || (negb rooted && negb (bool_decide (w st = 0)))
      then append_byte Separator st else st in
    append_bytes e st1.

Definition string_of_out (o : list ascii) : string :=
  string_of_list_ascii (rev o).

(** [filepath.Clean] (Unix: no volume name, [FromSlash] is the identity). *)
Definition Clean (path : string) : string :=
  match path with
  | EmptyString => "."
  | String c _ =>
      let rooted := IsPathSeparator c in
      let st0 := if rooted then {| out := [Separator]; dotdot := 1 |}
                 else {| out := []; dotdot := 0 |} in
      let st := fold_left (clean_step rooted) (elements path) st0 in
      if bool_decide (w st = 0) then "." else string_of_out (out st)
  end.

(** [filepath.Join]: leading empty elements are skipped, the rest is
    joined with the separator and cleaned; all empty gives [""]. *)
Fixpoint Join (elem : list string) : string :=
  match elem with
  | [] => EmptyString
  | e :: rest =>
      if bool_decide (e = "") then Join rest
      else Clean (GoStrings.Join elem (String Separator EmptyString))
  end.

End Filepath.

(** ** Errors *)

(** A Go [error]: either produced by a collaborator outside the modelled
    code, or built by [fmt.Errorf] from a format, its string operands
    and, for [Errorf], the error given to its last verb ([%w] or [%s]). *)
Inductive error : Type :=
| ExternalError (msg : string)
| Errorf0 (format : string) (operands : list string)
| Errorf (format : string) (operands : list string) (wrapped : error).

(** ** The synchronization command *)

Module Synchronization.

(** [cmdData]. *)
Record CmdData := {
  Kubernetes : bool;
  KubernetesNamespacePrefix : string;
  Local : bool;
  LocalLockManagerBaseDir : string;
  LocalStagesStorageCacheBaseDir : string;
  TTL : string;
  Host : string;
  Port : string;
}.

(** The fields of [commonCmdData] that [runSynchronization] reads. *)
Record CommonCmdData := {
  TmpDir : string;
  HomeDir : string;
  KubeContext : string;
  KubeConfig : string;
}.

(** What was given on the command line: [None] when a flag is absent,
    in which case cobra keeps the default handed to [StringVarP] or
    [BoolVarP]. *)
Record Flags := {
  flag_local : option bool;
  flag_local_lock_manager_base_dir : option string;
  flag_local_stages_storage_cache_base_dir : option string;
  flag_kubernetes : option bool;
  flag_kubernetes_namespace_prefix : option string;
  flag_ttl : option string;
  flag_host : option string;
  flag_port : option string;
}.

(** The objects the factory functions construct. *)
Inductive FileLocker := NewFileLocker_ok (locksDir : string).

Inductive LockManager :=
| NewKubernetesLockManager (namespace : string)
| NewGenericLockManager (locker : FileLocker).

Inductive StagesStorageCache :=
| NewKubernetesStagesStorageCache (namespace : string)
| NewFileStagesStorageCache (cacheDir : string).

(** The arguments of [synchronization_server.RunSynchronizationServer]. *)
Record ServerArgs := {
  server_host : string;
  server_port : string;
  lockManagerFactoryFunc : string → LockManager + error;
  stagesStorageCacheFactoryFunc : string → StagesStorageCache + error;
}.

(** [runSynchronization] either returns an initialization error or ends
    in the call of [RunSynchronizationServer]. *)
Inductive Run :=
| InitFailed (e : error)
| RunSynchronizationServer (args : ServerArgs).

Section WithEnvironment.

(** The process environment and the collaborators of other packages. *)
Variable Getenv : string → string.
Variable GetBoolEnvironmentDefaultTrue : string → bool.
Variable GetBoolEnvironmentDefaultFalse : string → bool.
Variable werf_Init : string → string → option error.
Variable werf_GetHomeDir : string.
Variable kube_Init : string → string → option error.
Variable InitKubedog : option error.
Variable lockgate_NewFileLocker : string → option error.

(** The flag declarations of [NewCmd]. *)
Definition NewCmd (f : Flags) : CmdData := {|
  Local := default (GetBoolEnvironmentDefaultTrue "WERF_LOCAL") (flag_local f);
  LocalLockManagerBaseDir :=
    default (Getenv "WERF_LOCAL_LOCK_MANAGER_BASE_DIR") (flag_local_lock_manager_base_dir f);
  LocalStagesStorageCacheBaseDir :=
    default (Getenv "WERF_LOCAL_STAGES_STORAGE_CACHE_BASE_DIR")
            (flag_local_stages_storage_cache_base_dir f);
  Kubernetes := default (GetBoolEnvironmentDefaultFalse "WERF_KUBERNETES") (flag_kubernetes f);
  KubernetesNamespacePrefix :=
    default (Getenv "WERF_KUBERNETES_NAMESPACE_PREFIX") (flag_kubernetes_namespace_prefix f);
  TTL := default (Getenv "WERF_TTL") (flag_ttl f);
  Host := default (Getenv "WERF_HOST") (flag_host f);
  Port := default (Getenv "WERF_PORT") (flag_port f);
|}.

Definition runSynchronization (commonCmdData : CommonCmdData) (cmdData : CmdData) : Run :=
  match werf_Init (TmpDir commonCmdData) (HomeDir commonCmdData) with
  | Some err => InitFailed (Errorf "initialization error: %s" [] err)
  | None =>
    let host := Host cmdData in
    let port := Port cmdData in
    let host := if bool_decide (host = "") then "localhost" else host in
    let port := if bool_decide (port = "") then "55581" else port in
    if Kubernetes cmdData then
      match kube_Init (KubeContext commonCmdData) (KubeConfig commonCmdData) with
      | Some err => InitFailed (Errorf "cannot initialize kube: %s" [] err)
      | None =>
        match InitKubedog with
        | Some err => InitFailed (Errorf "cannot init kubedog: %s" [] err)
        | None =>
          let prefix := KubernetesNamespacePrefix cmdData in
          let prefix := if bool_decide (prefix = "") then "werf-synchronization-" else prefix in
          RunSynchronizationServer {|
            server_host := host;
            server_port := port;
            lockManagerFactoryFunc := λ clientID,
              inl (NewKubernetesLockManager (GoStrings.Sprintf_ss prefix clientID));
            stagesStorageCacheFactoryFunc := λ clientID,
              inl (NewKubernetesStagesStorageCache (GoStrings.Sprintf_ss prefix clientID));
          |}
        end
      end
    else
      let lockManagerBaseDir := LocalLockManagerBaseDir cmdData in
      let lockManagerBaseDir :=
        if bool_decide (lockManagerBaseDir = "")
        then Filepath.Join [werf_GetHomeDir; "synchronization_server"; "lock_manager"]
        else lockManagerBaseDir in
      let stagesStorageCacheBaseDir := LocalStagesStorageCacheBaseDir cmdData in
      let stagesStorageCacheBaseDir :=
        if bool_decide (stagesStorageCacheBaseDir = "")
        then Filepath.Join [werf_GetHomeDir; "synchronization_server"; "stages_storage_cache"]
        else stagesStorageCacheBaseDir in
      RunSynchronizationServer {|
        server_host := host;
        server_port := port;
        lockManagerFactoryFunc := λ clientID,
          let dir := Filepath.Join [lockManagerBaseDir; clientID] in
          match lockgate_NewFileLocker dir with
          | Some err => inr err
          | None => inl (NewGenericLockManager (NewFileLocker_ok dir))
          end;
        stagesStorageCacheFactoryFunc := λ clientID,
          inl (NewFileStagesStorageCache
                 (Filepath.Join [stagesStorageCacheBaseDir; clientID]));
      |}
  end.

(** The storage location an instance works on: a namespace name of the
    cluster or a directory of the local file system. *)
Inductive Location :=
| Namespace (name : string)
| Directory (path : string).

Definition lockManagerLocation (lm : LockManager) : Location :=
  match lm with
  | NewKubernetesLockManager ns => Namespace ns
  | NewGenericLockManager (NewFileLocker_ok dir) => Directory dir
  end.

Definition stagesStorageCacheLocation (c : StagesStorageCache) : Location :=
  match c with
  | NewKubernetesStagesStorageCache ns => Namespace ns
  | NewFileStagesStorageCache dir => Directory dir
  end.

(** The two backends. *)
Inductive Backend := ClusterBackend | LocalBackend.

Definition locationBackend (l : Location) : Backend :=
  match l with Namespace _ => ClusterBackend | Directory _ => LocalBackend end.

End WithEnvironment.

End Synchronization.

(** ** The buildah container backend *)

Module ContainerBackend.

(** [buildah.CommonOpts]: the log writer is either absent or the output
    stream of the context's logger. *)
Inductive Writer := OutStream.
Record CommonOpts := { LogWriter : option Writer }.

(** [specs.Mount], the fields the backend sets. *)
Record Mount := { Type_ : string; Source : string; Destination : string }.

Record RunCommandOpts := {
  RunCommandOpts_CommonOpts : CommonOpts;
  Mounts : list Mount;
}.

Record ConfigOpts := {
  ConfigOpts_CommonOpts : CommonOpts;
  ConfigOpts_Labels : list string;
}.

Record CommitOpts := { CommitOpts_CommonOpts : CommonOpts }.

Record BuildFromDockerfileOpts := {
  BuildFromDockerfileOpts_CommonOpts : CommonOpts;
  BuildFromDockerfileOpts_ContextTar : string;  (* the bytes of the reader *)
  BuildFromDockerfileOpts_BuildArgs : gmap string string;
  BuildFromDockerfileOpts_Target : string;
}.

(** [time.Time], read only through [UnixNano()]. *)
Record Time := { UnixNano : Z }.

(** The part of the inspect result of buildah that [GetImageInfo] reads:
    [inspect.Docker] and [inspect.Docker.Config]. *)
Record DockerConfig := {
  Config_Labels : gmap string string;
  Config_OnBuild : list string;
  Config_Image : string;
}.

Record DockerInspect := {
  Docker_Config : DockerConfig;
  Docker_Created : Time;
  Docker_ID : string;
  Docker_Size : Z;
}.

Record BuilderInfo := { Docker : DockerInspect }.

(** [image.Info]; [RepoDigest] keeps its zero value. *)
Record Info := {
  Name : string;
  Repository : string;
  Tag : string;
  RepoDigest : string;
  OnBuild : list string;
  ID : string;
  ParentID : string;
  Labels : gmap string string;
  Size : Z;
  CreatedAtUnixNano : Z;
}.

(** The calls that leave the backend, recorded with their arguments. *)
Inductive Call :=
| CallFromCommand (container image : string) (opts : CommonOpts)
| CallMount (container : string) (opts : CommonOpts)
| CallUmount (containerRoot : string) (opts : CommonOpts)
| CallPrepareContainer (index : nat) (containerRoot : string)
| CallRunCommand (container : string) (command : list string) (opts : RunCommandOpts)
| CallConfig (container : string) (opts : ConfigOpts)
| CallCommit (container : string) (opts : CommitOpts)
| CallInspect (ref : string)
| CallBuildFromDockerfile (dockerfile : string) (opts : BuildFromDockerfileOpts).

(** A recorded call with the error it returned ([None] for [nil]). *)
Record Event := { ev_call : Call; ev_err : option error }.

(** A Go function either returns or panics. *)
Inductive Outcome (A : Type) :=
| Return (a : A)
| Panic (format : string) (operands : list string).
Global Arguments Return {A} a.
Global Arguments Panic {A} format operands.

(** [BuildStapelStageOpts] and [BuildDockerfileOpts]. *)
Record PrepareContainerAction (World : Type) := {
  PrepareContainer : string → World → option error * World;
}.
Global Arguments PrepareContainer {World} _ _ _.

Record BuildStapelStageOpts (World : Type) := {
  PrepareContainerActions : list (PrepareContainerAction World);
  UserCommands : list string;
  BuildVolumes : list string;
  BuildStapelStageOpts_Labels : list string;
}.
Global Arguments PrepareContainerActions {World} _.
Global Arguments UserCommands {World} _.
Global Arguments BuildVolumes {World} _.
Global Arguments BuildStapelStageOpts_Labels {World} _.

Record BuildDockerfileOpts := {
  ContextTar : string;
  Target : string;
  BuildArgs : list string;
}.

(** The [buildah.Buildah] interface over the state [World] of the build
    engine and the host; [uuid.New().String()] draws from the same state. *)
Class Buildah (World : Type) := {
  FromCommand : string → string → CommonOpts → World → (string * option error) * World;
  Mount_ : string → CommonOpts → World → (string * option error) * World;
  Umount : string → CommonOpts → World → option error * World;
  RunCommand : string → list string → RunCommandOpts → World → option error * World;
  Config : string → ConfigOpts → World → option error * World;
  Commit : string → CommitOpts → World → (string * option error) * World;
  Inspect : string → World → (option BuilderInfo * option error) * World;
  BuildFromDockerfile :
    string → BuildFromDockerfileOpts → World → (string * option error) * World;
  uuid_New_String : World → string * World;
}.

Section WithEngine.

Context {World : Type} `{!Buildah World}.

(** [image.ParseRepositoryAndTag], of another package. *)
Variable ParseRepositoryAndTag : string → string * string.

(** The engine state and the calls made so far, oldest first. *)
Record State := { world : World; calls : list Event }.

Definition M (A : Type) : Type := State → Outcome A * State.

#[export] Instance M_ret : MRet M := λ A a st, (Return a, st).

#[export] Instance M_bind : MBind M := λ A B k m st,
  match m st with
  | (Return a, st') => k a st'
  | (Panic f ops, st') => (Panic f ops, st')
  end.

Definition panic {A} (format : string) (operands : list string) : M A :=
  λ st, (Panic format operands, st).

(** A call through the interface: run it on the engine and record it. *)
Definition invoke {A} (c : Call) (errOf : A → option error)
           (op : World → A * World) : M A :=
  λ st, let '(r, w') := op (world st) in
        (Return r, {| world := w';
                      calls := calls st ++ [{| ev_call := c; ev_err := errOf r |}] |}).

(** A step on the engine state that is not an interface call. *)
Definition draw {A} (op : World → A * World) : M A :=
  λ st, let '(r, w') := op (world st) in
        (Return r, {| world := w'; calls := calls st |}).

Definition getBuildahCommonOpts (suppressLog : bool) : CommonOpts :=
  {| LogWriter := if negb suppressLog then Some OutStream else None |}.

(** The loop over [opts.PrepareContainerActions]. *)
Fixpoint prepareActions (index : nat) (containerRoot : string)
         (actions : list (PrepareContainerAction World)) : M (option error) :=
  match actions with
  | [] => mret None
  | action :: rest =>
      err ← invoke (CallPrepareContainer index containerRoot) id
                   (PrepareContainer action containerRoot);
      match err with
      | Some e =>
          mret (Some (Errorf "unable to prepare container in %q: %w" [containerRoot] e))
      | None => prepareActions (S index) containerRoot rest
      end
  end.

(** The function literal called when there are prepare actions; the
    deferred [Umount] runs when it returns and its result is dropped. *)
Definition prepareContainer (containerID : string)
           (actions : list (PrepareContainerAction World)) : M (option error) :=
  '(containerRoot, err) ← invoke (CallMount containerID (getBuildahCommonOpts true)) snd
                                 (Mount_ containerID (getBuildahCommonOpts true));
  match err with
  | Some e =>
      mret (Some (Errorf "unable to mount container %q root dir: %w" [containerID] e))
  | None =>
      r ← prepareActions 0 containerRoot actions;
      _ ← invoke (CallUmount containerRoot (getBuildahCommonOpts true)) id
                 (Umount containerRoot (getBuildahCommonOpts true));
      mret r
  end.

(** The inner loop over [opts.BuildVolumes]. *)
Fixpoint buildMounts (volumes : list string) (mounts : list Mount) : M (list Mount) :=
  match volumes with
  | [] => mret mounts
  | volume :: rest =>
      let volumeParts := GoStrings.SplitN volume ":" 2 in
      if bool_decide (length volumeParts ≠ 2) then
        panic "invalid volume %q: expected SOURCE:DESTINATION format" [volume]
      else
        buildMounts rest
          (mounts ++ [{| Type_ := "bind";
                         Source := nth 0 volumeParts "";
                         Destination := nth 1 volumeParts "" |}])
  end.

(** The loop over [opts.UserCommands]. *)
Fixpoint runUserCommands (containerID : string) (commands volumes : list string)
  : M (option error) :=
  match commands with
  | [] => mret None
  | cmd :: rest =>
      mounts ← buildMounts volumes [];
      let ropts := {| RunCommandOpts_CommonOpts := getBuildahCommonOpts false;
                      Mounts := mounts |} in
      err ← invoke (CallRunCommand containerID ["sh"; "-c"; cmd] ropts) id
                   (RunCommand containerID ["sh"; "-c"; cmd] ropts);
      match err with
      | Some e => mret (Some (Errorf "unable to run %q: %w" [cmd] e))
      | None => runUserCommands containerID rest volumes
      end
  end.

Definition BuildStapelStage (baseImage : string) (opts : BuildStapelStageOpts World)
  : M (string * option error) :=
  u ← draw uuid_New_String;
  let containerID := GoStrings.Sprintf_ss "werf-stage-build-" u in
  '(_, err) ← invoke (CallFromCommand containerID baseImage (getBuildahCommonOpts true)) snd
                     (FromCommand containerID baseImage (getBuildahCommonOpts true));
  match err with
  | Some e =>
      mret ("", Some (Errorf "unable to create container using base image %q: %w"
                             [baseImage] e))
  | None =>
      err ← (if bool_decide (0 < length (PrepareContainerActions opts))
             then prepareContainer containerID (PrepareContainerActions opts)
             else mret None);
      match err with
      | Some e => mret ("", Some e)
      | None =>
          err ← runUserCommands containerID (UserCommands opts) (BuildVolumes opts);
          match err with
          | Some e => mret ("", Some e)
          | None =>
              let copts := {| ConfigOpts_CommonOpts := getBuildahCommonOpts true;
                              ConfigOpts_Labels := BuildStapelStageOpts_Labels opts |} in
              err ← invoke (CallConfig containerID copts) id (Config containerID copts);
              match err with
              | Some e =>
                  mret ("", Some (Errorf "unable to set container %q config: %w"
                                         [containerID] e))
              | None =>
                  let mopts := {| CommitOpts_CommonOpts := getBuildahCommonOpts true |} in
                  '(imgID, err) ← invoke (CallCommit containerID mopts) snd
                                         (Commit containerID mopts);
                  match err with
                  | Some e =>
                      mret ("", Some (Errorf "unable to commit container %q: %w"
                                             [containerID] e))
                  | None => mret (imgID, None)
                  end
              end
          end
      end
  end.

(** [GetImageInfo] returns [nil, nil] if the image is not found. *)
Definition GetImageInfo (ref : string) : M (option Info * option error) :=
  '(inspect, err) ← invoke (CallInspect ref) snd (Inspect ref);
  match err with
  | Some e => mret (None, Some (Errorf "error getting buildah inspect of %q: %w" [ref] e))
  | None =>
      match inspect with
      | None => mret (None, None)
      | Some inspect =>
          let '(repository, tag) := ParseRepositoryAndTag ref in
          mret (Some {| Name := ref;
                        Repository := repository;
                        Tag := tag;
                        RepoDigest := "";
                        Labels := Config_Labels (Docker_Config (Docker inspect));
                        CreatedAtUnixNano := UnixNano (Docker_Created (Docker inspect));
                        OnBuild := Config_OnBuild (Docker_Config (Docker inspect));
                        ID := Docker_ID (Docker inspect);
                        ParentID := Config_Image (Docker_Config (Docker inspect));
                        Size := Docker_Size (Docker inspect) |},
                None)
      end
  end.

(** The loop of [BuildDockerfile] over [opts.BuildArgs]: the map built
    so far, or the error of the early return. *)
Fixpoint parseBuildArgs (args : list string) (buildArgs : gmap string string)
  : gmap string string + error :=
  match args with
  | [] => inl buildArgs
  | argStr :: rest =>
      let argParts := GoStrings.SplitN argStr "=" 2 in
      if bool_decide (length argParts < 2) then
        inr (Errorf0 "invalid build argument %q given, expected string in the key=value format"
                     [argStr])
      else parseBuildArgs rest (<[nth 0 argParts "" := nth 1 argParts ""]> buildArgs)
  end.

Definition BuildDockerfile (dockerfile : string) (opts : BuildDockerfileOpts)
  : M (string * option error) :=
  match parseBuildArgs (BuildArgs opts) ∅ with
  | inr e => mret ("", Some e)
  | inl buildArgs =>
      let bopts := {| BuildFromDockerfileOpts_CommonOpts := {| LogWriter := Some OutStream |};
                      BuildFromDockerfileOpts_ContextTar := ContextTar opts;
                      BuildFromDockerfileOpts_BuildArgs := buildArgs;
                      BuildFromDockerfileOpts_Target := Target opts |} in
      invoke (CallBuildFromDockerfile dockerfile bopts) snd
             (BuildFromDockerfile dockerfile bopts)
  end.

End WithEngine.

End ContainerBackend.

(** ** Notions used to state the properties *)

Module Paths.

(** A clientID that is one clean path element: not empty, not [.] or
    [..], and without a separator. *)
Definition noSeparator (c : string) : bool :=
  forallb (λ ch, negb (Filepath.IsPathSeparator ch)) (list_ascii_of_string c).

Definition isPathElement (c : string) : bool :=
  negb (bool_decide (c = "")) && negb (bool_decide (c = "."))
  && negb (bool_decide (c = "..")) && noSeparator c.

(** What [Clean] has written for the directory [dir] when it reaches a
    further element, the separator before that element included. *)
Definition parentPrefix (dir : string) : string :=
  match dir with
  | EmptyString => EmptyString
  | String c _ =>
      let rooted := Filepath.IsPathSeparator c in
      let st0 := if rooted then {| Filepath.out := [Filepath.Separator]; Filepath.dotdot := 1 |}
                 else {| Filepath.out := []; Filepath.dotdot := 0 |} in
      let st := fold_left (Filepath.clean_step rooted) (Filepath.elements dir) st0 in
      let st1 :=
        if (rooted && negb (bool_decide (Filepath.w st = 1)))
           || (negb rooted && negb (bool_decide (Filepath.w st = 0)))
        then Filepath.append_byte Filepath.Separator st else st in
      Filepath.string_of_out (Filepath.out st1)
  end.

End Paths.

(** ** Entries of a cleaned directory *)

Module CleanPaths.
Import Filepath.

(** The entry [name] of the cleaned directory [dir]: [name] itself in the
    current directory, [/name] in the root, [dir/name] elsewhere. *)
Definition childOf (dir name : string) : string :=
  if bool_decide (dir = ".") then name
  else if bool_decide (dir = "/") then dir +:+ name
  else dir +:+ String Separator name.

(** A relative path that [Clean] is writing starts neither with a
    separator nor with the element [.]. *)
Definition startsClean (s : list ascii) : Prop :=
  match s with
  | [] => True
  | a :: rest =>
      a ≠ Separator
      ∧ (a = "."%char → match rest with [] => False | b :: _ => b ≠ Separator end)
  end.

(** What the loop of [Clean] keeps true of its buffer: a rooted path
    starts with the separator and [dotdot] stays at 1; a relative path
    starts clean and [dotdot] is never 1. *)
Definition bufferInv (rooted : bool) (st : cleanState) : Prop :=
  if rooted then dotdot st = 1 ∧ ∃ t, rev (out st) = Separator :: t
  else dotdot st ≠ 1 ∧ startsClean (rev (out st)).

End CleanPaths.

Module SynchronizationSpec.
Import Synchronization.

(** The location of the instance a factory function returns for a
    clientID, when it returns one. *)
Definition lockManagerLocationOf (args : ServerArgs) (clientID : string) : option Location :=
  match lockManagerFactoryFunc args clientID with
  | inl lm => Some (lockManagerLocation lm)
  | inr _ => None
  end.

Definition stagesStorageCacheLocationOf (args : ServerArgs) (clientID : string)
  : option Location :=
  match stagesStorageCacheFactoryFunc args clientID with
  | inl c => Some (stagesStorageCacheLocation c)
  | inr _ => None
  end.

(** [cmdData] with another value of one flag. *)
Definition withTTL (ttl : string) (c : CmdData) : CmdData := {|
  Kubernetes := Kubernetes c;
  KubernetesNamespacePrefix := KubernetesNamespacePrefix c;
  Local := Local c;
  LocalLockManagerBaseDir := LocalLockManagerBaseDir c;
  LocalStagesStorageCacheBaseDir := LocalStagesStorageCacheBaseDir c;
  TTL := ttl;
  Host := Host c;
  Port := Port c;
|}.

Definition withLocal (b : bool) (c : CmdData) : CmdData := {|
  Kubernetes := Kubernetes c;
  KubernetesNamespacePrefix := KubernetesNamespacePrefix c;
  Local := b;
  LocalLockManagerBaseDir := LocalLockManagerBaseDir c;
  LocalStagesStorageCacheBaseDir := LocalStagesStorageCacheBaseDir c;
  TTL := TTL c;
  Host := Host c;
  Port := Port c;
|}.

Definition serverArgs (r : Run) : option ServerArgs :=
  match r with
  | RunSynchronizationServer args => Some args
  | InitFailed _ => None
  end.

(** A sample process: nothing set in the environment, every
    initialization succeeding, the werf home at [/home/ci/.werf]. *)
Definition sampleGetenv (name : string) : string := "".
Definition sampleBoolTrue (name : string) : bool := true.
Definition sampleBoolFalse (name : string) : bool := false.
Definition sampleInit (a b : string) : option error := None.
Definition sampleHome : string := "/home/ci/.werf".
Definition sampleNewFileLocker (dir : string) : option error := None.

Definition sampleCommon : CommonCmdData :=
  {| TmpDir := "/tmp"; HomeDir := "/home/ci/.werf"; KubeContext := ""; KubeConfig := "" |}.

Definition noFlags : Flags := {|
  flag_local := None;
  flag_local_lock_manager_base_dir := None;
  flag_local_stages_storage_cache_base_dir := None;
  flag_kubernetes := None;
  flag_kubernetes_namespace_prefix := None;
  flag_ttl := None;
  flag_host := None;
  flag_port := None;
|}.

Definition kubernetesFlags : Flags := {|
  flag_local := None;
  flag_local_lock_manager_base_dir := None;
  flag_local_stages_storage_cache_base_dir := None;
  flag_kubernetes := Some true;
  flag_kubernetes_namespace_prefix := None;
  flag_ttl := Some "1h";
  flag_host := Some "0.0.0.0";
  flag_port := None;
|}.

Definition sampleRun (f : Flags) : Run :=
  runSynchronization sampleInit sampleHome sampleInit None sampleNewFileLocker
    sampleCommon (NewCmd sampleGetenv sampleBoolTrue sampleBoolFalse f).

Definition emptyArgs : ServerArgs := {|
  server_host := "";
  server_port := "";
  lockManagerFactoryFunc := λ _, inr (ExternalError "");
  stagesStorageCacheFactoryFunc := λ _, inr (ExternalError "");
|}.

Definition sampleLocalArgs : ServerArgs := default emptyArgs (serverArgs (sampleRun noFlags)).
Definition sampleClusterArgs : ServerArgs :=
  default emptyArgs (serverArgs (sampleRun kubernetesFlags)).

End SynchronizationSpec.


Module BackendSpec.
Import ContainerBackend.

(** Whether the byte [c] occurs in [s]. *)
Fixpoint containsByte (c : ascii) (s : string) : bool :=
  match s with
  | EmptyString => false
  | String b s' => if decide (c = b) then true else containsByte c s'
  end.

(** [s] cut around the first occurrence of the byte [c]. *)
Fixpoint cut (c : ascii) (s : string) : option (string * string) :=
  match s with
  | EmptyString => None
  | String b s' =>
      if decide (c = b) then Some (EmptyString, s')
      else match cut c s' with
           | Some (k, v) => Some (String b k, v)
           | None => None
           end
  end.

(** [arg] is [k], the byte [c], then [v], and that [c] is the first in [arg]. *)
Definition splitAtFirst (c : ascii) (arg k v : string) : Prop :=
  arg = k +:+ String c v ∧ containsByte c k = false.

(** The first entry of [BuildVolumes] without a [:]. *)
Definition firstInvalidVolume (volumes : list string) : option string :=
  find (λ v, negb (containsByte ":" v)) volumes.

(** What a recorded call does, without the names of the container and of
    its mounted root. *)
Inductive Step :=
| CreateContainer (baseImage : string)
| MountRoot
| PrepareAction (index : nat)
| UmountRoot
| UserCommand (command : list string)
| ConfigureLabels (labels : list string)
| CommitContainer
| InspectImage (ref : string)
| BuildImage (buildArgs : gmap string string).

Definition stepOf (c : Call) : Step :=
  match c with
  | CallFromCommand _ image _ => CreateContainer image
  | CallMount _ _ => MountRoot
  | CallUmount _ _ => UmountRoot
  | CallPrepareContainer index _ => PrepareAction index
  | CallRunCommand _ command _ => UserCommand command
  | CallConfig _ opts => ConfigureLabels (ConfigOpts_Labels opts)
  | CallCommit _ _ => CommitContainer
  | CallInspect ref => InspectImage ref
  | CallBuildFromDockerfile _ opts => BuildImage (BuildFromDockerfileOpts_BuildArgs opts)
  end.

Definition stepsOf (trace : list Event) : list Step :=
  map (λ ev, stepOf (ev_call ev)) trace.

(** [Umount] is the deferred clean-up; its error is dropped. *)
Definition isCleanup (ev : Event) : bool :=
  match ev_call ev with CallUmount _ _ => true | _ => false end.

(** A step of the build that returned an error. *)
Definition stepFailed (ev : Event) : bool :=
  negb (isCleanup ev) && match ev_err ev with Some _ => true | None => false end.

Definition allSucceeded (trace : list Event) : bool :=
  forallb (λ ev, negb (stepFailed ev)) trace.

(** The steps of a stapel stage build, in order. *)
Definition plan {World} (baseImage : string) (opts : BuildStapelStageOpts World) : list Step :=
  [CreateContainer baseImage]
  ++ (if bool_decide (0 < length (PrepareContainerActions opts))
      then [MountRoot]
           ++ map PrepareAction (seq 0 (length (PrepareContainerActions opts)))
           ++ [UmountRoot]
      else [])
  ++ map (λ cmd, UserCommand ["sh"; "-c"; cmd]) (UserCommands opts)
  ++ [ConfigureLabels (BuildStapelStageOpts_Labels opts); CommitContainer].

(** The trace follows the steps [p] up to a first failing step and has
    nothing but clean-up after it. *)
Definition stoppedAtFailure (trace : list Event) (p : list Step) : Prop :=
  ∃ pre ev post,
    trace = pre ++ ev :: post
    ∧ allSucceeded pre = true
    ∧ stepFailed ev = true
    ∧ forallb isCleanup post = true
    ∧ stepsOf (pre ++ [ev]) `prefix_of` p.

(** How a loop or block of the build ended: without error after the
    steps [p], or with an error at the first failing one. *)
Definition phaseOutcome (r : option error) (new : list Event) (p : list Step) : Prop :=
  (r = None ∧ allSucceeded new = true ∧ stepsOf new = p)
  ∨ (is_Some r ∧ stoppedAtFailure new p).

Definition withBuildVolumes {World} (volumes : list string) (opts : BuildStapelStageOpts World)
  : BuildStapelStageOpts World := {|
  PrepareContainerActions := PrepareContainerActions opts;
  UserCommands := UserCommands opts;
  BuildVolumes := volumes;
  BuildStapelStageOpts_Labels := BuildStapelStageOpts_Labels opts;
|}.

(** A scripted engine for the examples: container creation fails when
    [failCreate] is set, the command [failCommand] fails when run, and
    only the image [knownImage] exists. *)
Record Fake := {
  failCreate : bool;
  failCommand : string;
  knownImage : string;
}.

Definition fakeInspect : BuilderInfo := {|
  Docker := {|
    Docker_Config := {| Config_Labels := {["werf" := "true"]};
                        Config_OnBuild := [];
                        Config_Image := "sha256:parent" |};
    Docker_Created := {| UnixNano := 1600000000000000000 |};
    Docker_ID := "sha256:image";
    Docker_Size := 4096;
  |}
|}.

#[export] Instance fakeBuildah : Buildah Fake := {|
  FromCommand container image opts w :=
    if failCreate w then (("", Some (ExternalError "image not known")), w)
    else ((container, None), w);
  Mount_ container opts w := (("/var/lib/containers/" +:+ container, None), w);
  Umount containerRoot opts w := (None, w);
  RunCommand container command opts w :=
    if bool_decide (command = ["sh"; "-c"; failCommand w])
    then (Some (ExternalError "exit status 1"), w) else (None, w);
  Config container opts w := (None, w);
  Commit container opts w := (("sha256:built", None), w);
  Inspect ref w :=
    if bool_decide (ref = knownImage w) then ((Some fakeInspect, None), w)
    else ((None, None), w);
  BuildFromDockerfile dockerfile opts w := (("sha256:dockerfile", None), w);
  uuid_New_String w := ("b7e1f0c2", w);
|}.

Definition fakeOK : Fake :=
  {| failCreate := false; failCommand := "false"; knownImage := "repo:tag" |}.
Definition fakeNoBase : Fake :=
  {| failCreate := true; failCommand := "false"; knownImage := "repo:tag" |}.

Definition fakeStart (w : Fake) : State := {| world := w; calls := [] |}.

Definition fakeAction : PrepareContainerAction Fake :=
  {| PrepareContainer containerRoot w := (None, w) |}.

Definition fakeOpts (commands volumes : list string) : BuildStapelStageOpts Fake := {|
  PrepareContainerActions := [fakeAction];
  UserCommands := commands;
  BuildVolumes := volumes;
  BuildStapelStageOpts_Labels := ["werf=true"];
|}.

Definition fakeParse (ref : string) : string * string :=
  match cut ":" ref with
  | Some (repository, tag) => (repository, tag)
  | None => (ref, "latest")
  end.

Definition fakeDockerfileOpts (args : list string) : BuildDockerfileOpts :=
  {| ContextTar := ""; Target := "final"; BuildArgs := args |}.

Definition sampleBuildArgs : list string :=
  ["VERSION=1.2"; "CFLAGS=-O2 -DMODE=fast"; "VERSION=2.0"].

End BackendSpec.

(** ** The errors of a stapel stage build *)

Module BuildErrors.
Import ContainerBackend BackendSpec.

(** The error [BuildStapelStage] returns when the call [c] has failed
    with the error [e]. *)
Definition stepError (c : Call) (e : error) : error :=
  match c with
  | CallFromCommand _ image _ =>
      Errorf "unable to create container using base image %q: %w" [image] e
  | CallMount container _ =>
      Errorf "unable to mount container %q root dir: %w" [container] e
  | CallPrepareContainer _ containerRoot =>
      Errorf "unable to prepare container in %q: %w" [containerRoot] e
  | CallRunCommand _ command _ => Errorf "unable to run %q: %w" [nth 2 command ""] e
  | CallConfig container _ => Errorf "unable to set container %q config: %w" [container] e
  | CallCommit container _ => Errorf "unable to commit container %q: %w" [container] e
  | _ => e
  end.

(** The trace stops at a step that failed, with nothing but clean-up
    after it, and [r] is the error made of the error of that step. *)
Definition failedWith (trace : list Event) (r : error) : Prop :=
  ∃ pre ev post e,
    trace = pre ++ ev :: post
    ∧ allSucceeded pre = true
    ∧ stepFailed ev = true
    ∧ ev_err ev = Some e
    ∧ forallb isCleanup post = true
    ∧ r = stepError (ev_call ev) e.

(** A call of the steps before the user commands: the creation of the
    container and the block that prepares it. *)
Definition isEarlyCall (c : Call) : bool :=
  match c with
  | CallFromCommand _ _ _ | CallMount _ _ | CallPrepareContainer _ _ | CallUmount _ _ => true
  | _ => false
  end.

End BuildErrors.


(** ** Further notions for the synchronization command *)

Module SynchronizationMore.
Import Synchronization SynchronizationSpec.

(** The directory [child] lies somewhere below the directory [parent]. *)
Definition insideDir (child parent : string) : Prop :=
  ∃ rest, child = parent +:+ String Filepath.Separator rest.

(** The base directories [runSynchronization] computes for the local backend. *)
Definition lockManagerBaseDirOf (werf_GetHomeDir : string) (c : CmdData) : string :=
  if bool_decide (LocalLockManagerBaseDir c = "")
  then Filepath.Join [werf_GetHomeDir; "synchronization_server"; "lock_manager"]
  else LocalLockManagerBaseDir c.

Definition stagesStorageCacheBaseDirOf (werf_GetHomeDir : string) (c : CmdData) : string :=
  if bool_decide (LocalStagesStorageCacheBaseDir c = "")
  then Filepath.Join [werf_GetHomeDir; "synchronization_server"; "stages_storage_cache"]
  else LocalStagesStorageCacheBaseDir c.

(** A process in which the kubernetes client cannot be initialized, and one
    in which the lock directory of the client [locked] cannot be created. *)
Definition failingInit (a b : string) : option error :=
  Some (ExternalError "no kube config").

Definition refusingNewFileLocker (dir : string) : option error :=
  if bool_decide (dir = "/home/ci/.werf/synchronization_server/lock_manager/locked")
  then Some (ExternalError "permission denied") else None.

Definition sampleRefusingArgs : ServerArgs :=
  default emptyArgs
    (serverArgs (runSynchronization sampleInit sampleHome sampleInit None refusingNewFileLocker
                   sampleCommon (NewCmd sampleGetenv sampleBoolTrue sampleBoolFalse noFlags))).

(** A process with [WERF_HOST] set in the environment, and a command line
    that gives [--host] with the empty value. *)
Definition hostGetenv (name : string) : string :=
  if bool_decide (name = "WERF_HOST") then "10.0.0.1" else "".

Definition emptyHostFlags : Flags := {|
  flag_local := None;
  flag_local_lock_manager_base_dir := None;
  flag_local_stages_storage_cache_base_dir := None;
  flag_kubernetes := None;
  flag_kubernetes_namespace_prefix := None;
  flag_ttl := None;
  flag_host := Some "";
  flag_port := None;
|}.

Definition sampleEmptyHostArgs : ServerArgs :=
  default emptyArgs
    (serverArgs (runSynchronization sampleInit sampleHome sampleInit None sampleNewFileLocker
                   sampleCommon (NewCmd hostGetenv sampleBoolTrue sampleBoolFalse
                                        emptyHostFlags))).

End SynchronizationMore.

(** ** Further notions for the stapel stage build *)

Module BackendMore.
Import ContainerBackend BackendSpec.

(** The bind mount of the volume [SOURCE:DESTINATION], cut at its first [:]. *)
Definition mountOf (volume : string) : option Mount :=
  match cut ":" volume with
  | Some (source, destination) =>
      Some {| Type_ := "bind"; Source := source; Destination := destination |}
  | None => None
  end.

Definition mountsOf (volumes : list string) : list Mount := omap mountOf volumes.

(** The container an engine call works on, and the mounted root a
    prepare action or the clean-up works on. *)
Definition containerOf (c : Call) : option string :=
  match c with
  | CallFromCommand container _ _ => Some container
  | CallMount container _ => Some container
  | CallRunCommand container _ _ => Some container
  | CallConfig container _ => Some container
  | CallCommit container _ => Some container
  | _ => None
  end.

Definition rootOf (c : Call) : option string :=
  match c with
  | CallPrepareContainer _ containerRoot => Some containerRoot
  | CallUmount containerRoot _ => Some containerRoot
  | _ => None
  end.

Definition isMount (ev : Event) : bool :=
  match ev_call ev with CallMount _ _ => true | _ => false end.

Definition isMounted (ev : Event) : bool :=
  isMount ev && match ev_err ev with None => true | Some _ => false end.

Definition isPrepare (ev : Event) : bool :=
  match ev_call ev with CallPrepareContainer _ _ => true | _ => false end.

(** The calls of the block that prepares the container, which runs only
    when there are [n > 0] prepare actions: a failed [Mount], or a [Mount],
    then prepare actions on [root], then the [Umount] of [root]; here
    [root] is the directory the [Mount] returned. *)
Definition prepareTrace (containerID root : string) (n : nat) (trace : list Event) : Prop :=
  (n = 0 ∧ trace = [])
  ∨ (0 < n ∧ ∃ e, trace = [{| ev_call := CallMount containerID (getBuildahCommonOpts true);
                               ev_err := Some e |}])
  ∨ (0 < n ∧ ∃ acts eu,
       trace = {| ev_call := CallMount containerID (getBuildahCommonOpts true);
                  ev_err := None |}
               :: acts
               ++ [{| ev_call := CallUmount root (getBuildahCommonOpts true); ev_err := eu |}]
       ∧ Forall (λ ev, ∃ i, ev_call ev = CallPrepareContainer i root) acts).

(** The root directory that [Mount] returns to a build started in the
    engine state [w]: the engine is asked after the draw of the UUID and
    after [FromCommand]. *)
Definition mountedRoot {World} `{!Buildah World} (baseImage : string) (w : World) : string :=
  let '(u, w0) := uuid_New_String w in
  let containerID := GoStrings.Sprintf_ss "werf-stage-build-" u in
  let '(_, w1) := FromCommand containerID baseImage (getBuildahCommonOpts true) w0 in
  (Mount_ containerID (getBuildahCommonOpts true) w1).1.1.

(** A recorded run of a user command of the build. *)
Definition runEvent (containerID : string) (commands volumes : list string) (ev : Event) : Prop :=
  ∃ cmd, cmd ∈ commands
         ∧ ev_call ev
           = CallRunCommand containerID ["sh"; "-c"; cmd]
               {| RunCommandOpts_CommonOpts := getBuildahCommonOpts false;
                  Mounts := mountsOf volumes |}.

(** A recorded configuration or commit of the build. *)
Definition tailEvent (containerID : string) (labels : list string) (ev : Event) : Prop :=
  ev_call ev = CallConfig containerID {| ConfigOpts_CommonOpts := getBuildahCommonOpts true;
                                         ConfigOpts_Labels := labels |}
  ∨ ev_call ev = CallCommit containerID {| CommitOpts_CommonOpts := getBuildahCommonOpts true |}.

Definition isBlockEvent (ev : Event) : bool :=
  isMount ev || isPrepare ev || isCleanup ev.

(** A scripted action that fails, and options with it between two that succeed. *)
Definition fakeFailingAction : PrepareContainerAction Fake :=
  {| PrepareContainer containerRoot w := (Some (ExternalError "disk full"), w) |}.

Definition fakeFailingPrepareOpts : BuildStapelStageOpts Fake := {|
  PrepareContainerActions := [fakeAction; fakeFailingAction; fakeAction];
  UserCommands := ["make"];
  BuildVolumes := [];
  BuildStapelStageOpts_Labels := [];
|}.

End BackendMore.

(** ** The image operations of the buildah container backend *)

(** [LegacyImageInterface], the methods the backend calls. The image
    object is passed along explicitly. [GetStageDescription] returns a
    pointer ([None] for [nil]) to a description whose [Info] is a pointer
    again; [StoreStageDescriptionInfo] is the image object after a store
    through that pointer. *)
Module LegacyImage.

Record StageDescription := { Info : option ContainerBackend.Info }.

Class LegacyImageInterface (Img : Type) := {
  Name : Img → string;
  SetName : string → Img → Img;
  SetInfo : option ContainerBackend.Info → Img → Img;
  GetStageDescription : Img → option StageDescription;
  StoreStageDescriptionInfo : ContainerBackend.Info → Img → Img;
}.

End LegacyImage.

Module ImageBackend.
Import ContainerBackend.

(** [buildah.RmiOpts]; [PullOpts], [TagOpts] and [PushOpts] carry the log
    writer only and are [CommonOpts]. *)
Record RmiOpts := { Force : bool; RmiOpts_CommonOpts : CommonOpts }.

(** The image methods of the [buildah.Buildah] interface. *)
Class BuildahImages (World : Type) := {
  buildah_Rmi : string → RmiOpts → World → option error * World;
  buildah_Pull : string → CommonOpts → World → option error * World;
  buildah_Tag : string → string → CommonOpts → World → option error * World;
  buildah_Push : string → CommonOpts → World → option error * World;
}.

(** The calls recorded here: these four, and those of the functions above. *)
Inductive ImageCall :=
| BackendCall (c : Call)
| CallRmi (ref : string) (opts : RmiOpts)
| CallPull (ref : string) (opts : CommonOpts)
| CallTag (ref newRef : string) (opts : CommonOpts)
| CallPush (ref : string) (opts : CommonOpts).

Record ImageEvent := { iev_call : ImageCall; iev_err : option error }.

Definition backendEvent (ev : Event) : ImageEvent :=
  {| iev_call := BackendCall (ev_call ev); iev_err := ev_err ev |}.

(** [image.Info] with another repository or tag. *)
Definition withRepository (repository : string) (i : Info) : Info := {|
  Name := Name i; Repository := repository; Tag := Tag i; RepoDigest := RepoDigest i;
  OnBuild := OnBuild i; ID := ID i; ParentID := ParentID i; Labels := Labels i;
  Size := Size i; CreatedAtUnixNano := CreatedAtUnixNano i;
|}.

Definition withTag (tag : string) (i : Info) : Info := {|
  Name := Name i; Repository := Repository i; Tag := tag; RepoDigest := RepoDigest i;
  OnBuild := OnBuild i; ID := ID i; ParentID := ParentID i; Labels := Labels i;
  Size := Size i; CreatedAtUnixNano := CreatedAtUnixNano i;
|}.

Section WithEngine.

Context {World : Type} `{!Buildah World} `{!BuildahImages World}.
Context {Img : Type} `{!LegacyImage.LegacyImageInterface Img}.

Variable ParseRepositoryAndTag : string → string * string.

Record IState := { iworld : World; icalls : list ImageEvent }.

Definition IM (A : Type) : Type := IState → Outcome A * IState.

#[export] Instance IM_ret : MRet IM := λ A a st, (Return a, st).

#[export] Instance IM_bind : MBind IM := λ A B k m st,
  match m st with
  | (Return a, st') => k a st'
  | (Panic f ops, st') => (Panic f ops, st')
  end.

Definition ipanic {A} (format : string) (operands : list string) : IM A :=
  λ st, (Panic format operands, st).

Definition invokeI {A} (c : ImageCall) (errOf : A → option error)
           (op : World → A * World) : IM A :=
  λ st, let '(r, w') := op (iworld st) in
        (Return r, {| iworld := w';
                      icalls := icalls st ++ [{| iev_call := c; iev_err := errOf r |}] |}).

(** A function of the first part run here: on the same engine state,
    its calls recorded after those made so far. *)
Definition liftM {A} (m : M A) : IM A :=
  λ st, let '(r, st') := m {| world := iworld st; calls := [] |} in
        (r, {| iworld := world st'; icalls := icalls st ++ map backendEvent (calls st') |}).

Definition HasStapelBuildSupport : bool := true.

Definition Rmi (ref : string) : IM (option error) :=
  let opts := {| Force := true; RmiOpts_CommonOpts := {| LogWriter := Some OutStream |} |} in
  invokeI (CallRmi ref opts) id (buildah_Rmi ref opts).

Definition Pull (ref : string) : IM (option error) :=
  invokeI (CallPull ref {| LogWriter := Some OutStream |}) id
          (buildah_Pull ref {| LogWriter := Some OutStream |}).

Definition Tag (ref newRef : string) : IM (option error) :=
  invokeI (CallTag ref newRef {| LogWriter := Some OutStream |}) id
          (buildah_Tag ref newRef {| LogWriter := Some OutStream |}).

Definition Push (ref : string) : IM (option error) :=
  invokeI (CallPush ref {| LogWriter := Some OutStream |}) id
          (buildah_Push ref {| LogWriter := Some OutStream |}).

Definition RefreshImageObject (img : Img) : IM (option error * Img) :=
  '(info, err) ← liftM (GetImageInfo ParseRepositoryAndTag (LegacyImage.Name img));
  match err with
  | Some e => mret (Some e, img)
  | None => mret (None, LegacyImage.SetInfo info img)
  end.

Definition PullImageFromRegistry (img : Img) : IM (option error * Img) :=
  err ← Pull (LegacyImage.Name img);
  match err with
  | Some e =>
      mret (Some (Errorf "unable to pull image %s: %w" [LegacyImage.Name img] e), img)
  | None =>
      '(info, err) ← liftM (GetImageInfo ParseRepositoryAndTag (LegacyImage.Name img));
      match err with
      | Some e =>
          mret (Some (Errorf "unable to get inspect of image %s: %w"
                             [LegacyImage.Name img] e), img)
      | None => mret (None, LegacyImage.SetInfo info img)
      end
  end.

(** The function passed to the first [LogProcess(...).DoError] of [RenameImage]. *)
Definition tagImage (img : Img) (newImageName : string) : IM (option error) :=
  err ← Tag (LegacyImage.Name img) newImageName;
  match err with
  | Some e =>
      mret (Some (Errorf "unable to tag image %s by name %s: %w"
                         [LegacyImage.Name img; newImageName] e))
  | None => mret None
  end.

(** The function passed to [DoError] to remove a tag, in [RenameImage]
    and in [RemoveImage]. *)
Definition removeImageTag (img : Img) : IM (option error) :=
  err ← Rmi (LegacyImage.Name img);
  match err with
  | Some e => mret (Some (Errorf "unable to remove image %q: %w" [LegacyImage.Name img] e))
  | None => mret None
  end.

Definition RenameImage (img : Img) (newImageName : string) (removeOldName : bool)
  : IM (option error * Img) :=
  err ← tagImage img newImageName;
  match err with
  | Some e => mret (Some e, img)
  | None =>
      err ← (if removeOldName then removeImageTag img else mret None);
      match err with
      | Some e => mret (Some e, img)
      | None =>
          let img := LegacyImage.SetName newImageName img in
          '(info, err) ← liftM (GetImageInfo ParseRepositoryAndTag (LegacyImage.Name img));
          match err with
          | Some e => mret (Some e, img)
          | None =>
              let img := LegacyImage.SetInfo info img in
              let desc := LegacyImage.GetStageDescription img in
              let '(repository, tag) := ParseRepositoryAndTag newImageName in
              match desc with
              | None => ipanic "invalid memory address or nil pointer dereference" []
              | Some desc =>
                  match LegacyImage.Info desc with
                  | None => ipanic "invalid memory address or nil pointer dereference" []
                  | Some descInfo =>
                      let descInfo := withRepository repository descInfo in
                      let img := LegacyImage.StoreStageDescriptionInfo descInfo img in
                      let descInfo := withTag tag descInfo in
                      let img := LegacyImage.StoreStageDescriptionInfo descInfo img in
                      mret (None, img)
                  end
              end
          end
      end
  end.

Definition RemoveImage (img : Img) : IM (option error) :=
  err ← removeImageTag img;
  match err with
  | Some e => mret (Some e)
  | None => mret None
  end.

Definition String_ : string := "buildah-runtime".

End WithEngine.

End ImageBackend.

(** ** Notions used to state the properties of the image operations *)

Module ImageSpec.
Import ContainerBackend ImageBackend.

Definition tagEvent (ref newRef : string) (err : option error) : ImageEvent :=
  {| iev_call := CallTag ref newRef {| LogWriter := Some OutStream |}; iev_err := err |}.

Definition rmiEvent (ref : string) (err : option error) : ImageEvent :=
  {| iev_call := CallRmi ref {| Force := true;
                                RmiOpts_CommonOpts := {| LogWriter := Some OutStream |} |};
     iev_err := err |}.

Definition pullEvent (ref : string) (err : option error) : ImageEvent :=
  {| iev_call := CallPull ref {| LogWriter := Some OutStream |}; iev_err := err |}.

Definition inspectEvent (ref : string) (err : option error) : ImageEvent :=
  {| iev_call := BackendCall (CallInspect ref); iev_err := err |}.

(** The error [GetImageInfo] makes of an error of the inspect. *)
Definition inspectError (ref : string) (e : error) : error :=
  Errorf "error getting buildah inspect of %q: %w" [ref] e.

(** The calls of a complete [RenameImage]: the image is tagged by the new
    name, the old tag is removed if asked for, and the image is inspected
    under the name the object reports after [SetName]. *)
Definition renameCalls {Img} `{!LegacyImage.LegacyImageInterface Img}
           (img : Img) (newImageName : string) (removeOldName : bool) : list ImageEvent :=
  tagEvent (LegacyImage.Name img) newImageName None
  :: (if removeOldName then [rmiEvent (LegacyImage.Name img) None] else [])
  ++ [inspectEvent (LegacyImage.Name (LegacyImage.SetName newImageName img)) None].

Definition isRmi (ev : ImageEvent) : bool :=
  match iev_call ev with CallRmi _ _ => true | _ => false end.

(** A scripted image store for the examples: the references it knows. *)
Record FakeStore := { images : list string }.

#[export] Instance fakeStoreBuildah : Buildah FakeStore := {|
  FromCommand container image opts w := ((container, None), w);
  Mount_ container opts w := (("/", None), w);
  Umount containerRoot opts w := (None, w);
  RunCommand container command opts w := (None, w);
  Config container opts w := (None, w);
  Commit container opts w := (("sha256:built", None), w);
  Inspect ref w :=
    if bool_decide (ref ∈ images w) then ((Some BackendSpec.fakeInspect, None), w)
    else ((None, None), w);
  BuildFromDockerfile dockerfile opts w := (("sha256:dockerfile", None), w);
  uuid_New_String w := ("b7e1f0c2", w);
|}.

#[export] Instance fakeStoreImages : BuildahImages FakeStore := {|
  buildah_Rmi ref opts w :=
    if bool_decide (ref ∈ images w)
    then (None, {| images := List.filter (λ r, negb (bool_decide (r = ref))) (images w) |})
    else (Some (ExternalError "image not known"), w);
  buildah_Pull ref opts w :=
    if bool_decide (ref = "registry.example/gone:1")
    then (Some (ExternalError "manifest unknown"), w)
    else (None, {| images := ref :: images w |});
  buildah_Tag ref newRef opts w :=
    if bool_decide (ref ∈ images w) then (None, {| images := newRef :: images w |})
    else (Some (ExternalError "image not known"), w);
  buildah_Push ref opts w :=
    if bool_decide (ref ∈ images w) then (None, w)
    else (Some (ExternalError "image not known"), w);
|}.

(** A scripted image object: its name, info and stage description. *)
Record FakeImage := {
  fake_name : string;
  fake_info : option Info;
  fake_desc : option LegacyImage.StageDescription;
}.

#[export] Instance fakeImage : LegacyImage.LegacyImageInterface FakeImage := {|
  LegacyImage.Name i := fake_name i;
  LegacyImage.SetName name i :=
    {| fake_name := name; fake_info := fake_info i; fake_desc := fake_desc i |};
  LegacyImage.SetInfo info i :=
    {| fake_name := fake_name i; fake_info := info; fake_desc := fake_desc i |};
  LegacyImage.GetStageDescription i := fake_desc i;
  LegacyImage.StoreStageDescriptionInfo info i :=
    {| fake_name := fake_name i; fake_info := fake_info i;
       fake_desc := Some {| LegacyImage.Info := Some info |} |};
|}.

Definition fakeStoreStart (refs : list string) : IState :=
  {| iworld := {| images := refs |}; icalls := [] |}.

Definition fakeStageImage : FakeImage :=
  {| fake_name := "repo:stage"; fake_info := None; fake_desc := None |}.

End ImageSpec.

(** ** The helm action configuration *)

Module GoStringsSplit.
Import GoStrings.

(** The loop of [strings.Count(s, substr)] for a non-empty [substr]; each
    turn drops at least one byte of [s], so [len(s)] turns are enough. *)
Fixpoint Count_loop (turns : nat) (s substr : string) (n : nat) : nat :=
  match turns with
  | O => n
  | S turns' =>
      match Index s substr with
      | None => n
      | Some i => Count_loop turns' (drop (i + len substr) s) substr (n + 1)
      end
  end.

Definition Count (s substr : string) : nat := Count_loop (len s) s substr 0.

(** [strings.Split(s, sep)] for a non-empty [sep]: [genSplit] with
    [n = Count(s, sep) + 1], capped by [len(s) + 1]. *)
Definition Split (s sep : string) : list string :=
  genSplit_loop (Nat.min (Count s sep + 1) (len s + 1) - 1) s sep.

End GoStringsSplit.

Module Helm.

(** [kube.KubeConfigOptions], the fields read ([ConfigBase64] is a TODO
    of the source). *)
Record KubeConfigOptions := {
  KubeConfigOptions_Context : string;
  KubeConfigOptions_ConfigPath : string;
}.

Record InitActionConfigOptions := {
  StatusProgressPeriod : Z;
  HooksStatusProgressPeriod : Z;
  InitActionConfigOptions_KubeConfigOptions : KubeConfigOptions;
  ReleasesHistoryMax : Z;
}.

(** [cli.EnvSettings]: the string behind [GetNamespaceP()] and the
    fields assigned. *)
Record EnvSettings := {
  namespaceP : string;
  KubeContext : string;
  KubeConfig : string;
  MaxHistory : Z;
}.

(** [NewResourcesWaiter(kubeClient, time.Now(), ...)], stored in the
    client it is made for. *)
Inductive ResourcesWaiter :=
| NewResourcesWaiter (now : Z) (statusProgressPeriod hooksStatusProgressPeriod : Z).

(** The dynamic type of [actionConfig.KubeClient]: a [*helm_kube.Client]
    (not nil) with its [ResourcesWaiter], the printing client of kubefake,
    or anything else. *)
Inductive KubeClient :=
| HelmKubeClient (waiter : option ResourcesWaiter)
| PrintingKubeClient
| OtherKubeClient.

(** The dynamic type of [actionConfig.Releases.Driver]. *)
Inductive Driver (Memory : Type) :=
| MemoryDriver (mem : Memory)
| OtherDriver.
Global Arguments MemoryDriver {Memory} mem.
Global Arguments OtherDriver {Memory}.

(** [action.Configuration], the fields used. *)
Record Configuration (Memory RegistryClient : Type) := {
  Releases_Driver : Driver Memory;
  Configuration_KubeClient : KubeClient;
  RegistryClient_ : option RegistryClient;
}.
Global Arguments Releases_Driver {Memory RegistryClient} _.
Global Arguments Configuration_KubeClient {Memory RegistryClient} _.
Global Arguments RegistryClient_ {Memory RegistryClient} _.

(** A call returns, panics, or ends the process through [log.Fatal]. *)
Inductive Exit (A : Type) :=
| Returned (a : A)
| Panicked (msg : string)
| Fatal (msg : string) (err : error).
Global Arguments Returned {A} a.
Global Arguments Panicked {A} msg.
Global Arguments Fatal {A} msg err.

Section WithCollaborators.

Context {Release Memory RegistryClient : Type}.

(** The environment, the file system and the helm library. *)
Variable Getenv : string → string.
Variable ReadFile : string → string * option error.
Variable yaml_Unmarshal : string → list Release * option error.
Variable store_Create : Release → Memory → option error * Memory.
Variable mem_SetNamespace : string → Memory → Memory.
Variable envSettings_Namespace : EnvSettings → string.
Variable actionConfig_Init :
  EnvSettings → string → string → Configuration Memory RegistryClient →
  option error * Configuration Memory RegistryClient.
Variable NewRegistryClient : option RegistryClient * option error.
Variable time_Now : Z.

(** The loop over the releases of one file. *)
Fixpoint createReleases (releases : list Release) (mem : Memory) : Exit Memory :=
  match releases with
  | [] => Returned mem
  | rel :: rest =>
      match store_Create rel mem with
      | (Some err, _) => Fatal "" err
      | (None, mem') => createReleases rest mem'
      end
  end.

(** The loop over [filePaths]. *)
Fixpoint loadFiles (filePaths : list string) (mem : Memory) : Exit Memory :=
  match filePaths with
  | [] => Returned mem
  | path :: rest =>
      match ReadFile path with
      | (_, Some err) => Fatal "Unable to read memory driver data" err
      | (b, None) =>
          match yaml_Unmarshal b with
          | (_, Some err) => Fatal "Unable to unmarshal memory driver data: " err
          | (releases, None) =>
              match createReleases releases mem with
              | Returned mem' => loadFiles rest mem'
              | Panicked msg => Panicked msg
              | Fatal msg err => Fatal msg err
              end
          end
      end
  end.

Definition loadReleasesInMemory (envSettings : EnvSettings)
           (actionConfig : Configuration Memory RegistryClient)
  : Exit (Configuration Memory RegistryClient) :=
  let filePaths := GoStringsSplit.Split (Getenv "HELM_MEMORY_DRIVER_DATA") ":" in
  if bool_decide (length filePaths = 0) then Returned actionConfig
  else
    match Releases_Driver actionConfig with
    | OtherDriver => Returned actionConfig
    | MemoryDriver mem =>
        let actionConfig :=
          {| Releases_Driver := Releases_Driver actionConfig;
             Configuration_KubeClient := PrintingKubeClient;
             RegistryClient_ := RegistryClient_ actionConfig |} in
        match loadFiles filePaths mem with
        | Returned mem' =>
            Returned {| Releases_Driver :=
                          MemoryDriver (mem_SetNamespace (envSettings_Namespace envSettings)
                                                         mem');
                        Configuration_KubeClient := Configuration_KubeClient actionConfig;
                        RegistryClient_ := RegistryClient_ actionConfig |}
        | Panicked msg => Panicked msg
        | Fatal msg err => Fatal msg err
        end
    end.

(** The assignments to [envSettings] at the start of [InitActionConfig]. *)
Definition initEnvSettings (namespace : string) (envSettings : EnvSettings)
           (opts : InitActionConfigOptions) : EnvSettings :=
  let envSettings :=
    {| namespaceP := namespace; KubeContext := KubeContext envSettings;
       KubeConfig := KubeConfig envSettings; MaxHistory := MaxHistory envSettings |} in
  let kopts := InitActionConfigOptions_KubeConfigOptions opts in
  let envSettings :=
    if bool_decide (KubeConfigOptions_Context kopts ≠ "")
    then {| namespaceP := namespaceP envSettings;
            KubeContext := KubeConfigOptions_Context kopts;
            KubeConfig := KubeConfig envSettings; MaxHistory := MaxHistory envSettings |}
    else envSettings in
  let envSettings :=
    if bool_decide (KubeConfigOptions_ConfigPath kopts ≠ "")
    then {| namespaceP := namespaceP envSettings; KubeContext := KubeContext envSettings;
            KubeConfig := KubeConfigOptions_ConfigPath kopts;
            MaxHistory := MaxHistory envSettings |}
    else envSettings in
  if bool_decide (ReleasesHistoryMax opts ≠ 0%Z)
  then {| namespaceP := namespaceP envSettings; KubeContext := KubeContext envSettings;
          KubeConfig := KubeConfig envSettings; MaxHistory := ReleasesHistoryMax opts |}
  else {| namespaceP := namespaceP envSettings; KubeContext := KubeContext envSettings;
          KubeConfig := KubeConfig envSettings; MaxHistory := 0 |}.

(** [InitActionConfig]: the settings it leaves, and how it ends, with the
    action configuration it leaves when it returns. *)
Definition InitActionConfig (namespace : string) (envSettings : EnvSettings)
           (actionConfig : Configuration Memory RegistryClient)
           (opts : InitActionConfigOptions)
  : EnvSettings * Exit (option error * Configuration Memory RegistryClient) :=
  let envSettings := initEnvSettings namespace envSettings opts in
  let helmDriver := Getenv "HELM_DRIVER" in
  (envSettings,
   match actionConfig_Init envSettings (envSettings_Namespace envSettings) helmDriver
                           actionConfig with
   | (Some err, actionConfig) =>
       Returned (Some (Errorf "action config init failed: %s" [] err), actionConfig)
   | (None, actionConfig) =>
       let loaded :=
         if bool_decide (helmDriver = "memory")
         then loadReleasesInMemory envSettings actionConfig
         else Returned actionConfig in
       match loaded with
       | Panicked msg => Panicked msg
       | Fatal msg err => Fatal msg err
       | Returned actionConfig =>
           match Configuration_KubeClient actionConfig with
           | HelmKubeClient _ =>
               let actionConfig :=
                 {| Releases_Driver := Releases_Driver actionConfig;
                    Configuration_KubeClient :=
                      HelmKubeClient
                        (Some (NewResourcesWaiter time_Now (StatusProgressPeriod opts)
                                                  (HooksStatusProgressPeriod opts)));
                    RegistryClient_ := RegistryClient_ actionConfig |} in
               match NewRegistryClient with
               | (_, Some err) =>
                   Returned (Some (Errorf "unable to create registry client: %s" [] err),
                             actionConfig)
               | (registryClient, None) =>
                   Returned (None,
                             {| Releases_Driver := Releases_Driver actionConfig;
                                Configuration_KubeClient :=
                                  Configuration_KubeClient actionConfig;
                                RegistryClient_ := registryClient |})
               end
           | _ =>
               Panicked "interface conversion: interface is not *kube.Client"
           end
       end
   end).

End WithCollaborators.

(** A sample process for the examples: no variable set but the driver,
    one data file with two releases, every call succeeding. *)
Definition sampleGetenv (name : string) : string :=
  if bool_decide (name = "HELM_DRIVER") then "memory"
  else if bool_decide (name = "HELM_MEMORY_DRIVER_DATA") then "releases.yaml" else "".

Definition noGetenv (name : string) : string := "".

Definition sampleReadFile (path : string) : string * option error :=
  if bool_decide (path = "releases.yaml") then ("- name: a", None)
  else ("", Some (ExternalError "no such file or directory")).

Definition sampleUnmarshal (b : string) : list string * option error := (["a"; "b"], None).

Definition sampleCreate (rel : string) (mem : list string) : option error * list string :=
  (None, mem ++ [rel]).

Definition sampleSetNamespace (ns : string) (mem : list string) : list string := mem.

Definition sampleInit (driver : Driver (list string))
           (envSettings : EnvSettings) (ns helmDriver : string)
           (c : Configuration (list string) unit)
  : option error * Configuration (list string) unit :=
  (None, {| Releases_Driver := driver;
            Configuration_KubeClient := HelmKubeClient None;
            RegistryClient_ := RegistryClient_ c |}).

Definition sampleEnvSettings : EnvSettings :=
  {| namespaceP := ""; KubeContext := "prod"; KubeConfig := "/etc/kube"; MaxHistory := 10 |}.

Definition sampleConfiguration : Configuration (list string) unit :=
  {| Releases_Driver := OtherDriver; Configuration_KubeClient := OtherKubeClient;
     RegistryClient_ := None |}.

Definition sampleOptions : InitActionConfigOptions :=
  {| StatusProgressPeriod := 5; HooksStatusProgressPeriod := 5;
     InitActionConfigOptions_KubeConfigOptions :=
       {| KubeConfigOptions_Context := ""; KubeConfigOptions_ConfigPath := "/home/ci/kube" |};
     ReleasesHistoryMax := 0 |}.

End Helm.

Module HelmSpec.

(** The first of the [:]-separated paths in [HELM_MEMORY_DRIVER_DATA]:
    all of the value when it has no [:], the empty path when it is unset. *)
Definition firstDataFile (value : string) : string :=
  match BackendSpec.cut ":" value with
  | Some (path, _) => path
  | None => value
  end.

Definition sampleMemoryConfiguration : Helm.Configuration (list string) unit :=
  {| Helm.Releases_Driver := Helm.MemoryDriver [];
     Helm.Configuration_KubeClient := Helm.HelmKubeClient None;
     Helm.RegistryClient_ := None |}.

Definition sampleRegistryClient : option unit * option error := (Some (), None).

Definition failingRegistryClient : option unit * option error :=
  (None, Some (ExternalError "no registry")).

End HelmSpec.

(** * Properties *)

(** ** The library functions on sample inputs *)

Module LibraryExamples.

Example Clean_ex1 : Filepath.Clean "/a/b/../c/./d//" = "/a/c/d".
Proof. reflexivity. Qed.
Example Clean_ex2 : Filepath.Clean "../../a/.." = "../..".
Proof. reflexivity. Qed.
Example Clean_ex3 : Filepath.Clean "/../a" = "/a".
Proof. reflexivity. Qed.
Example Clean_ex4 : Filepath.Clean "a/.." = ".".
Proof. reflexivity. Qed.
Example Clean_ex5 : Filepath.Clean "abc/def/../../../x" = "../x".
Proof. reflexivity. Qed.
Example Join_ex1 : Filepath.Join ["/home/u/.werf"; "synchronization_server"; "lock_manager"]
                   = "/home/u/.werf/synchronization_server/lock_manager".
Proof. reflexivity. Qed.
Example Join_ex2 : Filepath.Join [""; "a"] = "a".
Proof. reflexivity. Qed.
Example SplitN_ex1 : GoStrings.SplitN "a=b=c" "=" 2 = ["a"; "b=c"].
Proof. reflexivity. Qed.
Example SplitN_ex2 : GoStrings.SplitN "" ":" 2 = [""].
Proof. reflexivity. Qed.
Example SplitN_ex3 : GoStrings.SplitN "/src" ":" 2 = ["/src"].
Proof. reflexivity. Qed.
Example SplitN_ex4 : GoStrings.SplitN ":" ":" 2 = [""; ""].
Proof. reflexivity. Qed.
Example Join_ex3 : Filepath.Join ["/srv/locks"; "../other"] = "/srv/other".
Proof. reflexivity. Qed.
Example Join_ex4 : Filepath.Join ["/srv/locks"; ""] = "/srv/locks".
Proof. reflexivity. Qed.

End LibraryExamples.

(** ** Path joining *)

Module PathFacts.
Import Filepath Paths.

Lemma elements_nonempty path : elements path ≠ [].
Proof.
  destruct path as [|c rest]; simpl; [done|].
  destruct (IsPathSeparator c); [done|].
  destruct (elements rest); done.
Qed.

Lemma elements_app_sep a b :
  elements (a +:+ String Separator b) = elements a ++ elements b.
Proof.
  induction a as [|c a IH]; simpl.
  - done.
  - destruct (IsPathSeparator c); [by rewrite IH|].
    rewrite IH. pose proof (elements_nonempty a) as Hne.
    destruct (elements a); [done|]. done.
Qed.

Lemma elements_noSeparator c : noSeparator c = true → elements c = [c].
Proof.
  unfold noSeparator. induction c as [|ch c IH]; simpl; [done|].
  intros [Hch Hc]%andb_true_iff. apply negb_true_iff in Hch. rewrite Hch.
  by rewrite IH.
Qed.

Lemma out_append_bytes e st :
  out (append_bytes e st) = rev (list_ascii_of_string e) ++ out st.
Proof.
  revert st. induction e as [|ch e IH]; intros st; simpl; [done|].
  rewrite IH. simpl. by rewrite <- app_assoc.
Qed.

Lemma string_of_list_ascii_app l1 l2 :
  string_of_list_ascii (l1 ++ l2) = string_of_list_ascii l1 +:+ string_of_list_ascii l2.
Proof. induction l1 as [|a l1 IH]; simpl; [done|]. by rewrite IH. Qed.

Lemma string_of_out_append e o :
  string_of_out (rev (list_ascii_of_string e) ++ o) = string_of_out o +:+ e.
Proof.
  unfold string_of_out. rewrite rev_app_distr, rev_involutive.
  by rewrite string_of_list_ascii_app, string_of_list_ascii_of_string.
Qed.

Lemma clean_step_element rooted st c :
  isPathElement c = true →
  clean_step rooted st c =
    append_bytes c
      (if (rooted && negb (bool_decide (w st = 1)))
          || (negb rooted && negb (bool_decide (w st = 0)))
       then append_byte Separator st else st).
Proof.
  unfold isPathElement. rewrite !andb_true_iff, !negb_true_iff.
  intros [[[H1 H2] H3] _]. unfold clean_step. by rewrite H1, H2, H3.
Qed.

Lemma w_append_bytes_pos c st : c ≠ "" → w (append_bytes c st) ≠ 0.
Proof.
  intros Hc. unfold w. rewrite out_append_bytes. destruct c as [|ch c]; [done|].
  simpl. rewrite !length_app. simpl. lia.
Qed.

(** Joining a clean element below a directory appends it to a prefix
    that depends on the directory only. *)
Lemma Join_element dir c :
  isPathElement c = true → Join [dir; c] = parentPrefix dir +:+ c.
Proof.
  intros Hel.
  assert (Hc : c ≠ "").
  { unfold isPathElement in Hel. intros ->. done. }
  assert (Hns : noSeparator c = true).
  { unfold isPathElement in Hel. by apply andb_true_iff in Hel as [_ ?]. }
  destruct dir as [|d dir].
  - simpl. rewrite bool_decide_eq_false_2 by done.
    destruct c as [|ch c]; [done|].
    simpl GoStrings.Join. unfold Clean.
    assert (Hr : IsPathSeparator ch = false).
    { unfold noSeparator in Hns. simpl in Hns.
      apply andb_true_iff in Hns as [Hns _]. by apply negb_true_iff in Hns. }
    rewrite Hr. rewrite (elements_noSeparator _ Hns). simpl fold_left.
    rewrite (clean_step_element _ _ _ Hel). simpl.
    rewrite bool_decide_eq_false_2 by (apply (w_append_bytes_pos (String ch c)); done).
    rewrite out_append_bytes. unfold string_of_out, append_byte. simpl out.
    rewrite rev_app_distr, rev_involutive. simpl.
    by rewrite string_of_list_ascii_of_string.
  - unfold Join. rewrite bool_decide_eq_false_2 by done.
    change (GoStrings.Join [String d dir; c] (String Separator ""))
      with (String d (dir +:+ String Separator c)).
    unfold Clean, parentPrefix.
    change (String d (dir +:+ String Separator c))
      with (String d dir +:+ String Separator c).
    rewrite elements_app_sep, (elements_noSeparator _ Hns), fold_left_app.
    set (st := fold_left _ (elements (String d dir)) _).
    change (fold_left (clean_step (IsPathSeparator d)) [c] st)
      with (clean_step (IsPathSeparator d) st c).
    rewrite (clean_step_element _ _ _ Hel).
    rewrite bool_decide_eq_false_2 by (by apply w_append_bytes_pos).
    rewrite out_append_bytes. by rewrite string_of_out_append.
Qed.

Lemma length_string_app a b : String.length (a +:+ b) = String.length a + String.length b.
Proof. induction a as [|ch a IH]; simpl; [done|]. by rewrite IH. Qed.

Lemma string_app_inv_head p a b : p +:+ a = p +:+ b → a = b.
Proof. induction p as [|ch p IH]; simpl; [done|]. intros [= H]. by apply IH. Qed.

Lemma Join_element_inj dir c1 c2 :
  isPathElement c1 = true → isPathElement c2 = true →
  Join [dir; c1] = Join [dir; c2] → c1 = c2.
Proof.
  intros H1 H2. rewrite !Join_element by done. apply string_app_inv_head.
Qed.

End PathFacts.

(** ** The buffer of [Clean] and the entries of a directory *)

Module CleanFacts.
Import Filepath Paths CleanPaths PathFacts.

Lemma backtrack_spec dd o :
  dd < length o →
  ∃ q, rev o = rev (backtrack dd o) ++ q ∧ q ≠ []
       ∧ (dd ≤ length (backtrack dd o))%nat
       ∧ (length (backtrack dd o) = dd ∨ ∃ q', q = Separator :: q').
Proof.
  induction o as [|c o IH]; simpl; [lia|]. intros Hlt.
  case_bool_decide as Hdd; simpl.
  - destruct (IsPathSeparator c) eqn:Hc; simpl.
    + exists [c]. split; [done|]. split; [done|]. split; [lia|]. right. exists [].
      unfold IsPathSeparator in Hc. apply bool_decide_eq_true_1 in Hc. by subst.
    + destruct (IH Hdd) as (q & Hq & Hne & Hle & Hend). exists (q ++ [c]).
      split; [by rewrite Hq, <- app_assoc|]. split; [by destruct q|]. split; [done|].
      destruct Hend as [?|[q' ->]]; [by left|]. right. by exists (q' ++ [c]).
  - exists [c]. split; [done|]. split; [done|]. split; [lia|]. left. lia.
Qed.

Lemma elements_all_noSeparator path : Forall (λ e, noSeparator e = true) (elements path).
Proof.
  induction path as [|c rest IH]; simpl.
  - by constructor.
  - destruct (IsPathSeparator c) eqn:Hc.
    + by constructor.
    + destruct (elements rest) as [|e es]; [by constructor; [unfold noSeparator; simpl; rewrite Hc|]|].
      inversion IH as [|? ? He Hes]; subst. constructor; [|done].
      unfold noSeparator in *. simpl. by rewrite Hc.
Qed.

Lemma startsClean_app s t : s ≠ [] → startsClean s → startsClean (s ++ t).
Proof.
  destruct s as [|a [|b s]]; [done| |]; simpl.
  - intros _ [Ha Hdot]. split; [done|]. intros ->. by destruct (Hdot eq_refl).
  - intros _ [Ha Hdot]. done.
Qed.

Lemma startsClean_element e :
  e ≠ "" → e ≠ "." → noSeparator e = true → startsClean (list_ascii_of_string e).
Proof.
  intros He1 He2. unfold noSeparator. destruct e as [|a e]; [done|]. simpl.
  intros [Ha He]%andb_true_iff. apply negb_true_iff in Ha.
  unfold IsPathSeparator in Ha. apply bool_decide_eq_false_1 in Ha. split; [done|].
  intros ->. destruct e as [|b e]; [done|]. simpl in *.
  apply andb_true_iff in He as [Hb _]. apply negb_true_iff in Hb.
  unfold IsPathSeparator in Hb. by apply bool_decide_eq_false_1 in Hb.
Qed.

Lemma rev_out_append_bytes e st :
  rev (out (append_bytes e st)) = rev (out st) ++ list_ascii_of_string e.
Proof. by rewrite out_append_bytes, rev_app_distr, rev_involutive. Qed.

Lemma dotdot_append_bytes e st : dotdot (append_bytes e st) = dotdot st.
Proof. revert st. induction e as [|c e IH]; intros st; simpl; [done|]. by rewrite IH. Qed.

Lemma bufferInv_append_bytes rooted e st1 :
  bufferInv rooted (append_bytes e st1)
  ↔ (if rooted then dotdot st1 = 1 ∧ ∃ t, rev (out (append_bytes e st1)) = Separator :: t
     else dotdot st1 ≠ 1 ∧ startsClean (rev (out (append_bytes e st1)))).
Proof. unfold bufferInv. by rewrite dotdot_append_bytes. Qed.

Lemma rev_nil_length {A} (l : list A) : rev l = [] → length l = 0.
Proof. intros H. apply (f_equal (@length _)) in H. by rewrite length_rev in H. Qed.

Lemma bufferInv_step rooted st e :
  noSeparator e = true → bufferInv rooted st → bufferInv rooted (clean_step rooted st e).
Proof.
  intros Hns Hinv. unfold clean_step.
  case_bool_decide as He1; [done|].
  case_bool_decide as He2; [done|].
  case_bool_decide as He3.
  - case_bool_decide as Hdd.
    + destruct (backtrack_spec _ _ Hdd) as (q & Hq & Hne & Hle & Hend).
      destruct rooted; simpl in *.
      * destruct Hinv as [Hd [t Ht]]. split; [done|].
        rewrite Ht in Hq. destruct (rev (backtrack _ _)) as [|a s] eqn:Hb.
        -- apply rev_nil_length in Hb. lia.
        -- injection Hq as <- _. by eexists.
      * destruct Hinv as [Hd Hs]. split; [done|].
        rewrite Hq in Hs. destruct (rev (backtrack _ _)) as [|a [|b s]] eqn:Hb; [done| |].
        -- simpl in *. destruct Hs as [Ha Hdot]. split; [done|]. intros ->.
           destruct Hend as [Hlen|[q' ->]].
           ++ apply (f_equal (@length _)) in Hb. rewrite length_rev in Hb. simpl in Hb. lia.
           ++ by destruct (Hdot eq_refl).
        -- simpl in *. done.
    + destruct rooted; simpl; [done|].
      destruct Hinv as [Hd Hs]. split.
      * unfold w. case_bool_decide; simpl; lia.
      * case_bool_decide as Hw; simpl.
        -- rewrite <- !app_assoc. apply startsClean_app; [|done].
           unfold w in Hw. intros Hnil. apply rev_nil_length in Hnil. lia.
        -- unfold w in Hw. destruct (out st); [|simpl in Hw; lia]. simpl.
           split; [done|]. intros _. done.
  - rewrite bufferInv_append_bytes. destruct rooted; simpl in *.
    + destruct Hinv as [Hd [t Ht]]. rewrite rev_out_append_bytes.
      split; [by destruct (negb _)|].
      destruct (negb _); simpl; rewrite Ht; simpl; by eexists.
    + destruct Hinv as [Hd Hs]. rewrite rev_out_append_bytes.
      split; [by destruct (negb _)|].
      case_bool_decide as Hw; simpl.
      * unfold w in Hw. destruct (out st); [|done]. simpl.
        by apply startsClean_element.
      * rewrite <- app_assoc. apply startsClean_app; [|done].
        unfold w in Hw. intros Hnil. by apply rev_nil_length in Hnil.
Qed.

Lemma bufferInv_fold rooted es st :
  Forall (λ e, noSeparator e = true) es → bufferInv rooted st →
  bufferInv rooted (fold_left (clean_step rooted) es st).
Proof.
  intros Hes. revert st. induction Hes as [|e es He Hes IH]; intros st Hinv; simpl; [done|].
  apply IH. by apply bufferInv_step.
Qed.

Lemma string_of_list_ascii_nil l : string_of_list_ascii l = "" → l = [].
Proof. by destruct l. Qed.

(** Joining a clean element below a directory gives the entry of that
    name in the cleaned directory. *)
Lemma Join_child dir c :
  isPathElement c = true → Join [dir; c] = childOf (Clean dir) c.
Proof.
  intros Hel. rewrite (Join_element _ _ Hel).
  destruct dir as [|d dir]; [done|].
  unfold parentPrefix, Clean.
  set (rooted := IsPathSeparator d).
  set (st0 := if rooted then _ else _).
  assert (bufferInv rooted st0) as Hinv0.
  { subst st0. destruct rooted; simpl; [split; [done|by eexists]|done]. }
  pose proof (bufferInv_fold rooted _ st0 (elements_all_noSeparator (String d dir)) Hinv0) as Hinv.
  set (st := fold_left _ _ st0) in *. clearbody st. clear Hinv0.
  assert (Hlen : w st = length (rev (out st))) by (unfold w; by rewrite length_rev).
  assert (Hsep : ∀ s : string, s +:+ String Separator c = (s +:+ "/") +:+ c).
  { intros s. induction s as [|ch s IH]; [done|].
    change (String ch (s +:+ String Separator c) = String ch ((s +:+ "/") +:+ c)).
    by f_equal. }
  unfold childOf.
  destruct rooted; simpl in Hinv; cbn [andb orb negb].
  - destruct Hinv as [_ [t Ht]]. rewrite Hlen, Ht in *.
    rewrite (bool_decide_eq_false_2 (length (Separator :: t) = 0)) by done.
    destruct t as [|b t].
    + rewrite bool_decide_eq_true_2 by done. cbn [negb orb andb].
      unfold string_of_out. by rewrite Ht.
    + rewrite bool_decide_eq_false_2 by done. cbn [negb orb andb].
      unfold string_of_out, append_byte. cbn [out rev]. rewrite Ht.
      rewrite string_of_list_ascii_app. cbn [string_of_list_ascii].
      rewrite bool_decide_eq_false_2 by done.
      rewrite bool_decide_eq_false_2 by done.
      by rewrite Hsep.
  - destruct Hinv as [_ Hs]. rewrite Hlen in *.
    destruct (rev (out st)) as [|a s] eqn:Hr.
    + rewrite bool_decide_eq_true_2 by done. cbn [negb orb andb].
      unfold string_of_out. by rewrite Hr.
    + rewrite bool_decide_eq_false_2 by done. cbn [negb orb andb].
      unfold string_of_out, append_byte. cbn [out rev]. rewrite Hr.
      rewrite string_of_list_ascii_app. cbn [string_of_list_ascii].
      destruct Hs as [Ha Hdot].
      rewrite bool_decide_eq_false_2.
      2:{ intros [= -> Hnil]. apply string_of_list_ascii_nil in Hnil. subst s.
          by destruct (Hdot eq_refl). }
      rewrite bool_decide_eq_false_2 by (by intros [= -> _]).
      by rewrite Hsep.
Qed.

End CleanFacts.

(** ** The synchronization command *)

Module SynchronizationFacts.
Import Synchronization SynchronizationSpec SynchronizationMore Paths CleanPaths.

Section WithEnvironment.

Variable Getenv : string → string.
Variable GetBoolEnvironmentDefaultTrue : string → bool.
Variable GetBoolEnvironmentDefaultFalse : string → bool.
Variable werf_Init : string → string → option error.
Variable werf_GetHomeDir : string.
Variable kube_Init : string → string → option error.
Variable InitKubedog : option error.
Variable lockgate_NewFileLocker : string → option error.

(** The shape of a run that reaches the server, by backend. *)
Lemma run_cluster common (c : CmdData) (args : ServerArgs) :
  runSynchronization werf_Init werf_GetHomeDir kube_Init InitKubedog
    lockgate_NewFileLocker common c = RunSynchronizationServer args →
  Kubernetes c = true →
  let prefix := if bool_decide (KubernetesNamespacePrefix c = "")
                then "werf-synchronization-" else KubernetesNamespacePrefix c in
  ∀ clientID,
    lockManagerFactoryFunc args clientID
      = inl (NewKubernetesLockManager (prefix +:+ clientID))
    ∧ stagesStorageCacheFactoryFunc args clientID
      = inl (NewKubernetesStagesStorageCache (prefix +:+ clientID)).
Proof.
  unfold runSynchronization. intros Hrun Hk. rewrite Hk in Hrun.
  destruct (werf_Init _ _); [done|].
  destruct (kube_Init _ _); [done|].
  destruct InitKubedog; [done|].
  injection Hrun as <-. simpl. done.
Qed.

Lemma run_local common (c : CmdData) (args : ServerArgs) :
  runSynchronization werf_Init werf_GetHomeDir kube_Init InitKubedog
    lockgate_NewFileLocker common c = RunSynchronizationServer args →
  Kubernetes c = false →
  let lockBase := if bool_decide (LocalLockManagerBaseDir c = "")
                  then Filepath.Join [werf_GetHomeDir; "synchronization_server"; "lock_manager"]
                  else LocalLockManagerBaseDir c in
  let cacheBase := if bool_decide (LocalStagesStorageCacheBaseDir c = "")
                   then Filepath.Join [werf_GetHomeDir; "synchronization_server";
                                       "stages_storage_cache"]
                   else LocalStagesStorageCacheBaseDir c in
  ∀ clientID,
    lockManagerFactoryFunc args clientID
      = match lockgate_NewFileLocker (Filepath.Join [lockBase; clientID]) with
        | Some err => inr err
        | None => inl (NewGenericLockManager
                         (NewFileLocker_ok (Filepath.Join [lockBase; clientID])))
        end
    ∧ stagesStorageCacheFactoryFunc args clientID
      = inl (NewFileStagesStorageCache (Filepath.Join [cacheBase; clientID])).
Proof.
  unfold runSynchronization. intros Hrun Hk. rewrite Hk in Hrun.
  destruct (werf_Init _ _); [done|].
  injection Hrun as <-. simpl. done.
Qed.

Lemma run_listen common (c : CmdData) (args : ServerArgs) :
  runSynchronization werf_Init werf_GetHomeDir kube_Init InitKubedog
    lockgate_NewFileLocker common c = RunSynchronizationServer args →
  server_host args = (if bool_decide (Host c = "") then "localhost" else Host c)
  ∧ server_port args = (if bool_decide (Port c = "") then "55581" else Port c).
Proof.
  unfold runSynchronization. intros Hrun.
  destruct (werf_Init _ _); [done|].
  destruct (Kubernetes c).
  - destruct (kube_Init _ _); [done|]. destruct InitKubedog; [done|].
    by injection Hrun as <-.
  - by injection Hrun as <-.
Qed.

(** C1 (as amended). For distinct clientIDs the instances of a running server
    work on distinct locations: under the cluster backend always, under
    the local backend when both clientIDs are clean path elements. *)
Theorem C1_distinct_clients_distinct_locations common (c : CmdData) (args : ServerArgs) id1 id2 :
  runSynchronization werf_Init werf_GetHomeDir kube_Init InitKubedog
    lockgate_NewFileLocker common c = RunSynchronizationServer args →
  id1 ≠ id2 →
  Kubernetes c = true ∨ (isPathElement id1 = true ∧ isPathElement id2 = true) →
  (∀ l1 l2, lockManagerLocationOf args id1 = Some l1 →
            lockManagerLocationOf args id2 = Some l2 → l1 ≠ l2)
  ∧ (∀ l1 l2, stagesStorageCacheLocationOf args id1 = Some l1 →
              stagesStorageCacheLocationOf args id2 = Some l2 → l1 ≠ l2).
Proof.
  intros Hrun Hne Hcase.
  unfold lockManagerLocationOf, stagesStorageCacheLocationOf.
  destruct (Kubernetes c) eqn:Hk.
  - pose proof (run_cluster _ _ _ Hrun Hk) as Hshape. simpl in Hshape.
    destruct (Hshape id1) as [-> ->]. destruct (Hshape id2) as [-> ->]. simpl.
    split; intros l1 l2 [= <-] [= <-] [= Heq];
      apply PathFacts.string_app_inv_head in Heq; done.
  - destruct Hcase as [|[Hid1 Hid2]]; [done|].
    pose proof (run_local _ _ _ Hrun Hk) as Hshape. simpl in Hshape.
    destruct (Hshape id1) as [-> ->]. destruct (Hshape id2) as [-> ->].
    split.
    + do 2 destruct (lockgate_NewFileLocker _); try done. simpl.
      intros l1 l2 [= <-] [= <-] [= Heq].
      by apply PathFacts.Join_element_inj in Heq.
    + simpl. intros l1 l2 [= <-] [= <-] [= Heq].
      by apply PathFacts.Join_element_inj in Heq.
Qed.

(** C2. The backend is fixed by the [Kubernetes] flag when the server is
    started, whatever the clientID of a later request. With the flag set
    both factories return an instance of the cluster backend. Without it
    the cache factory returns an instance of the local backend, and the
    lock-manager factory returns one when [lockgate.NewFileLocker] accepts
    the client's directory and the error of [NewFileLocker] otherwise. The
    [Local] flag plays no part. *)
Theorem C2_backend_selected_at_startup common (c : CmdData) (args : ServerArgs) :
  runSynchronization werf_Init werf_GetHomeDir kube_Init InitKubedog
    lockgate_NewFileLocker common c = RunSynchronizationServer args →
  (∀ clientID,
     (Kubernetes c = true →
      ∃ lm, lockManagerFactoryFunc args clientID = inl lm
            ∧ locationBackend (lockManagerLocation lm) = ClusterBackend)
     ∧ (Kubernetes c = false →
        (lockgate_NewFileLocker
           (Filepath.Join [lockManagerBaseDirOf werf_GetHomeDir c; clientID]) = None →
         ∃ lm, lockManagerFactoryFunc args clientID = inl lm
               ∧ locationBackend (lockManagerLocation lm) = LocalBackend)
        ∧ (∀ err, lockgate_NewFileLocker
                    (Filepath.Join [lockManagerBaseDirOf werf_GetHomeDir c; clientID])
                  = Some err →
                  lockManagerFactoryFunc args clientID = inr err))
     ∧ (∀ lm, lockManagerFactoryFunc args clientID = inl lm →
              locationBackend (lockManagerLocation lm)
              = if Kubernetes c then ClusterBackend else LocalBackend)
     ∧ (∃ sc, stagesStorageCacheFactoryFunc args clientID = inl sc
              ∧ locationBackend (stagesStorageCacheLocation sc)
                = if Kubernetes c then ClusterBackend else LocalBackend))
  ∧ (∀ b, runSynchronization werf_Init werf_GetHomeDir kube_Init InitKubedog
    lockgate_NewFileLocker common (withLocal b c)
        = runSynchronization werf_Init werf_GetHomeDir kube_Init InitKubedog
    lockgate_NewFileLocker common c).
Proof.
  intros Hrun. split; [|done].
  intros clientID. destruct (Kubernetes c) eqn:Hk.
  - destruct (run_cluster _ _ _ Hrun Hk clientID) as [Hl Hs].
    rewrite Hl, Hs. split; [|split; [done|split]].
    + intros _. by eexists.
    + by intros lm [= <-].
    + by eexists.
  - destruct (run_local _ _ _ Hrun Hk clientID) as [Hl Hs].
    fold (lockManagerBaseDirOf werf_GetHomeDir c) in Hl.
    rewrite Hl, Hs. split; [done|]. split; [|split].
    + intros _. split.
      * intros ->. by eexists.
      * by intros err ->.
    + intros lm. destruct (lockgate_NewFileLocker _); [done|]. by intros [= <-].
    + by eexists.
Qed.

(** C3 (what the code does). The value of [--ttl] never reaches the
    server: [runSynchronization] gives the same result for every TTL. *)
Theorem C3_ttl_is_not_used common (c : CmdData) ttl :
  runSynchronization werf_Init werf_GetHomeDir kube_Init InitKubedog
    lockgate_NewFileLocker common (withTTL ttl c)
  = runSynchronization werf_Init werf_GetHomeDir kube_Init InitKubedog
    lockgate_NewFileLocker common c.
Proof. reflexivity. Qed.

(** C4 (as amended). Without a host (a port) from flag or environment the
    server is bound to [localhost] (to [55581]); a non-empty host or port
    from the flag, or without the flag from the environment, is passed on
    unchanged; a flag given with the empty value gives the default,
    whatever the environment holds. *)
Theorem C4_listen_address common (f : Flags) (args : ServerArgs) :
  runSynchronization werf_Init werf_GetHomeDir kube_Init InitKubedog
    lockgate_NewFileLocker common
    (NewCmd Getenv GetBoolEnvironmentDefaultTrue GetBoolEnvironmentDefaultFalse f) = RunSynchronizationServer args →
  (flag_host f = None → Getenv "WERF_HOST" = "" → server_host args = "localhost")
  ∧ (flag_port f = None → Getenv "WERF_PORT" = "" → server_port args = "55581")
  ∧ (flag_host f = Some "" → server_host args = "localhost")
  ∧ (flag_port f = Some "" → server_port args = "55581")
  ∧ (∀ v, v ≠ "" →
          flag_host f = Some v ∨ (flag_host f = None ∧ Getenv "WERF_HOST" = v) →
          server_host args = v)
  ∧ (∀ v, v ≠ "" →
          flag_port f = Some v ∨ (flag_port f = None ∧ Getenv "WERF_PORT" = v) →
          server_port args = v).
Proof.
  intros Hrun. destruct (run_listen _ _ _ Hrun) as [-> ->]. simpl.
  split; [|split; [|split; [|split; [|split]]]].
  - by intros -> ->.
  - by intros -> ->.
  - by intros ->.
  - by intros ->.
  - intros v Hv [->|[-> ->]]; simpl; by rewrite bool_decide_eq_false_2.
  - intros v Hv [->|[-> ->]]; simpl; by rewrite bool_decide_eq_false_2.
Qed.

(** C5. Under the cluster backend both factories use, for every clientID,
    the namespace named by the prefix followed by the clientID; an empty
    prefix stands for [werf-synchronization-]. *)
Theorem C5_cluster_namespace common (c : CmdData) (args : ServerArgs) :
  runSynchronization werf_Init werf_GetHomeDir kube_Init InitKubedog
    lockgate_NewFileLocker common c = RunSynchronizationServer args →
  Kubernetes c = true →
  ∀ clientID,
    (KubernetesNamespacePrefix c = "" →
       lockManagerFactoryFunc args clientID
         = inl (NewKubernetesLockManager ("werf-synchronization-" +:+ clientID))
       ∧ stagesStorageCacheFactoryFunc args clientID
         = inl (NewKubernetesStagesStorageCache ("werf-synchronization-" +:+ clientID)))
    ∧ (KubernetesNamespacePrefix c ≠ "" →
       lockManagerFactoryFunc args clientID
         = inl (NewKubernetesLockManager (KubernetesNamespacePrefix c +:+ clientID))
       ∧ stagesStorageCacheFactoryFunc args clientID
         = inl (NewKubernetesStagesStorageCache (KubernetesNamespacePrefix c +:+ clientID))).
Proof.
  intros Hrun Hk clientID.
  destruct (run_cluster _ _ _ Hrun Hk clientID) as [-> ->].
  split; intros Hp.
  - by rewrite bool_decide_eq_true_2.
  - by rewrite bool_decide_eq_false_2.
Qed.

(** C6 (as amended). Under the local backend, for every clientID, the
    lock-manager factory works on [filepath.Join(lockManagerBaseDir, clientID)]:
    it returns a lock manager of that directory when [lockgate.NewFileLocker]
    accepts it and the error of [NewFileLocker] otherwise; the cache factory
    returns a cache of [filepath.Join(stagesStorageCacheBaseDir, clientID)].
    An empty base directory stands for [synchronization_server/lock_manager],
    respectively [synchronization_server/stages_storage_cache], under the
    werf home directory. For a clientID that is a clean path element the
    directory is the entry of that name in the cleaned base directory. *)
Theorem C6_local_directories common (c : CmdData) (args : ServerArgs) :
  runSynchronization werf_Init werf_GetHomeDir kube_Init InitKubedog
    lockgate_NewFileLocker common c = RunSynchronizationServer args →
  Kubernetes c = false →
  ∀ lockBase cacheBase,
    (lockBase = LocalLockManagerBaseDir c ∧ lockBase ≠ ""
     ∨ LocalLockManagerBaseDir c = ""
       ∧ lockBase = Filepath.Join [werf_GetHomeDir; "synchronization_server"; "lock_manager"]) →
    (cacheBase = LocalStagesStorageCacheBaseDir c ∧ cacheBase ≠ ""
     ∨ LocalStagesStorageCacheBaseDir c = ""
       ∧ cacheBase = Filepath.Join [werf_GetHomeDir; "synchronization_server";
                                    "stages_storage_cache"]) →
    ∀ clientID,
      (lockgate_NewFileLocker (Filepath.Join [lockBase; clientID]) = None →
       ∃ lm, lockManagerFactoryFunc args clientID = inl lm
             ∧ lockManagerLocation lm = Directory (Filepath.Join [lockBase; clientID]))
      ∧ (∀ err, lockgate_NewFileLocker (Filepath.Join [lockBase; clientID]) = Some err →
                lockManagerFactoryFunc args clientID = inr err)
      ∧ (∀ lm, lockManagerFactoryFunc args clientID = inl lm →
               lockManagerLocation lm = Directory (Filepath.Join [lockBase; clientID]))
      ∧ (∃ sc, stagesStorageCacheFactoryFunc args clientID = inl sc
               ∧ stagesStorageCacheLocation sc
                 = Directory (Filepath.Join [cacheBase; clientID]))
      ∧ (isPathElement clientID = true →
         Filepath.Join [lockBase; clientID] = childOf (Filepath.Clean lockBase) clientID
         ∧ Filepath.Join [cacheBase; clientID]
           = childOf (Filepath.Clean cacheBase) clientID).
Proof.
  intros Hrun Hk lockBase cacheBase Hlock Hcache clientID.
  destruct (run_local _ _ _ Hrun Hk clientID) as [Hl Hs].
  assert ((if bool_decide (LocalLockManagerBaseDir c = "")
           then Filepath.Join [werf_GetHomeDir; "synchronization_server"; "lock_manager"]
           else LocalLockManagerBaseDir c) = lockBase) as Hlb.
  { destruct Hlock as [[-> Hne]|[-> ->]]; [by rewrite bool_decide_eq_false_2|done]. }
  assert ((if bool_decide (LocalStagesStorageCacheBaseDir c = "")
           then Filepath.Join [werf_GetHomeDir; "synchronization_server";
                               "stages_storage_cache"]
           else LocalStagesStorageCacheBaseDir c) = cacheBase) as Hcb.
  { destruct Hcache as [[-> Hne]|[-> ->]]; [by rewrite bool_decide_eq_false_2|done]. }
  rewrite Hlb in Hl. rewrite Hcb in Hs. rewrite Hl, Hs.
  split; [|split; [|split; [|split]]].
  - intros ->. by eexists.
  - by intros err ->.
  - intros lm. destruct (lockgate_NewFileLocker _); [done|]. by intros [= <-].
  - by eexists.
  - intros Hel. by rewrite !CleanFacts.Join_child.
Qed.

End WithEnvironment.

End SynchronizationFacts.

Module SynchronizationExamples.
Import Synchronization SynchronizationSpec SynchronizationMore Paths CleanPaths.
Import SynchronizationFacts.

Lemma sampleRun_local : sampleRun noFlags = RunSynchronizationServer sampleLocalArgs.
Proof. reflexivity. Qed.

Lemma sampleRun_cluster : sampleRun kubernetesFlags = RunSynchronizationServer sampleClusterArgs.
Proof. reflexivity. Qed.

(** C1 fails as stated: under the local backend the distinct clientIDs
    [proj] and [./proj] are given the same lock directory and the same
    cache directory. *)
Lemma C1_counterexample :
  sampleRun noFlags = RunSynchronizationServer sampleLocalArgs
  ∧ "proj" ≠ "./proj"
  ∧ lockManagerLocationOf sampleLocalArgs "proj"
    = Some (Directory "/home/ci/.werf/synchronization_server/lock_manager/proj")
  ∧ lockManagerLocationOf sampleLocalArgs "./proj"
    = Some (Directory "/home/ci/.werf/synchronization_server/lock_manager/proj")
  ∧ stagesStorageCacheLocationOf sampleLocalArgs "proj"
    = stagesStorageCacheLocationOf sampleLocalArgs "./proj".
Proof. repeat split; done. Qed.

Lemma C1_witness :
  (∀ l1 l2, lockManagerLocationOf sampleLocalArgs "proj-a" = Some l1 →
            lockManagerLocationOf sampleLocalArgs "proj-b" = Some l2 → l1 ≠ l2)
  ∧ (∀ l1 l2, stagesStorageCacheLocationOf sampleLocalArgs "proj-a" = Some l1 →
              stagesStorageCacheLocationOf sampleLocalArgs "proj-b" = Some l2 → l1 ≠ l2).
Proof.
  apply (C1_distinct_clients_distinct_locations
           sampleInit sampleHome sampleInit None sampleNewFileLocker
           sampleCommon (NewCmd sampleGetenv sampleBoolTrue sampleBoolFalse noFlags)
           sampleLocalArgs "proj-a" "proj-b").
  - reflexivity.
  - discriminate.
  - right. split; reflexivity.
Defined.

Lemma C2_witness :
  (∃ lm, lockManagerFactoryFunc sampleClusterArgs "proj-a" = inl lm
         ∧ locationBackend (lockManagerLocation lm) = ClusterBackend)
  ∧ (∃ sc, stagesStorageCacheFactoryFunc sampleClusterArgs "proj-a" = inl sc
           ∧ locationBackend (stagesStorageCacheLocation sc) = ClusterBackend)
  ∧ (∃ lm, lockManagerFactoryFunc sampleLocalArgs "proj-a" = inl lm
           ∧ locationBackend (lockManagerLocation lm) = LocalBackend)
  ∧ lockManagerFactoryFunc sampleRefusingArgs "locked"
    = inr (ExternalError "permission denied").
Proof.
  destruct (proj1 (C2_backend_selected_at_startup
                     sampleInit sampleHome sampleInit None sampleNewFileLocker
                     sampleCommon
                     (NewCmd sampleGetenv sampleBoolTrue sampleBoolFalse kubernetesFlags)
                     sampleClusterArgs eq_refl) "proj-a") as (Hcluster & _ & _ & Hcache).
  destruct (proj1 (C2_backend_selected_at_startup
                     sampleInit sampleHome sampleInit None sampleNewFileLocker
                     sampleCommon
                     (NewCmd sampleGetenv sampleBoolTrue sampleBoolFalse noFlags)
                     sampleLocalArgs eq_refl) "proj-a") as (_ & Hlocal & _).
  destruct (proj1 (C2_backend_selected_at_startup
                     sampleInit sampleHome sampleInit None refusingNewFileLocker
                     sampleCommon
                     (NewCmd sampleGetenv sampleBoolTrue sampleBoolFalse noFlags)
                     sampleRefusingArgs eq_refl) "locked") as (_ & Hrefused & _).
  split; [exact (Hcluster eq_refl)|]. split; [exact Hcache|].
  split; [exact (proj1 (Hlocal eq_refl) eq_refl)|].
  exact (proj2 (Hrefused eq_refl) _ eq_refl).
Defined.

(** C4 fails as stated: with [WERF_HOST=10.0.0.1] in the environment and
    [--host] given with the empty value, the host is supplied twice and
    the server is bound to [localhost], which is neither value. *)
Lemma C4_counterexample :
  runSynchronization sampleInit sampleHome sampleInit None sampleNewFileLocker sampleCommon
    (NewCmd hostGetenv sampleBoolTrue sampleBoolFalse emptyHostFlags)
  = RunSynchronizationServer sampleEmptyHostArgs
  ∧ flag_host emptyHostFlags = Some ""
  ∧ hostGetenv "WERF_HOST" = "10.0.0.1"
  ∧ server_host sampleEmptyHostArgs = "localhost"
  ∧ server_host sampleEmptyHostArgs ≠ "10.0.0.1"
  ∧ server_host sampleEmptyHostArgs ≠ "".
Proof. repeat split; done. Qed.

Lemma C4_witness :
  server_host sampleLocalArgs = "localhost" ∧ server_port sampleLocalArgs = "55581"
  ∧ server_host sampleClusterArgs = "0.0.0.0"
  ∧ server_host sampleEmptyHostArgs = "localhost".
Proof.
  pose proof (C4_listen_address sampleGetenv sampleBoolTrue sampleBoolFalse
                sampleInit sampleHome sampleInit None sampleNewFileLocker
                sampleCommon noFlags sampleLocalArgs eq_refl) as (Hh & Hp & _).
  pose proof (C4_listen_address sampleGetenv sampleBoolTrue sampleBoolFalse
                sampleInit sampleHome sampleInit None sampleNewFileLocker
                sampleCommon kubernetesFlags sampleClusterArgs eq_refl)
    as (_ & _ & _ & _ & Hv & _).
  pose proof (C4_listen_address hostGetenv sampleBoolTrue sampleBoolFalse
                sampleInit sampleHome sampleInit None sampleNewFileLocker
                sampleCommon emptyHostFlags sampleEmptyHostArgs eq_refl)
    as (_ & _ & He & _).
  split; [|split; [|split]].
  - apply Hh; reflexivity.
  - apply Hp; reflexivity.
  - apply Hv; [discriminate|left; reflexivity].
  - apply He; reflexivity.
Defined.

Lemma C5_witness :
  lockManagerFactoryFunc sampleClusterArgs "proj-a"
    = inl (NewKubernetesLockManager "werf-synchronization-proj-a")
  ∧ stagesStorageCacheFactoryFunc sampleClusterArgs "proj-a"
    = inl (NewKubernetesStagesStorageCache "werf-synchronization-proj-a").
Proof.
  apply (C5_cluster_namespace
           sampleInit sampleHome sampleInit None sampleNewFileLocker
           sampleCommon (NewCmd sampleGetenv sampleBoolTrue sampleBoolFalse kubernetesFlags)
           sampleClusterArgs eq_refl eq_refl "proj-a").
  reflexivity.
Defined.

(** C6 fails as stated: the clientID [..] is given the parent of the base
    directory, for the lock manager and for the cache alike, the empty
    clientID the base directory itself, and the clientID [../lock_manager]
    has its cache in the base directory of the lock managers. *)
Lemma C6_counterexample :
  sampleRun noFlags = RunSynchronizationServer sampleLocalArgs
  ∧ lockManagerLocationOf sampleLocalArgs ".."
    = Some (Directory "/home/ci/.werf/synchronization_server")
  ∧ stagesStorageCacheLocationOf sampleLocalArgs ".."
    = Some (Directory "/home/ci/.werf/synchronization_server")
  ∧ ¬ insideDir "/home/ci/.werf/synchronization_server"
                "/home/ci/.werf/synchronization_server/lock_manager"
  ∧ lockManagerLocationOf sampleLocalArgs ""
    = Some (Directory "/home/ci/.werf/synchronization_server/lock_manager")
  ∧ stagesStorageCacheLocationOf sampleLocalArgs "../lock_manager"
    = Some (Directory "/home/ci/.werf/synchronization_server/lock_manager").
Proof.
  split; [reflexivity|]. split; [reflexivity|]. split; [reflexivity|].
  split; [|split; reflexivity].
  intros [rest Hrest]. apply (f_equal String.length) in Hrest.
  rewrite PathFacts.length_string_app in Hrest. simpl in Hrest. lia.
Qed.

Lemma C6_witness :
  (∃ lm, lockManagerFactoryFunc sampleLocalArgs "proj-a" = inl lm
         ∧ lockManagerLocation lm
           = Directory "/home/ci/.werf/synchronization_server/lock_manager/proj-a")
  ∧ (∃ sc, stagesStorageCacheFactoryFunc sampleLocalArgs "proj-a" = inl sc
           ∧ stagesStorageCacheLocation sc
             = Directory "/home/ci/.werf/synchronization_server/stages_storage_cache/proj-a")
  ∧ childOf "/home/ci/.werf/synchronization_server/lock_manager" "proj-a"
    = "/home/ci/.werf/synchronization_server/lock_manager/proj-a"
  ∧ Filepath.Join ["/home/ci/.werf/synchronization_server/lock_manager"; "proj-a"]
    = childOf "/home/ci/.werf/synchronization_server/lock_manager" "proj-a".
Proof.
  pose proof (C6_local_directories
                sampleInit sampleHome sampleInit None sampleNewFileLocker
                sampleCommon (NewCmd sampleGetenv sampleBoolTrue sampleBoolFalse noFlags)
                sampleLocalArgs eq_refl eq_refl
                "/home/ci/.werf/synchronization_server/lock_manager"
                "/home/ci/.werf/synchronization_server/stages_storage_cache"
                (or_intror (conj eq_refl eq_refl)) (or_intror (conj eq_refl eq_refl))
                "proj-a") as (Hl & _ & _ & Hs & Hchild).
  split; [exact (Hl eq_refl)|]. split; [exact Hs|]. split; [reflexivity|].
  exact (proj1 (Hchild eq_refl)).
Defined.

End SynchronizationExamples.

(** ** Splitting at a byte *)

Module SplitFacts.
Import GoStrings BackendSpec.

Lemma HasPrefix_byte c s :
  HasPrefix s (String c "") = match s with
                              | String b _ => bool_decide (c = b)
                              | EmptyString => false
                              end.
Proof.
  destruct s as [|b s]; simpl; [done|].
  destruct (decide (c = b)) as [->|Hne].
  - rewrite bool_decide_eq_true_2 by done. by destruct s.
  - by rewrite bool_decide_eq_false_2.
Qed.

Lemma cut_None c s : cut c s = None ↔ containsByte c s = false.
Proof.
  induction s as [|b s IH]; simpl; [done|].
  destruct (decide (c = b)); [done|].
  destruct (cut c s) as [[k v]|]; [|tauto].
  split; [done|]. intros H. apply IH in H. done.
Qed.

Lemma cut_Some c s k v : cut c s = Some (k, v) ↔ splitAtFirst c s k v.
Proof.
  unfold splitAtFirst. revert k. induction s as [|b s IH]; intros k; simpl.
  - split; [done|]. intros [H _]. by destruct k.
  - destruct (decide (c = b)) as [->|Hne].
    + split.
      * by intros [= <- <-].
      * intros [H Hk]. destruct k as [|a k]; simpl in *.
        -- by injection H as ->.
        -- injection H as <- _. by rewrite decide_True in Hk.
    + split.
      * destruct (cut c s) as [[k' v']|]; [|done].
        intros [= <- <-]. destruct (proj1 (IH k') eq_refl) as [-> Hk]. simpl.
        by rewrite decide_False.
      * intros [H Hk]. destruct k as [|a k]; simpl in *.
        -- by injection H as ->.
        -- injection H as <- H. rewrite decide_False in Hk by done.
           assert (cut c s = Some (k, v)) as -> by (by apply IH). done.
Qed.

Lemma Index_byte c s :
  Index s (String c "") = (λ kv, String.length (fst kv)) <$> cut c s.
Proof.
  induction s as [|b s IH].
  - done.
  - cbn [Index cut]. rewrite HasPrefix_byte.
    destruct (decide (c = b)) as [->|Hne].
    + by rewrite bool_decide_eq_true_2.
    + rewrite bool_decide_eq_false_2 by done. rewrite IH.
      by destruct (cut c s) as [[k v]|].
Qed.

Lemma take_app_length k s : take (String.length k) (k +:+ s) = k.
Proof. induction k as [|a k IH]; simpl; [by destruct s|]. by rewrite IH. Qed.

Lemma drop_app_length k c s : drop (String.length k + 1) (k +:+ String c s) = s.
Proof. induction k as [|a k IH]; simpl; [done|]. by rewrite IH. Qed.

(** [strings.SplitN(s, sep, 2)] for a one-byte separator. *)
Lemma SplitN_byte c s :
  SplitN s (String c "") 2 = match cut c s with
                             | Some (k, v) => [k; v]
                             | None => [s]
                             end.
Proof.
  unfold SplitN. destruct s as [|b s]; [done|].
  assert (Nat.min 2 (len (String b s) + 1) - 1 = 1) as ->.
  { unfold len. change (String.length (String b s)) with (S (String.length s)). lia. }
  cbn [genSplit_loop]. rewrite Index_byte.
  destruct (cut c (String b s)) as [[k v]|] eqn:Hcut; [|done].
  apply cut_Some in Hcut as [Heq _]. simpl fmap. rewrite Heq.
  by rewrite take_app_length, drop_app_length.
Qed.

Lemma SplitN_byte_length c s :
  length (SplitN s (String c "") 2) = if containsByte c s then 2 else 1.
Proof.
  rewrite SplitN_byte. destruct (cut c s) as [[k v]|] eqn:Hcut.
  - destruct (containsByte c s) eqn:Hc; [done|].
    apply cut_None in Hc. congruence.
  - apply cut_None in Hcut. by rewrite Hcut.
Qed.

End SplitFacts.

(** ** The buildah container backend *)

Module BackendFacts.
Import ContainerBackend BackendSpec BuildErrors.

Lemma allSucceeded_app a b : allSucceeded (a ++ b) = allSucceeded a && allSucceeded b.
Proof. apply forallb_app. Qed.

Lemma stepsOf_app a b : stepsOf (a ++ b) = stepsOf a ++ stepsOf b.
Proof. apply map_app. Qed.

Lemma stopped_single ev q :
  stepFailed ev = true → stoppedAtFailure [ev] (stepOf (ev_call ev) :: q).
Proof.
  intros Hf. exists [], ev, []. repeat split; try done. by exists q.
Qed.

Lemma stopped_weaken tr p q : stoppedAtFailure tr p → stoppedAtFailure tr (p ++ q).
Proof.
  intros (pre & ev & post & -> & Hpre & Hev & Hpost & Hp).
  exists pre, ev, post. repeat split; try done. by apply prefix_app_r.
Qed.

Lemma stopped_prepend a tr p :
  allSucceeded a = true → stoppedAtFailure tr p → stoppedAtFailure (a ++ tr) (stepsOf a ++ p).
Proof.
  intros Ha (pre & ev & post & -> & Hpre & Hev & Hpost & Hp).
  exists (a ++ pre), ev, post. repeat split; try done.
  - by rewrite <- app_assoc.
  - rewrite allSucceeded_app, Ha, Hpre. done.
  - rewrite <- app_assoc, stepsOf_app. by apply prefix_app.
Qed.

Lemma stopped_cleanup tr p ev :
  isCleanup ev = true → stoppedAtFailure tr p → stoppedAtFailure (tr ++ [ev]) p.
Proof.
  intros Hc (pre & ev' & post & -> & Hpre & Hev & Hpost & Hp).
  exists pre, ev', (post ++ [ev]). repeat split; try done.
  - by rewrite <- app_assoc.
  - rewrite forallb_app, Hpost. simpl. by rewrite Hc.
Qed.

Lemma stopped_not_all tr p : stoppedAtFailure tr p → allSucceeded tr = false.
Proof.
  intros (pre & ev & post & -> & _ & Hev & _).
  rewrite allSucceeded_app. simpl. rewrite Hev. simpl. apply andb_false_r.
Qed.

Lemma failedWith_single ev e :
  stepFailed ev = true → ev_err ev = Some e → failedWith [ev] (stepError (ev_call ev) e).
Proof. intros Hf He. by exists [], ev, [], e. Qed.

Lemma failedWith_prepend a tr r :
  allSucceeded a = true → failedWith tr r → failedWith (a ++ tr) r.
Proof.
  intros Ha (pre & ev & post & e & -> & Hpre & Hev & He & Hpost & ->).
  exists (a ++ pre), ev, post, e. split; [by rewrite <- app_assoc|].
  split; [by rewrite allSucceeded_app, Ha, Hpre|]. done.
Qed.

Lemma failedWith_cleanup tr r ev :
  isCleanup ev = true → failedWith tr r → failedWith (tr ++ [ev]) r.
Proof.
  intros Hc (pre & ev' & post & e & -> & Hpre & Hev & He & Hpost & ->).
  exists pre, ev', (post ++ [ev]), e. split; [by rewrite <- app_assoc|].
  split; [done|]. split; [done|]. split; [done|]. split; [|done].
  rewrite forallb_app, Hpost. simpl. by rewrite Hc.
Qed.

Lemma failedWith_not_all tr r : failedWith tr r → allSucceeded tr = false.
Proof.
  intros (pre & ev & post & e & -> & _ & Hev & _).
  rewrite allSucceeded_app. simpl. rewrite Hev. simpl. apply andb_false_r.
Qed.

Lemma early_not_user_command (new : list Event) :
  Forall (λ ev, isEarlyCall (ev_call ev) = true) new →
  ∀ ev command, ev ∈ new → stepOf (ev_call ev) ≠ UserCommand command.
Proof.
  intros Hearly ev command Hin. rewrite Forall_forall in Hearly.
  specialize (Hearly ev Hin). by destruct (ev_call ev).
Qed.

Section WithEngine.

Context {World : Type} `{!Buildah World}.

Lemma prepareActions_run (actions : list (PrepareContainerAction World)) :
  ∀ index root st,
  ∃ r w' new,
    prepareActions index root actions st
    = (Return r, {| world := w'; calls := calls st ++ new |})
    ∧ phaseOutcome r new (map PrepareAction (seq index (length actions))).
Proof.
  induction actions as [|action rest IH]; intros index root st.
  - exists None, (world st), []. split.
    + destruct st. simpl. by rewrite app_nil_r.
    + by left.
  - cbn [prepareActions]. unfold mbind, M_bind, invoke.
    destruct (PrepareContainer action root (world st)) as [[e|] w1] eqn:Hact.
    + eexists _, _, [_]. split; [reflexivity|].
      right. split; [done|].
      exact (stopped_single {| ev_call := CallPrepareContainer index root; ev_err := Some e |}
                            _ eq_refl).
    + set (ev := {| ev_call := CallPrepareContainer index root; ev_err := id None |}).
      destruct (IH (S index) root {| world := w1; calls := calls st ++ [ev] |})
        as (r & w' & new & Heq & Hphase).
      rewrite Heq. exists r, w', (ev :: new). split.
      * simpl. by rewrite <- app_assoc.
      * destruct Hphase as [(-> & Hall & Hsteps)|[Hr Hstop]].
        -- left. repeat split; [done|]. simpl. by rewrite Hsteps.
        -- right. split; [done|].
           by apply (stopped_prepend [ev] new).
Qed.

Lemma prepareContainer_run containerID (actions : list (PrepareContainerAction World)) st :
  ∃ r w' new,
    prepareContainer containerID actions st
    = (Return r, {| world := w'; calls := calls st ++ new |})
    ∧ phaseOutcome r new
        ([MountRoot] ++ map PrepareAction (seq 0 (length actions)) ++ [UmountRoot]).
Proof.
  unfold prepareContainer, mbind, M_bind, invoke.
  destruct (Mount_ containerID _ (world st)) as [[root [e|]] w1].
  - eexists _, _, [_]. split; [reflexivity|].
    right. split; [done|].
    exact (stopped_single
             {| ev_call := CallMount containerID (getBuildahCommonOpts true);
                ev_err := Some e |} _ eq_refl).
  - set (evm := {| ev_call := CallMount containerID (getBuildahCommonOpts true);
                   ev_err := snd (root, None) |}).
    destruct (prepareActions_run actions 0 root {| world := w1; calls := calls st ++ [evm] |})
      as (r & w2 & new & Heq & Hphase).
    rewrite Heq. cbn [world calls].
    destruct (Umount root (getBuildahCommonOpts true) w2) as [ue w3].
    set (evu := {| ev_call := CallUmount root (getBuildahCommonOpts true); ev_err := id ue |}).
    exists r, w3, (evm :: new ++ [evu]). split.
    + unfold mret, M_ret. by rewrite <- !app_assoc.
    + destruct Hphase as [(-> & Hall & Hsteps)|[Hr Hstop]].
      * left. repeat split; [|].
        -- change (evm :: new ++ [evu]) with ([evm] ++ new ++ [evu]).
           rewrite !allSucceeded_app, Hall. done.
        -- simpl. rewrite stepsOf_app, Hsteps. done.
      * right. split; [done|].
        change (evm :: new ++ [evu]) with (([evm] ++ new) ++ [evu]).
        apply stopped_cleanup; [done|].
        apply (stopped_weaken _ ([MountRoot] ++ _) [UmountRoot]).
        by apply (stopped_prepend [evm] new).
Qed.

Lemma buildMounts_run volumes :
  ∀ mounts (st : @State World),
    match firstInvalidVolume volumes with
    | Some v =>
        buildMounts volumes mounts st
        = (Panic "invalid volume %q: expected SOURCE:DESTINATION format" [v], st)
    | None => ∃ ms, buildMounts volumes mounts st = (Return ms, st)
    end.
Proof.
  induction volumes as [|volume rest IH]; intros mounts st.
  - by exists mounts.
  - cbn [buildMounts]. rewrite SplitFacts.SplitN_byte_length.
    unfold firstInvalidVolume. cbn [find].
    destruct (containsByte ":" volume); simpl; [|done].
    apply IH.
Qed.

Lemma runUserCommands_run containerID commands volumes :
  ∀ st,
  ∃ out w' new,
    runUserCommands containerID commands volumes st
    = (out, {| world := w'; calls := calls st ++ new |})
    ∧ ((∃ r, out = Return r
             ∧ phaseOutcome r new (map (λ cmd, UserCommand ["sh"; "-c"; cmd]) commands)
             ∧ (commands = [] ∨ firstInvalidVolume volumes = None))
       ∨ (∃ v, out = Panic "invalid volume %q: expected SOURCE:DESTINATION format" [v]
               ∧ new = [] ∧ commands ≠ [] ∧ firstInvalidVolume volumes = Some v)).
Proof.
  induction commands as [|cmd rest IH]; intros st.
  - exists (Return None), (world st), []. split.
    + destruct st. simpl. by rewrite app_nil_r.
    + left. exists None. repeat split; [by left|by left].
  - cbn [runUserCommands]. unfold mbind at 1. unfold M_bind at 1.
    pose proof (buildMounts_run volumes [] st) as Hm.
    destruct (firstInvalidVolume volumes) as [v|] eqn:Hv.
    + rewrite Hm. exists (Panic "invalid volume %q: expected SOURCE:DESTINATION format" [v]),
        (world st), []. split.
      * destruct st. simpl. by rewrite app_nil_r.
      * right. by exists v.
    + destruct Hm as [ms ->]. unfold mbind, M_bind, invoke.
      destruct (RunCommand containerID ["sh"; "-c"; cmd] _ (world st)) as [[e|] w1].
      * eexists _, _, [_]. split; [reflexivity|].
        left. eexists. split; [reflexivity|]. split; [|by right].
        right. split; [done|].
        exact (stopped_single
                 {| ev_call := CallRunCommand containerID ["sh"; "-c"; cmd]
                                 {| RunCommandOpts_CommonOpts := getBuildahCommonOpts false;
                                    Mounts := ms |};
                    ev_err := Some e |} _ eq_refl).
      * match goal with
        | |- context [calls st ++ [?e]] => set (ev := e)
        end.
        destruct (IH {| world := w1; calls := calls st ++ [ev] |})
          as (out & w' & new & Heq & Hcases).
        fold (runUserCommands containerID rest volumes). rewrite Heq.
        exists out, w', (ev :: new). split.
        { simpl. by rewrite <- app_assoc. }
        destruct Hcases as [(r & -> & Hphase & _)|(v & -> & -> & Hne & Hbad)];
          [|congruence].
        left. exists r. split; [done|]. split; [|by right].
        destruct Hphase as [(-> & Hall & Hsteps)|[Hr Hstop]].
        -- left. repeat split; [done|]. simpl. by rewrite Hsteps.
        -- right. split; [done|]. by apply (stopped_prepend [ev] new).
Qed.

Lemma prepareBlock_run containerID (actions : list (PrepareContainerAction World)) st :
  ∃ r w' new,
    (if bool_decide (0 < length actions)
     then prepareContainer containerID actions else mret None) st
    = (Return r, {| world := w'; calls := calls st ++ new |})
    ∧ phaseOutcome r new
        (if bool_decide (0 < length actions)
         then [MountRoot] ++ map PrepareAction (seq 0 (length actions)) ++ [UmountRoot]
         else []).
Proof.
  destruct (bool_decide (0 < length actions)).
  - apply prepareContainer_run.
  - exists None, (world st), []. split.
    + destruct st. unfold mret, M_ret. simpl. by rewrite app_nil_r.
    + by left.
Qed.

(** The three ways a stapel stage build ends. *)
Lemma BuildStapelStage_run baseImage (opts : BuildStapelStageOpts World) st :
  ∃ out w' new,
    BuildStapelStage baseImage opts st = (out, {| world := w'; calls := calls st ++ new |})
    ∧ ((∃ id, out = Return (id, None)
              ∧ allSucceeded new = true
              ∧ stepsOf new = plan baseImage opts
              ∧ (UserCommands opts = [] ∨ firstInvalidVolume (BuildVolumes opts) = None))
       ∨ (∃ e, out = Return ("", Some e) ∧ stoppedAtFailure new (plan baseImage opts))
       ∨ (∃ v, out = Panic "invalid volume %q: expected SOURCE:DESTINATION format" [v]
               ∧ allSucceeded new = true
               ∧ UserCommands opts ≠ []
               ∧ firstInvalidVolume (BuildVolumes opts) = Some v
               ∧ ∀ ev command, ev ∈ new → stepOf (ev_call ev) ≠ UserCommand command)).
Proof.
  unfold BuildStapelStage, plan.
  unfold mbind at 1. unfold M_bind at 1. unfold draw.
  destruct (uuid_New_String (world st)) as [u w0]. cbn [world calls].
  set (containerID := GoStrings.Sprintf_ss "werf-stage-build-" u).
  unfold mbind at 1. unfold M_bind at 1. unfold invoke at 1. cbn [world calls].
  destruct (FromCommand containerID baseImage (getBuildahCommonOpts true) w0)
    as [[c [e|]] w1].
  { eexists _, _, [_]. split; [reflexivity|]. right. left. eexists. split; [reflexivity|].
    exact (stopped_single
             {| ev_call := CallFromCommand containerID baseImage (getBuildahCommonOpts true);
                ev_err := Some e |} _ eq_refl). }
  set (evc := {| ev_call := CallFromCommand containerID baseImage (getBuildahCommonOpts true);
                 ev_err := snd (c, None) |}).
  unfold mbind at 1. unfold M_bind at 1.
  destruct (prepareBlock_run containerID (PrepareContainerActions opts)
              {| world := w1; calls := calls st ++ [evc] |})
    as (r1 & w2 & new1 & Heq1 & Hphase1).
  rewrite Heq1. cbn [world calls] in *.
  set (p1 := if bool_decide (0 < length (PrepareContainerActions opts))
             then [MountRoot] ++ _ else _) in *.
  destruct Hphase1 as [(-> & Hall1 & Hsteps1)|[[e1 ->] Hstop1]].
  2:{ exists (Return ("", Some e1)), w2, (evc :: new1). split.
      { unfold mret, M_ret. by rewrite <- app_assoc. }
      right. left. exists e1. split; [done|].
      apply (stopped_weaken _ ([CreateContainer baseImage] ++ p1)).
      by apply (stopped_prepend [evc] new1). }
  unfold mbind at 1. unfold M_bind at 1.
  destruct (runUserCommands_run containerID (UserCommands opts) (BuildVolumes opts)
              {| world := w2; calls := (calls st ++ [evc]) ++ new1 |})
    as (out2 & w3 & new2 & Heq2 & Hcases2).
  rewrite Heq2. cbn [world calls] in *.
  set (p2 := map (λ cmd, UserCommand ["sh"; "-c"; cmd]) (UserCommands opts)) in *.
  destruct Hcases2 as [(r2 & -> & Hphase2 & Hvalid)|(v & -> & -> & Hne & Hbad)].
  2:{ exists (Panic "invalid volume %q: expected SOURCE:DESTINATION format" [v]), w3,
        (evc :: new1). split.
      { by rewrite app_nil_r, <- app_assoc. }
      right. right. exists v. repeat split; try done.
      intros ev command Hin Hstep.
      assert (UserCommand command ∈ stepsOf (evc :: new1)) as Hs.
      { rewrite <- Hstep. unfold stepsOf. apply list_elem_of_fmap. by exists ev. }
      simpl in Hs. rewrite Hsteps1 in Hs. apply elem_of_cons in Hs as [|Hs]; [done|].
      unfold p1 in Hs. case_bool_decide; [|by apply elem_of_nil in Hs].
      simpl in Hs. apply elem_of_cons in Hs as [|Hs]; [done|].
      apply elem_of_app in Hs as [Hs|Hs].
      - apply list_elem_of_fmap in Hs as (? & ? & ?). done.
      - apply list_elem_of_singleton in Hs. done. }
  destruct Hphase2 as [(-> & Hall2 & Hsteps2)|[[e2 ->] Hstop2]].
  2:{ exists (Return ("", Some e2)), w3, (evc :: new1 ++ new2). split.
      { unfold mret, M_ret. by rewrite <- !app_assoc. }
      right. left. exists e2. split; [done|].
      rewrite (app_assoc p1 p2), <- Hsteps1.
      apply (stopped_weaken _ ([CreateContainer baseImage] ++ stepsOf new1 ++ p2)).
      apply (stopped_prepend ([evc] ++ new1) new2); [|done].
      by rewrite allSucceeded_app, Hall1. }
  unfold mbind at 1. unfold M_bind at 1. unfold invoke at 1. cbn [world calls].
  match goal with
  | |- context [Config containerID ?o w3] => set (copts := o)
  end.
  destruct (Config containerID copts w3) as [[e3|] w4].
  { exists (Return ("", Some (Errorf "unable to set container %q config: %w" [containerID] e3))),
      w4, (evc :: new1 ++ new2 ++ [{| ev_call := CallConfig containerID copts;
                                       ev_err := Some e3 |}]). split.
    { unfold mret, M_ret. by rewrite <- !app_assoc. }
    right. left. eexists. split; [reflexivity|].
    rewrite <- Hsteps1, <- Hsteps2.
    change (evc :: new1 ++ new2 ++ ?l) with ([evc] ++ new1 ++ new2 ++ l).
    change [CreateContainer baseImage] with (stepsOf [evc]).
    rewrite !app_assoc. rewrite <- !stepsOf_app.
    apply (stopped_prepend (([evc] ++ new1) ++ new2) [_]
             (ConfigureLabels _ :: [CommitContainer])).
    - by rewrite !allSucceeded_app, Hall1, Hall2.
    - exact (stopped_single {| ev_call := CallConfig containerID copts; ev_err := Some e3 |}
                            _ eq_refl). }
  set (evg := {| ev_call := CallConfig containerID copts; ev_err := id None |}).
  unfold mbind at 1. unfold M_bind at 1. unfold invoke at 1. cbn [world calls].
  match goal with
  | |- context [Commit containerID ?o w4] => set (mopts := o)
  end.
  destruct (Commit containerID mopts w4) as [[imgID [e4|]] w5].
  { exists (Return ("", Some (Errorf "unable to commit container %q: %w" [containerID] e4))),
      w5, (evc :: new1 ++ new2 ++ [evg; {| ev_call := CallCommit containerID mopts;
                                            ev_err := Some e4 |}]). split.
    { unfold mret, M_ret. by rewrite <- !app_assoc. }
    right. left. eexists. split; [reflexivity|].
    rewrite <- Hsteps1, <- Hsteps2.
    change (evc :: new1 ++ new2 ++ ?a :: ?l) with ([evc] ++ new1 ++ new2 ++ [a] ++ l).
    change ([CreateContainer baseImage] ++ stepsOf new1 ++ stepsOf new2 ++ ?a :: ?l)
      with (stepsOf [evc] ++ stepsOf new1 ++ stepsOf new2 ++ stepsOf [evg] ++ l).
    rewrite !app_assoc. rewrite <- !stepsOf_app.
    apply (stopped_prepend (((([evc] ++ new1) ++ new2)) ++ [evg]) [_] [CommitContainer]).
    - by rewrite !allSucceeded_app, Hall1, Hall2.
    - exact (stopped_single {| ev_call := CallCommit containerID mopts; ev_err := Some e4 |}
                            _ eq_refl). }
  exists (Return (imgID, None)), w5,
    (evc :: new1 ++ new2 ++ [evg; {| ev_call := CallCommit containerID mopts;
                                     ev_err := None |}]). split.
  { unfold mret, M_ret. by rewrite <- !app_assoc. }
  left. exists imgID. repeat split; try done.
  - change (evc :: new1 ++ new2 ++ ?l) with ([evc] ++ new1 ++ new2 ++ l).
    by rewrite !allSucceeded_app, Hall1, Hall2.
  - simpl. rewrite !stepsOf_app, Hsteps1, Hsteps2. done.
Qed.

Lemma firstInvalidVolume_exists volumes :
  (∃ v, v ∈ volumes ∧ containsByte ":" v = false) →
  ∃ v, firstInvalidVolume volumes = Some v.
Proof.
  intros (v & Hin & Hbad). unfold firstInvalidVolume.
  destruct (find _ volumes) as [v'|] eqn:Hfind; [by exists v'|].
  apply list_elem_of_In in Hin.
  pose proof (find_none _ _ Hfind v Hin) as Hv. simpl in Hv.
  by rewrite Hbad in Hv.
Qed.

Lemma splitAtFirst_unique c arg k v k' v' :
  splitAtFirst c arg k v → splitAtFirst c arg k' v' → k = k' ∧ v = v'.
Proof.
  intros H1%SplitFacts.cut_Some H2%SplitFacts.cut_Some.
  rewrite H1 in H2. by injection H2.
Qed.

Lemma parseBuildArgs_invalid args :
  ∀ acc, (∃ arg, arg ∈ args ∧ containsByte "=" arg = false) →
         ∃ e, parseBuildArgs args acc = inr e.
Proof.
  induction args as [|argStr rest IH]; intros acc (arg & Hin & Hbad).
  - by apply elem_of_nil in Hin.
  - cbn [parseBuildArgs]. rewrite SplitFacts.SplitN_byte_length.
    destruct (containsByte "=" argStr) eqn:Hc.
    + rewrite bool_decide_eq_false_2 by lia.
      apply elem_of_cons in Hin as [->|Hin]; [congruence|].
      apply IH. by exists arg.
    + rewrite bool_decide_eq_true_2 by lia. by eexists.
Qed.

Lemma parseBuildArgs_valid args :
  ∀ acc, (∀ arg, arg ∈ args → containsByte "=" arg = true) →
  ∃ m, parseBuildArgs args acc = inl m
       ∧ (∀ k v, m !! k = Some v →
                 (∃ arg, arg ∈ args ∧ splitAtFirst "=" arg k v) ∨ acc !! k = Some v)
       ∧ (∀ pre arg post k v,
            args = pre ++ arg :: post → splitAtFirst "=" arg k v →
            (∀ a v', a ∈ post → ¬ splitAtFirst "=" a k v') →
            m !! k = Some v)
       ∧ (∀ k, (∀ a v', a ∈ args → ¬ splitAtFirst "=" a k v') → m !! k = acc !! k).
Proof.
  induction args as [|argStr rest IH]; intros acc Hall.
  - exists acc. split; [done|]. split; [by right|]. split; [|done].
    intros pre arg post k v Heq. by destruct pre.
  - cbn [parseBuildArgs]. rewrite SplitFacts.SplitN_byte_length, SplitFacts.SplitN_byte.
    rewrite (Hall argStr) by (by left).
    rewrite bool_decide_eq_false_2 by lia.
    destruct (cut "=" argStr) as [[k0 v0]|] eqn:Hcut.
    2:{ apply SplitFacts.cut_None in Hcut. rewrite (Hall argStr) in Hcut by (by left). done. }
    apply SplitFacts.cut_Some in Hcut. cbn [nth].
    destruct (IH (<[k0:=v0]> acc)) as (m & -> & Hfrom & Hlast & Hnone).
    { intros arg Hin. apply Hall. by right. }
    exists m. split; [done|]. split; [|split].
    + intros k v Hm. destruct (Hfrom k v Hm) as [(arg & Hin & Hs)|Hacc].
      * left. exists arg. split; [by right|done].
      * destruct (decide (k0 = k)) as [->|Hne].
        -- rewrite lookup_insert_eq in Hacc. injection Hacc as ->.
           left. exists argStr. split; [by left|done].
        -- rewrite lookup_insert_ne in Hacc by done. by right.
    + intros pre arg post k v Heq Hs Hlater. destruct pre as [|a pre].
      * simpl in Heq. injection Heq as <- <-.
        destruct (splitAtFirst_unique _ _ _ _ _ _ Hcut Hs) as [-> ->].
        rewrite (Hnone k) by done. apply lookup_insert_eq.
      * simpl in Heq. injection Heq as <- ->. by apply (Hlast pre arg post).
    + intros k Hk. rewrite (Hnone k).
      * apply lookup_insert_ne. intros ->. apply (Hk argStr v0); [by left|done].
      * intros a v' Hin. apply Hk. by right.
Qed.

(** C7. [GetImageInfo] makes one inspect call and returns: [nil, nil]
    exactly when the inspect returned no result and no error; for a result
    without error, a descriptor with its labels, creation time, parent
    and size; an error exactly when the inspect returned one. *)
Theorem C7_GetImageInfo_results parse ref (st : @State World) inspect ierr w' :
  Inspect ref (world st) = ((inspect, ierr), w') →
  ∃ info err,
    GetImageInfo parse ref st
    = (Return (info, err),
       {| world := w';
          calls := calls st ++ [{| ev_call := CallInspect ref; ev_err := ierr |}] |})
    ∧ ((info = None ∧ err = None) ↔ (inspect = None ∧ ierr = None))
    ∧ (∀ i, inspect = Some i → ierr = None →
            ∃ d, info = Some d ∧ err = None
                 ∧ Name d = ref
                 ∧ Labels d = Config_Labels (Docker_Config (Docker i))
                 ∧ CreatedAtUnixNano d = UnixNano (Docker_Created (Docker i))
                 ∧ ParentID d = Config_Image (Docker_Config (Docker i))
                 ∧ Size d = Docker_Size (Docker i))
    ∧ (is_Some err ↔ is_Some ierr)
    ∧ (∀ e, ierr = Some e →
            info = None
            ∧ err = Some (Errorf "error getting buildah inspect of %q: %w" [ref] e)).
Proof.
  intros Hinspect. unfold GetImageInfo, mbind, M_bind, invoke. rewrite Hinspect.
  destruct ierr as [e|]; [|destruct inspect as [i|]].
  - eexists _, _. split; [reflexivity|]. split; [|split; [|split]].
    + split; intros [_ H]; discriminate H.
    + intros i _ H. discriminate H.
    + split; intros _; by eexists.
    + by intros e' [= <-].
  - destruct (parse ref) as [repository tag].
    eexists _, _. split; [reflexivity|]. split; [|split; [|split]].
    + split; intros [H _]; discriminate H.
    + intros i' [= <-] _. eexists. split; [reflexivity|]. by repeat split.
    + split; intros [? H]; discriminate H.
    + intros e H. discriminate H.
  - eexists _, _. split; [reflexivity|]. split; [|split; [|split]].
    + done.
    + intros i H. discriminate H.
    + split; intros [? H]; discriminate H.
    + intros e H. discriminate H.
Qed.

(** C8. A stapel stage build returns a non-empty identifier only after
    all its steps were made in order and none failed; as soon as a step
    fails it stops and returns the empty identifier with an error. *)
Theorem C8_BuildStapelStage_steps baseImage (opts : BuildStapelStageOpts World) st :
  ∃ new,
    calls (BuildStapelStage baseImage opts st).2 = calls st ++ new
    ∧ (∀ id err,
         (BuildStapelStage baseImage opts st).1 = Return (id, err) → id ≠ "" →
         err = None ∧ allSucceeded new = true ∧ stepsOf new = plan baseImage opts)
    ∧ (allSucceeded new = false →
       ∃ e, (BuildStapelStage baseImage opts st).1 = Return ("", Some e)
            ∧ stoppedAtFailure new (plan baseImage opts)).
Proof.
  destruct (BuildStapelStage_run baseImage opts st) as (out & w' & new & -> & Hcases).
  exists new. split; [done|]. cbn [fst snd].
  destruct Hcases as [(id & -> & Hall & Hsteps & _)
                     |[(e & -> & Hstop)|(v & -> & Hall & _)]].
  - split; [|congruence]. by intros id' err [= <- <-] _.
  - split; [by intros id' err [= <- <-]|]. intros _. by exists e.
  - split; [done|congruence].
Qed.

(** The steps before the user commands, with the error a failing one
    makes the build return. *)
Lemma prepareActions_failed (actions : list (PrepareContainerAction World)) :
  ∀ index root st,
  ∃ r w' new,
    prepareActions index root actions st
    = (Return r, {| world := w'; calls := calls st ++ new |})
    ∧ Forall (λ ev, isEarlyCall (ev_call ev) = true) new
    ∧ ((r = None ∧ allSucceeded new = true) ∨ (∃ e, r = Some e ∧ failedWith new e)).
Proof.
  induction actions as [|action rest IH]; intros index root st.
  - exists None, (world st), []. split; [|split; [constructor|by left]].
    destruct st. simpl. by rewrite app_nil_r.
  - cbn [prepareActions]. unfold mbind, M_bind, invoke.
    destruct (PrepareContainer action root (world st)) as [[e|] w1] eqn:Hact.
    + eexists _, _, [_]. split; [reflexivity|]. split; [by repeat constructor|].
      right. eexists. split; [reflexivity|].
      exact (failedWith_single
               {| ev_call := CallPrepareContainer index root; ev_err := Some e |} e
               eq_refl eq_refl).
    + set (ev := {| ev_call := CallPrepareContainer index root; ev_err := id None |}).
      destruct (IH (S index) root {| world := w1; calls := calls st ++ [ev] |})
        as (r & w' & new & Heq & Hearly & Hcases).
      rewrite Heq. exists r, w', (ev :: new). split; [|split].
      * simpl. by rewrite <- app_assoc.
      * by constructor.
      * destruct Hcases as [[-> Hall]|(e & -> & Hfail)].
        -- left. split; [done|]. simpl. by rewrite Hall.
        -- right. exists e. split; [done|]. by apply (failedWith_prepend [ev] new).
Qed.

Lemma prepareBlock_failed containerID (actions : list (PrepareContainerAction World)) st :
  ∃ r w' new,
    (if bool_decide (0 < length actions)
     then prepareContainer containerID actions else mret None) st
    = (Return r, {| world := w'; calls := calls st ++ new |})
    ∧ Forall (λ ev, isEarlyCall (ev_call ev) = true) new
    ∧ ((r = None ∧ allSucceeded new = true) ∨ (∃ e, r = Some e ∧ failedWith new e)).
Proof.
  destruct (bool_decide (0 < length actions)).
  - unfold prepareContainer, mbind, M_bind, invoke.
    destruct (Mount_ containerID _ (world st)) as [[root [e|]] w1].
    + eexists _, _, [_]. split; [reflexivity|]. split; [by repeat constructor|].
      right. eexists. split; [reflexivity|].
      exact (failedWith_single
               {| ev_call := CallMount containerID (getBuildahCommonOpts true);
                  ev_err := Some e |} e eq_refl eq_refl).
    + set (evm := {| ev_call := CallMount containerID (getBuildahCommonOpts true);
                     ev_err := snd (root, None) |}).
      destruct (prepareActions_failed actions 0 root
                  {| world := w1; calls := calls st ++ [evm] |})
        as (r & w2 & new & Heq & Hearly & Hcases).
      rewrite Heq. cbn [world calls].
      destruct (Umount root (getBuildahCommonOpts true) w2) as [ue w3].
      set (evu := {| ev_call := CallUmount root (getBuildahCommonOpts true);
                     ev_err := id ue |}).
      exists r, w3, (evm :: new ++ [evu]). split; [|split].
      * unfold mret, M_ret. by rewrite <- !app_assoc.
      * constructor; [done|]. apply Forall_app. split; [done|by repeat constructor].
      * destruct Hcases as [[-> Hall]|(e & -> & Hfail)].
        -- left. split; [done|].
           change (evm :: new ++ [evu]) with ([evm] ++ new ++ [evu]).
           rewrite !allSucceeded_app, Hall. done.
        -- right. exists e. split; [done|].
           change (evm :: new ++ [evu]) with (([evm] ++ new) ++ [evu]).
           apply failedWith_cleanup; [done|].
           by apply (failedWith_prepend [evm] new).
  - exists None, (world st), []. split; [|split; [constructor|by left]].
    destruct st. unfold mret, M_ret. simpl. by rewrite app_nil_r.
Qed.

(** A build with a user command and a volume without [:] ends before
    any command is run: in the panic, or at a failing earlier step. *)
Lemma BuildStapelStage_invalid_volume baseImage (opts : BuildStapelStageOpts World) st v :
  UserCommands opts ≠ [] → firstInvalidVolume (BuildVolumes opts) = Some v →
  ∃ out w' new,
    BuildStapelStage baseImage opts st = (out, {| world := w'; calls := calls st ++ new |})
    ∧ Forall (λ ev, isEarlyCall (ev_call ev) = true) new
    ∧ ((out = Panic "invalid volume %q: expected SOURCE:DESTINATION format" [v]
        ∧ allSucceeded new = true)
       ∨ (∃ e, out = Return ("", Some e) ∧ failedWith new e)).
Proof.
  intros Hcmds Hv. unfold BuildStapelStage.
  unfold mbind at 1. unfold M_bind at 1. unfold draw.
  destruct (uuid_New_String (world st)) as [u w0]. cbn [world calls].
  set (containerID := GoStrings.Sprintf_ss "werf-stage-build-" u).
  unfold mbind at 1. unfold M_bind at 1. unfold invoke at 1. cbn [world calls].
  destruct (FromCommand containerID baseImage (getBuildahCommonOpts true) w0)
    as [[c [e|]] w1].
  { eexists _, _, [_]. split; [reflexivity|]. split; [by repeat constructor|].
    right. eexists. split; [reflexivity|].
    exact (failedWith_single
             {| ev_call := CallFromCommand containerID baseImage (getBuildahCommonOpts true);
                ev_err := Some e |} e eq_refl eq_refl). }
  set (evc := {| ev_call := CallFromCommand containerID baseImage (getBuildahCommonOpts true);
                 ev_err := snd (c, None) |}).
  unfold mbind at 1. unfold M_bind at 1.
  destruct (prepareBlock_failed containerID (PrepareContainerActions opts)
              {| world := w1; calls := calls st ++ [evc] |})
    as (r1 & w2 & new1 & Heq1 & Hearly1 & Hcases1).
  rewrite Heq1. cbn [world calls] in *.
  destruct Hcases1 as [[-> Hall1]|(e1 & -> & Hfail1)].
  2:{ exists (Return ("", Some e1)), w2, (evc :: new1). split; [|split].
      - unfold mret, M_ret. by rewrite <- app_assoc.
      - by constructor.
      - right. exists e1. split; [done|]. by apply (failedWith_prepend [evc] new1). }
  unfold mbind at 1. unfold M_bind at 1.
  destruct (runUserCommands_run containerID (UserCommands opts) (BuildVolumes opts)
              {| world := w2; calls := (calls st ++ [evc]) ++ new1 |})
    as (out2 & w3 & new2 & Heq2 & Hcases2).
  rewrite Heq2. cbn [world calls] in *.
  destruct Hcases2 as [(r2 & -> & _ & [?|?])|(v' & -> & -> & _ & Hv')]; [done|congruence|].
  exists (Panic "invalid volume %q: expected SOURCE:DESTINATION format" [v']), w3,
    (evc :: new1). split; [|split].
  - by rewrite app_nil_r, <- app_assoc.
  - by constructor.
  - left. split; [congruence|]. simpl. by rewrite Hall1.
Qed.

(** C9 (as amended). With a user command and a volume without [:], a build
    makes no call but those of the steps before the user commands. If
    these all succeed it panics on the first such volume before any
    command is run; if one of them fails it returns the empty identifier
    with the error of that step, wrapped in the message of the step, and
    runs no command either. Without user commands the volumes play no
    part and the build does not panic. *)
Theorem C9_invalid_volume_panics baseImage (opts : BuildStapelStageOpts World) st :
  (UserCommands opts ≠ [] →
   (∃ v, v ∈ BuildVolumes opts ∧ containsByte ":" v = false) →
   ∃ new,
     calls (BuildStapelStage baseImage opts st).2 = calls st ++ new
     ∧ Forall (λ ev, isEarlyCall (ev_call ev) = true) new
     ∧ (allSucceeded new = true →
        ∃ v, (BuildStapelStage baseImage opts st).1
             = Panic "invalid volume %q: expected SOURCE:DESTINATION format" [v]
             ∧ firstInvalidVolume (BuildVolumes opts) = Some v
             ∧ ∀ ev command, ev ∈ new → stepOf (ev_call ev) ≠ UserCommand command)
     ∧ (allSucceeded new = false →
        ∃ e, (BuildStapelStage baseImage opts st).1 = Return ("", Some e)
             ∧ failedWith new e
             ∧ ∀ ev command, ev ∈ new → stepOf (ev_call ev) ≠ UserCommand command))
  ∧ (UserCommands opts = [] →
     (∀ format operands, (BuildStapelStage baseImage opts st).1 ≠ Panic format operands)
     ∧ ∀ volumes,
         BuildStapelStage baseImage (withBuildVolumes volumes opts) st
         = BuildStapelStage baseImage opts st).
Proof.
  split.
  - intros Hcmds Hbad. apply firstInvalidVolume_exists in Hbad as [v Hv].
    destruct (BuildStapelStage_invalid_volume baseImage opts st v Hcmds Hv)
      as (out & w' & new & -> & Hearly & Hcases).
    exists new. split; [done|]. split; [done|]. cbn [fst snd].
    pose proof (early_not_user_command new Hearly) as Hno.
    destruct Hcases as [[-> Hall]|(e & -> & Hfail)].
    + split; [|congruence]. intros _. by exists v.
    + pose proof (failedWith_not_all _ _ Hfail) as Hnot.
      split; [congruence|]. intros _. by exists e.
  - intros Hcmds. split.
    + destruct (BuildStapelStage_run baseImage opts st) as (out & w' & new & -> & Hcases).
      cbn [fst]. intros format operands.
      destruct Hcases as [(id & -> & _)|[(e & -> & _)|(v & -> & _ & Hne & _)]]; done.
    + intros volumes. unfold BuildStapelStage. destruct opts. simpl in *. by subst.
Qed.

(** C10. [BuildDockerfile] with an argument without [=] returns an error
    and leaves the engine alone; otherwise it calls the engine once, with
    the map in which every binding comes from an argument cut at its first
    [=] and every key has the value of the last argument that sets it. *)
Theorem C10_BuildDockerfile_build_args dockerfile opts (st : @State World) :
  ((∃ arg, arg ∈ BuildArgs opts ∧ containsByte "=" arg = false) →
   ∃ e, BuildDockerfile dockerfile opts st = (Return ("", Some e), st))
  ∧ ((∀ arg, arg ∈ BuildArgs opts → containsByte "=" arg = true) →
     ∃ m r w',
       let bopts := {| BuildFromDockerfileOpts_CommonOpts := {| LogWriter := Some OutStream |};
                       BuildFromDockerfileOpts_ContextTar := ContextTar opts;
                       BuildFromDockerfileOpts_BuildArgs := m;
                       BuildFromDockerfileOpts_Target := Target opts |} in
       BuildFromDockerfile dockerfile bopts (world st) = (r, w')
       ∧ BuildDockerfile dockerfile opts st
         = (Return r,
            {| world := w';
               calls := calls st ++ [{| ev_call := CallBuildFromDockerfile dockerfile bopts;
                                        ev_err := r.2 |}] |})
       ∧ (∀ k v, m !! k = Some v →
                 ∃ arg, arg ∈ BuildArgs opts ∧ splitAtFirst "=" arg k v)
       ∧ (∀ pre arg post k v,
            BuildArgs opts = pre ++ arg :: post → splitAtFirst "=" arg k v →
            (∀ a v', a ∈ post → ¬ splitAtFirst "=" a k v') →
            m !! k = Some v)).
Proof.
  split.
  - intros Hbad. unfold BuildDockerfile.
    destruct (parseBuildArgs_invalid (BuildArgs opts) ∅ Hbad) as [e ->]. by exists e.
  - intros Hall. unfold BuildDockerfile.
    destruct (parseBuildArgs_valid (BuildArgs opts) ∅ Hall) as (m & -> & Hfrom & Hlast & _).
    exists m. unfold invoke.
    destruct (BuildFromDockerfile dockerfile _ (world st)) as [r w1] eqn:Hb.
    exists r, w1. cbn zeta. split; [done|]. split; [done|]. split; [|done].
    intros k v Hm. destruct (Hfrom k v Hm) as [?|Hempty]; [done|].
    by rewrite lookup_empty in Hempty.
Qed.

End WithEngine.

End BackendFacts.

Module BackendExamples.
Import ContainerBackend BackendSpec BuildErrors BackendFacts.

Example build_succeeds :
  BuildStapelStage "alpine:3.12" (fakeOpts ["make"; "make install"] ["/src:/app"])
                   (fakeStart fakeOK)
  = (Return ("sha256:built", None),
     {| world := fakeOK;
        calls :=
          let id := "werf-stage-build-b7e1f0c2" in
          let root := "/var/lib/containers/werf-stage-build-b7e1f0c2" in
          let quiet := {| LogWriter := None |} in
          let mounts := [{| Type_ := "bind"; Source := "/src"; Destination := "/app" |}] in
          let ropts := {| RunCommandOpts_CommonOpts := {| LogWriter := Some OutStream |};
                          Mounts := mounts |} in
          [ {| ev_call := CallFromCommand id "alpine:3.12" quiet; ev_err := None |};
            {| ev_call := CallMount id quiet; ev_err := None |};
            {| ev_call := CallPrepareContainer 0 root; ev_err := None |};
            {| ev_call := CallUmount root quiet; ev_err := None |};
            {| ev_call := CallRunCommand id ["sh"; "-c"; "make"] ropts; ev_err := None |};
            {| ev_call := CallRunCommand id ["sh"; "-c"; "make install"] ropts;
               ev_err := None |};
            {| ev_call := CallConfig id {| ConfigOpts_CommonOpts := quiet;
                                           ConfigOpts_Labels := ["werf=true"] |};
               ev_err := None |};
            {| ev_call := CallCommit id {| CommitOpts_CommonOpts := quiet |};
               ev_err := None |} ] |}).
Proof. reflexivity. Qed.

Example build_stops_at_failing_command :
  let run := BuildStapelStage "alpine:3.12" (fakeOpts ["true"; "false"; "echo done"] [])
                              (fakeStart fakeOK) in
  run.1 = Return ("", Some (Errorf "unable to run %q: %w" ["false"]
                                   (ExternalError "exit status 1")))
  ∧ stepsOf (calls run.2)
    = [CreateContainer "alpine:3.12"; MountRoot; PrepareAction 0; UmountRoot;
       UserCommand ["sh"; "-c"; "true"]; UserCommand ["sh"; "-c"; "false"]].
Proof. split; reflexivity. Qed.

Lemma C7_witness :
  (GetImageInfo fakeParse "missing:tag" (fakeStart fakeOK)).1 = Return (None, None)
  ∧ ∃ d, (GetImageInfo fakeParse "repo:tag" (fakeStart fakeOK)).1 = Return (Some d, None)
         ∧ ParentID d = "sha256:parent" ∧ Size d = 4096%Z.
Proof.
  split.
  - assert (Inspect "missing:tag" (world (fakeStart fakeOK)) = ((None, None), fakeOK))
      as Hinspect by reflexivity.
    destruct (C7_GetImageInfo_results fakeParse "missing:tag" (fakeStart fakeOK)
                None None fakeOK Hinspect) as (info & err & Heq & Hiff & _).
    destruct (proj2 Hiff (conj eq_refl eq_refl)) as [-> ->].
    rewrite Heq. reflexivity.
  - assert (Inspect "repo:tag" (world (fakeStart fakeOK)) = ((Some fakeInspect, None), fakeOK))
      as Hinspect by reflexivity.
    destruct (C7_GetImageInfo_results fakeParse "repo:tag" (fakeStart fakeOK)
                (Some fakeInspect) None fakeOK Hinspect)
      as (info & err & Heq & _ & Hsome & _).
    destruct (Hsome fakeInspect eq_refl eq_refl) as (d & -> & -> & _ & _ & _ & Hp & Hs).
    exists d. rewrite Heq. split; [reflexivity|]. split; [exact Hp | exact Hs].
Defined.

Lemma C8_witness :
  ∃ new,
    calls (BuildStapelStage "alpine:3.12" (fakeOpts ["make"; "make install"] ["/src:/app"])
                            (fakeStart fakeOK)).2 = [] ++ new
    ∧ allSucceeded new = true
    ∧ stepsOf new
      = [CreateContainer "alpine:3.12"; MountRoot; PrepareAction 0; UmountRoot;
         UserCommand ["sh"; "-c"; "make"]; UserCommand ["sh"; "-c"; "make install"];
         ConfigureLabels ["werf=true"]; CommitContainer].
Proof.
  destruct (C8_BuildStapelStage_steps "alpine:3.12"
              (fakeOpts ["make"; "make install"] ["/src:/app"]) (fakeStart fakeOK))
    as (new & Hcalls & Hok & _).
  exists new. split; [exact Hcalls|].
  destruct (Hok "sha256:built" None eq_refl) as (_ & Hall & Hsteps); [discriminate|].
  split; [exact Hall | exact Hsteps].
Defined.

(** C9 fails as stated: one user command and a volume without [:], but
    the base image cannot be used, and the build returns that error
    instead of panicking. *)
Lemma C9_counterexample :
  UserCommands (fakeOpts ["make"] ["/cache"]) ≠ []
  ∧ "/cache" ∈ BuildVolumes (fakeOpts ["make"] ["/cache"])
  ∧ containsByte ":" "/cache" = false
  ∧ (BuildStapelStage "alpine:3.12" (fakeOpts ["make"] ["/cache"]) (fakeStart fakeNoBase)).1
    = Return ("", Some (Errorf "unable to create container using base image %q: %w"
                               ["alpine:3.12"] (ExternalError "image not known"))).
Proof.
  split; [discriminate|]. split; [apply list_elem_of_singleton; reflexivity|].
  split; reflexivity.
Qed.

Lemma C9_witness :
  (BuildStapelStage "alpine:3.12" (fakeOpts ["make"] ["/src:/app"; "/cache"])
                    (fakeStart fakeOK)).1
  = Panic "invalid volume %q: expected SOURCE:DESTINATION format" ["/cache"]
  ∧ (BuildStapelStage "alpine:3.12" (fakeOpts ["make"] ["/src:/app"; "/cache"])
                      (fakeStart fakeNoBase)).1
    = Return ("", Some (Errorf "unable to create container using base image %q: %w"
                               ["alpine:3.12"] (ExternalError "image not known")))
  ∧ failedWith
      [{| ev_call := CallFromCommand "werf-stage-build-b7e1f0c2" "alpine:3.12"
                       {| LogWriter := None |};
          ev_err := Some (ExternalError "image not known") |}]
      (Errorf "unable to create container using base image %q: %w"
              ["alpine:3.12"] (ExternalError "image not known")).
Proof.
  split.
  - destruct (proj1 (C9_invalid_volume_panics "alpine:3.12"
                       (fakeOpts ["make"] ["/src:/app"; "/cache"]) (fakeStart fakeOK)))
      as (new & Hcalls & _ & Hpanic & _).
    + discriminate.
    + exists "/cache". split; [|reflexivity].
      apply elem_of_cons. right. apply list_elem_of_singleton. reflexivity.
    + vm_compute in Hcalls. subst new.
      destruct (Hpanic eq_refl) as (v & Hout & Hfirst & _).
      vm_compute in Hfirst. injection Hfirst as <-. exact Hout.
  - destruct (proj1 (C9_invalid_volume_panics "alpine:3.12"
                       (fakeOpts ["make"] ["/src:/app"; "/cache"]) (fakeStart fakeNoBase)))
      as (new & Hcalls & _ & _ & Hfailed).
    + discriminate.
    + exists "/cache". split; [|reflexivity].
      apply elem_of_cons. right. apply list_elem_of_singleton. reflexivity.
    + vm_compute in Hcalls. subst new.
      destruct (Hfailed eq_refl) as (e & Hout & Hfail & _).
      pose proof Hout as Hrun. vm_compute in Hrun. injection Hrun as <-.
      split; [exact Hout | exact Hfail].
Defined.

Lemma C10_witness :
  (∃ e, BuildDockerfile "FROM scratch" (fakeDockerfileOpts ["VERSION=1.2"; "DEBUG"])
                        (fakeStart fakeOK)
        = (Return ("", Some e), fakeStart fakeOK))
  ∧ ∃ m, stepsOf (calls (BuildDockerfile "FROM scratch" (fakeDockerfileOpts sampleBuildArgs)
                                         (fakeStart fakeOK)).2) = [BuildImage m]
         ∧ m !! "VERSION" = Some "2.0"
         ∧ m !! "CFLAGS" = Some "-O2 -DMODE=fast".
Proof.
  split.
  - apply (proj1 (C10_BuildDockerfile_build_args "FROM scratch"
                    (fakeDockerfileOpts ["VERSION=1.2"; "DEBUG"]) (fakeStart fakeOK))).
    exists "DEBUG". split; [|reflexivity].
    apply elem_of_cons. right. apply list_elem_of_singleton. reflexivity.
  - destruct (proj2 (C10_BuildDockerfile_build_args "FROM scratch"
                       (fakeDockerfileOpts sampleBuildArgs) (fakeStart fakeOK)))
      as (m & r & w' & _ & Hrun & _ & Hlast).
    + intros arg Hin.
      repeat (apply elem_of_cons in Hin as [->|Hin]; [reflexivity|]).
      apply elem_of_nil in Hin. destruct Hin.
    + exists m. rewrite Hrun. split; [reflexivity|]. split.
      * apply (Hlast ["VERSION=1.2"; "CFLAGS=-O2 -DMODE=fast"] "VERSION=2.0" []);
          [reflexivity | split; reflexivity |].
        intros a v' Hin. apply elem_of_nil in Hin. destruct Hin.
      * apply (Hlast ["VERSION=1.2"] "CFLAGS=-O2 -DMODE=fast" ["VERSION=2.0"]);
          [reflexivity | split; reflexivity |].
        intros a v' Hin [Heq _]. apply list_elem_of_singleton in Hin. subst a.
        discriminate Heq.
Defined.

End BackendExamples.

(** ** More on the synchronization command *)

Module SynchronizationMoreFacts.
Import Synchronization SynchronizationSpec SynchronizationMore Paths SynchronizationFacts.

Lemma noSeparator_app_sep a b : noSeparator (a +:+ String Filepath.Separator b) = false.
Proof.
  unfold noSeparator. induction a as [|ch a IH]; simpl; [done|].
  rewrite IH. apply andb_false_r.
Qed.

Lemma string_app_assoc a b c : (a +:+ b) +:+ c = a +:+ b +:+ c.
Proof.
  induction a as [|ch a IH]; [done|].
  change (String ch ((a +:+ b) +:+ c) = String ch (a +:+ b +:+ c)). by rewrite IH.
Qed.

Lemma Join_trailing_separator dir c :
  isPathElement c = true →
  Filepath.Join [dir; c +:+ String Filepath.Separator ""] = Filepath.Join [dir; c].
Proof.
  intros Hel.
  assert (Hc : c ≠ "") by (intros ->; done).
  assert (Hns : noSeparator c = true).
  { unfold isPathElement in Hel. by apply andb_true_iff in Hel as [_ ?]. }
  assert (Hels : Filepath.elements (c +:+ String Filepath.Separator "") = [c; ""]).
  { rewrite PathFacts.elements_app_sep, (PathFacts.elements_noSeparator _ Hns). done. }
  destruct dir as [|d dir].
  - destruct c as [|ch c]; [done|].
    change (Filepath.Join [""; String ch c +:+ String Filepath.Separator ""])
      with (Filepath.Clean (String ch (c +:+ String Filepath.Separator ""))).
    change (Filepath.Join [""; String ch c]) with (Filepath.Clean (String ch c)).
    unfold Filepath.Clean.
    change (Filepath.elements (String ch (c +:+ String Filepath.Separator "")))
      with (Filepath.elements (String ch c +:+ String Filepath.Separator "")).
    rewrite Hels, (PathFacts.elements_noSeparator _ Hns). done.
  - unfold Filepath.Join. rewrite !bool_decide_eq_false_2 by done.
    change (GoStrings.Join [String d dir; c +:+ String Filepath.Separator ""]
              (String Filepath.Separator ""))
      with (String d (dir +:+ String Filepath.Separator
                          (c +:+ String Filepath.Separator ""))).
    change (GoStrings.Join [String d dir; c] (String Filepath.Separator ""))
      with (String d (dir +:+ String Filepath.Separator c)).
    unfold Filepath.Clean.
    change (String d (dir +:+ String Filepath.Separator ?x))
      with (String d dir +:+ String Filepath.Separator x).
    rewrite !PathFacts.elements_app_sep, (PathFacts.elements_noSeparator _ Hns).
    change (Filepath.elements "") with [""].
    rewrite (app_assoc _ [c] [""]), fold_left_app. done.
Qed.

Section WithEnvironment.

Variable werf_Init : string → string → option error.
Variable werf_GetHomeDir : string.
Variable kube_Init : string → string → option error.
Variable InitKubedog : option error.
Variable lockgate_NewFileLocker : string → option error.

(** X1. The server is started exactly when the initializations the
    selected backend needs succeed; otherwise the error of the first one
    that fails is returned, and kubernetes is initialized only in
    kubernetes mode. *)
Theorem X1_server_started_iff_initialized (common : CommonCmdData) (c : CmdData) :
  ((∃ args, runSynchronization werf_Init werf_GetHomeDir kube_Init InitKubedog
              lockgate_NewFileLocker common c = RunSynchronizationServer args)
   ↔ werf_Init (TmpDir common) (HomeDir common) = None
     ∧ (Kubernetes c = true →
        kube_Init (KubeContext common) (KubeConfig common) = None ∧ InitKubedog = None))
  ∧ (∀ e, werf_Init (TmpDir common) (HomeDir common) = Some e →
          runSynchronization werf_Init werf_GetHomeDir kube_Init InitKubedog
            lockgate_NewFileLocker common c
          = InitFailed (Errorf "initialization error: %s" [] e))
  ∧ (∀ e, werf_Init (TmpDir common) (HomeDir common) = None → Kubernetes c = true →
          kube_Init (KubeContext common) (KubeConfig common) = Some e →
          runSynchronization werf_Init werf_GetHomeDir kube_Init InitKubedog
            lockgate_NewFileLocker common c
          = InitFailed (Errorf "cannot initialize kube: %s" [] e))
  ∧ (∀ e, werf_Init (TmpDir common) (HomeDir common) = None → Kubernetes c = true →
          kube_Init (KubeContext common) (KubeConfig common) = None →
          InitKubedog = Some e →
          runSynchronization werf_Init werf_GetHomeDir kube_Init InitKubedog
            lockgate_NewFileLocker common c
          = InitFailed (Errorf "cannot init kubedog: %s" [] e)).
Proof.
  unfold runSynchronization.
  destruct (werf_Init _ _) as [e0|]; [|destruct (Kubernetes c)].
  - split; [|split; [|split]]; try done.
    + split; [by intros [? ?]|by intros [? _]].
    + by intros e [= <-].
  - destruct (kube_Init _ _) as [e1|]; [|destruct InitKubedog as [e2|]].
    + split; [|split; [|split]]; try done.
      * split; [by intros [? ?]|]. intros [_ H]. by destruct (H eq_refl).
      * by intros e _ _ [= <-].
    + split; [|split; [|split]]; try done.
      * split; [by intros [? ?]|]. intros [_ H]. by destruct (H eq_refl).
      * by intros e _ _ _ [= <-].
    + split; [|split; [|split]]; try done.
      split; [done|]. intros _. by eexists.
  - split; [|split; [|split]]; try done.
    split; [done|]. intros _. by eexists.
Qed.

(** X2. In a running server the stages-storage-cache factory never
    fails, and the lock-manager factory fails exactly under the local
    backend when [lockgate.NewFileLocker] fails on the client's
    directory, with that error unchanged. *)
Theorem X2_factory_errors (common : CommonCmdData) (c : CmdData) (args : ServerArgs) :
  runSynchronization werf_Init werf_GetHomeDir kube_Init InitKubedog
    lockgate_NewFileLocker common c = RunSynchronizationServer args →
  ∀ clientID,
    (∃ sc, stagesStorageCacheFactoryFunc args clientID = inl sc)
    ∧ (∀ e, lockManagerFactoryFunc args clientID = inr e
            ↔ Kubernetes c = false
              ∧ lockgate_NewFileLocker
                  (Filepath.Join [lockManagerBaseDirOf werf_GetHomeDir c; clientID]) = Some e).
Proof.
  intros Hrun clientID. destruct (Kubernetes c) eqn:Hk.
  - destruct (run_cluster _ _ _ _ _ _ _ _ Hrun Hk clientID) as [-> ->].
    split; [by eexists|]. intros e. split; [done|by intros [? _]].
  - destruct (run_local _ _ _ _ _ _ _ _ Hrun Hk clientID) as [-> ->].
    split; [by eexists|]. intros e. unfold lockManagerBaseDirOf.
    destruct (lockgate_NewFileLocker _) as [e'|].
    + split; [by intros [= ->]|by intros [_ [= ->]]].
    + split; [done|by intros [_ ?]].
Qed.

(** X3. Under the local backend the directories of two distinct clients
    whose clientIDs are clean path elements are not nested: neither the
    lock directory nor the cache directory of one lies below that of the
    other. *)
Theorem X3_client_directories_not_nested
        (common : CommonCmdData) (c : CmdData) (args : ServerArgs) id1 id2 :
  runSynchronization werf_Init werf_GetHomeDir kube_Init InitKubedog
    lockgate_NewFileLocker common c = RunSynchronizationServer args →
  Kubernetes c = false →
  isPathElement id1 = true → isPathElement id2 = true →
  (∀ d1 d2, lockManagerLocationOf args id1 = Some (Directory d1) →
            lockManagerLocationOf args id2 = Some (Directory d2) → ¬ insideDir d1 d2)
  ∧ (∀ d1 d2, stagesStorageCacheLocationOf args id1 = Some (Directory d1) →
              stagesStorageCacheLocationOf args id2 = Some (Directory d2) → ¬ insideDir d1 d2).
Proof.
  intros Hrun Hk Hid1 Hid2.
  assert (Hnest : ∀ base rest,
             Filepath.Join [base; id1]
             ≠ Filepath.Join [base; id2] +:+ String Filepath.Separator rest).
  { intros base rest. rewrite !PathFacts.Join_element by done.
    rewrite string_app_assoc. intros Heq%PathFacts.string_app_inv_head.
    assert (noSeparator id1 = true) as Hns.
    { unfold isPathElement in Hid1. by apply andb_true_iff in Hid1 as [_ ?]. }
    rewrite Heq, noSeparator_app_sep in Hns. done. }
  unfold lockManagerLocationOf, stagesStorageCacheLocationOf.
  pose proof (run_local _ _ _ _ _ _ _ _ Hrun Hk) as Hshape. simpl in Hshape.
  destruct (Hshape id1) as [-> ->]. destruct (Hshape id2) as [-> ->].
  split.
  - do 2 destruct (lockgate_NewFileLocker _); try done. simpl.
    intros d1 d2 [= <-] [= <-] [rest Heq]. by apply Hnest in Heq.
  - simpl. intros d1 d2 [= <-] [= <-] [rest Heq]. by apply Hnest in Heq.
Qed.

(** X4. Under the local backend a clientID that is a clean path element
    and the same clientID followed by a separator are given the same
    lock manager and the same cache. *)
Theorem X4_trailing_separator_shares_storage
        (common : CommonCmdData) (c : CmdData) (args : ServerArgs) clientID :
  runSynchronization werf_Init werf_GetHomeDir kube_Init InitKubedog
    lockgate_NewFileLocker common c = RunSynchronizationServer args →
  Kubernetes c = false →
  isPathElement clientID = true →
  lockManagerFactoryFunc args (clientID +:+ "/") = lockManagerFactoryFunc args clientID
  ∧ stagesStorageCacheFactoryFunc args (clientID +:+ "/")
    = stagesStorageCacheFactoryFunc args clientID.
Proof.
  intros Hrun Hk Hid.
  pose proof (run_local _ _ _ _ _ _ _ _ Hrun Hk) as Hshape. cbv zeta in Hshape.
  destruct (Hshape clientID) as [-> ->].
  destruct (Hshape (clientID +:+ "/")) as [-> ->].
  change (clientID +:+ "/") with (clientID +:+ String Filepath.Separator "").
  by rewrite !(Join_trailing_separator _ _ Hid).
Qed.

End WithEnvironment.

Lemma X1_witness :
  runSynchronization sampleInit sampleHome failingInit None sampleNewFileLocker sampleCommon
    (NewCmd sampleGetenv sampleBoolTrue sampleBoolFalse kubernetesFlags)
  = InitFailed (Errorf "cannot initialize kube: %s" [] (ExternalError "no kube config"))
  ∧ ∃ args,
      runSynchronization sampleInit sampleHome failingInit None sampleNewFileLocker sampleCommon
        (NewCmd sampleGetenv sampleBoolTrue sampleBoolFalse noFlags)
      = RunSynchronizationServer args.
Proof.
  split.
  - apply (X1_server_started_iff_initialized sampleInit sampleHome failingInit None
             sampleNewFileLocker sampleCommon
             (NewCmd sampleGetenv sampleBoolTrue sampleBoolFalse kubernetesFlags));
      reflexivity.
  - apply (X1_server_started_iff_initialized sampleInit sampleHome failingInit None
             sampleNewFileLocker sampleCommon
             (NewCmd sampleGetenv sampleBoolTrue sampleBoolFalse noFlags)).
    split; [reflexivity|discriminate].
Defined.

Lemma X2_witness :
  lockManagerFactoryFunc sampleRefusingArgs "locked" = inr (ExternalError "permission denied")
  ∧ ∃ sc, stagesStorageCacheFactoryFunc sampleRefusingArgs "locked" = inl sc.
Proof.
  destruct (X2_factory_errors sampleInit sampleHome sampleInit None refusingNewFileLocker
              sampleCommon (NewCmd sampleGetenv sampleBoolTrue sampleBoolFalse noFlags)
              sampleRefusingArgs eq_refl "locked") as [Hs Hl].
  split; [|exact Hs]. apply Hl. split; reflexivity.
Defined.

Lemma X3_witness :
  (∀ d1 d2, lockManagerLocationOf sampleLocalArgs "proj" = Some (Directory d1) →
            lockManagerLocationOf sampleLocalArgs "proj-b" = Some (Directory d2) →
            ¬ insideDir d1 d2)
  ∧ (∀ d1 d2, stagesStorageCacheLocationOf sampleLocalArgs "proj" = Some (Directory d1) →
              stagesStorageCacheLocationOf sampleLocalArgs "proj-b" = Some (Directory d2) →
              ¬ insideDir d1 d2).
Proof.
  apply (X3_client_directories_not_nested sampleInit sampleHome sampleInit None
           sampleNewFileLocker sampleCommon
           (NewCmd sampleGetenv sampleBoolTrue sampleBoolFalse noFlags)
           sampleLocalArgs "proj" "proj-b"); reflexivity.
Defined.

Lemma X4_witness :
  lockManagerFactoryFunc sampleLocalArgs ("proj" +:+ "/")
  = lockManagerFactoryFunc sampleLocalArgs "proj"
  ∧ stagesStorageCacheFactoryFunc sampleLocalArgs ("proj" +:+ "/")
    = stagesStorageCacheFactoryFunc sampleLocalArgs "proj".
Proof.
  apply (X4_trailing_separator_shares_storage sampleInit sampleHome sampleInit None
           sampleNewFileLocker sampleCommon
           (NewCmd sampleGetenv sampleBoolTrue sampleBoolFalse noFlags)
           sampleLocalArgs "proj"); reflexivity.
Defined.

End SynchronizationMoreFacts.

(** ** More on the stapel stage build *)

Module BackendMoreFacts.
Import ContainerBackend BackendSpec BackendMore BackendFacts.

Lemma mountsOf_cons v rest :
  mountsOf (v :: rest) = match mountOf v with
                         | Some m => m :: mountsOf rest
                         | None => mountsOf rest
                         end.
Proof. reflexivity. Qed.

Lemma firstInvalidVolume_cons v rest :
  firstInvalidVolume (v :: rest)
  = if containsByte ":" v then firstInvalidVolume rest else Some v.
Proof. unfold firstInvalidVolume. simpl. by destruct (containsByte ":" v). Qed.

Lemma mountOf_valid v :
  containsByte ":" v = true →
  ∃ source destination,
    cut ":" v = Some (source, destination)
    ∧ mountOf v = Some {| Type_ := "bind"; Source := source; Destination := destination |}
    ∧ v = source +:+ ":" +:+ destination
    ∧ containsByte ":" source = false.
Proof.
  intros Hc. unfold mountOf.
  destruct (cut ":" v) as [[source destination]|] eqn:Hcut.
  - exists source, destination. apply SplitFacts.cut_Some in Hcut as [Heq Hsrc]. done.
  - apply SplitFacts.cut_None in Hcut. congruence.
Qed.

Lemma mountsOf_valid volumes :
  firstInvalidVolume volumes = None →
  Forall2 (λ volume m, Type_ m = "bind"
                       ∧ volume = Source m +:+ ":" +:+ Destination m
                       ∧ containsByte ":" (Source m) = false)
          volumes (mountsOf volumes).
Proof.
  induction volumes as [|v rest IH]; [constructor|].
  rewrite firstInvalidVolume_cons, mountsOf_cons.
  destruct (containsByte ":" v) eqn:Hc; [|done]. intros Hrest.
  destruct (mountOf_valid v Hc) as (source & destination & _ & -> & Heq & Hsrc).
  constructor; [done|by apply IH].
Qed.

Section WithEngine.

Context {World : Type} `{!Buildah World}.

Lemma buildMounts_mounts volumes :
  ∀ mounts (st : @State World),
    firstInvalidVolume volumes = None →
    buildMounts volumes mounts st = (Return (mounts ++ mountsOf volumes), st).
Proof.
  induction volumes as [|v rest IH]; intros mounts st.
  - intros _. simpl. by rewrite app_nil_r.
  - rewrite firstInvalidVolume_cons, mountsOf_cons. cbn [buildMounts].
    rewrite SplitFacts.SplitN_byte_length, SplitFacts.SplitN_byte.
    destruct (containsByte ":" v) eqn:Hc; [|done]. intros Hrest.
    destruct (mountOf_valid v Hc) as (source & destination & -> & -> & _).
    rewrite bool_decide_eq_false_2 by (intros H; by apply H).
    rewrite (IH _ st Hrest). cbn [nth]. by rewrite <- app_assoc.
Qed.

Lemma prepareActions_trace (actions : list (PrepareContainerAction World)) :
  ∀ index root st,
  ∃ r w' new,
    prepareActions index root actions st
    = (Return r, {| world := w'; calls := calls st ++ new |})
    ∧ Forall (λ ev, ∃ i, ev_call ev = CallPrepareContainer i root) new.
Proof.
  induction actions as [|action rest IH]; intros index root st.
  - exists None, (world st), []. split; [|constructor].
    destruct st. simpl. by rewrite app_nil_r.
  - cbn [prepareActions]. unfold mbind, M_bind, invoke.
    destruct (PrepareContainer action root (world st)) as [[e|] w1].
    + eexists _, _, [_]. split; [reflexivity|].
      constructor; [by eexists|constructor].
    + match goal with
      | |- context [calls st ++ [?e]] => set (ev := e)
      end.
      destruct (IH (S index) root {| world := w1; calls := calls st ++ [ev] |})
        as (r & w' & new & Heq & Hnew).
      rewrite Heq. exists r, w', (ev :: new). split.
      * simpl. by rewrite <- app_assoc.
      * constructor; [by eexists|done].
Qed.

Lemma prepareBlock_trace containerID (actions : list (PrepareContainerAction World)) st :
  ∃ r w' new,
    (if bool_decide (0 < length actions)
     then prepareContainer containerID actions else mret None) st
    = (Return r, {| world := w'; calls := calls st ++ new |})
    ∧ prepareTrace containerID
        (Mount_ containerID (getBuildahCommonOpts true) (world st)).1.1
        (length actions) new.
Proof.
  case_bool_decide as Hn.
  - unfold prepareContainer, mbind, M_bind, invoke.
    destruct (Mount_ containerID _ (world st)) as [[root [e|]] w1]; cbn [fst].
    + eexists _, _, [_]. split; [reflexivity|].
      right. left. split; [done|]. by exists e.
    + match goal with
      | |- context [calls st ++ [?e]] => set (evm := e)
      end.
      destruct (prepareActions_trace actions 0 root
                  {| world := w1; calls := calls st ++ [evm] |})
        as (r & w2 & new & Heq & Hnew).
      rewrite Heq. cbn [world calls].
      destruct (Umount root (getBuildahCommonOpts true) w2) as [ue w3].
      exists r, w3, (evm :: new ++ [{| ev_call := CallUmount root (getBuildahCommonOpts true);
                                       ev_err := ue |}]). split.
      * unfold mret, M_ret. by rewrite <- !app_assoc.
      * right. right. split; [done|]. by exists new, ue.
  - exists None, (world st), []. split.
    + destruct st. unfold mret, M_ret. simpl. by rewrite app_nil_r.
    + left. split; [lia|done].
Qed.

Lemma runUserCommands_trace containerID commands volumes :
  ∀ st,
  ∃ out w' new,
    runUserCommands containerID commands volumes st
    = (out, {| world := w'; calls := calls st ++ new |})
    ∧ Forall (runEvent containerID commands volumes) new
    ∧ (new ≠ [] → firstInvalidVolume volumes = None).
Proof.
  induction commands as [|cmd rest IH]; intros st.
  - exists (Return None), (world st), []. split; [|split; [constructor|done]].
    destruct st. simpl. by rewrite app_nil_r.
  - cbn [runUserCommands]. unfold mbind at 1. unfold M_bind at 1.
    destruct (firstInvalidVolume volumes) as [v|] eqn:Hv.
    + pose proof (buildMounts_run volumes [] st) as Hm. rewrite Hv in Hm. rewrite Hm.
      eexists _, (world st), []. split; [|split; [constructor|done]].
      destruct st. simpl. by rewrite app_nil_r.
    + rewrite (buildMounts_mounts volumes [] st Hv). cbn [app].
      unfold mbind, M_bind, invoke.
      destruct (RunCommand containerID ["sh"; "-c"; cmd] _ (world st)) as [[e|] w1].
      * eexists _, _, [_]. split; [reflexivity|]. split; [|done].
        constructor; [|constructor]. exists cmd. split; [by left|done].
      * match goal with
        | |- context [calls st ++ [?e]] => set (ev := e)
        end.
        destruct (IH {| world := w1; calls := calls st ++ [ev] |})
          as (out & w' & new & Heq & Hnew & _).
        fold (runUserCommands containerID rest volumes). rewrite Heq.
        exists out, w', (ev :: new). split; [|split; [|done]].
        -- simpl. by rewrite <- app_assoc.
        -- constructor.
           ++ exists cmd. split; [by left|done].
           ++ eapply Forall_impl; [exact Hnew|].
              intros ev' (cmd' & Hin & Hcall). exists cmd'. split; [by right|done].
Qed.

(** The calls of a stapel stage build: the creation of the container,
    the block preparing it, the runs of the user commands, and last the
    configuration and the commit. *)
Lemma BuildStapelStage_trace baseImage (opts : BuildStapelStageOpts World) st :
  ∃ ec prep runs tail,
    calls (BuildStapelStage baseImage opts st).2 = calls st ++ ec :: prep ++ runs ++ tail
    ∧ ev_call ec
      = CallFromCommand (GoStrings.Sprintf_ss "werf-stage-build-" (uuid_New_String (world st)).1)
          baseImage (getBuildahCommonOpts true)
    ∧ (prep = []
       ∨ prepareTrace (GoStrings.Sprintf_ss "werf-stage-build-" (uuid_New_String (world st)).1)
           (mountedRoot baseImage (world st))
           (length (PrepareContainerActions opts)) prep)
    ∧ Forall (runEvent (GoStrings.Sprintf_ss "werf-stage-build-" (uuid_New_String (world st)).1)
                (UserCommands opts) (BuildVolumes opts)) runs
    ∧ (runs ≠ [] → firstInvalidVolume (BuildVolumes opts) = None)
    ∧ Forall (tailEvent (GoStrings.Sprintf_ss "werf-stage-build-"
                           (uuid_New_String (world st)).1)
                (BuildStapelStageOpts_Labels opts)) tail.
Proof.
  unfold BuildStapelStage, mountedRoot.
  unfold mbind at 1. unfold M_bind at 1. unfold draw.
  destruct (uuid_New_String (world st)) as [u w0]. cbn [world calls fst].
  set (containerID := GoStrings.Sprintf_ss "werf-stage-build-" u).
  unfold mbind at 1. unfold M_bind at 1. unfold invoke at 1. cbn [world calls].
  destruct (FromCommand containerID baseImage (getBuildahCommonOpts true) w0)
    as [[c [e|]] w1].
  { eexists _, [], [], []. split; [reflexivity|]. split; [reflexivity|].
    split; [by left|]. by repeat split. }
  match goal with
  | |- context [calls st ++ [?e]] => set (evc := e)
  end.
  unfold mbind at 1. unfold M_bind at 1.
  destruct (prepareBlock_trace containerID (PrepareContainerActions opts)
              {| world := w1; calls := calls st ++ [evc] |})
    as (r1 & w2 & new1 & Heq1 & Hprep).
  rewrite Heq1. cbn [world calls] in *.
  destruct r1 as [e1|].
  { exists evc, new1, [], []. split.
    { unfold mret, M_ret. cbn [snd calls]. by rewrite app_nil_r, <- app_assoc. }
    split; [done|]. split; [by right|]. by repeat split. }
  unfold mbind at 1. unfold M_bind at 1.
  destruct (runUserCommands_trace containerID (UserCommands opts) (BuildVolumes opts)
              {| world := w2; calls := (calls st ++ [evc]) ++ new1 |})
    as (out2 & w3 & new2 & Heq2 & Hruns & Hvalid).
  rewrite Heq2. cbn [world calls] in *.
  destruct out2 as [[e2|]|format operands].
  { exists evc, new1, new2, []. split.
    { unfold mret, M_ret. cbn [snd calls]. by rewrite app_nil_r, <- !app_assoc. }
    split; [done|]. split; [by right|]. by repeat split. }
  2:{ exists evc, new1, new2, []. split.
      { cbn [snd calls]. by rewrite app_nil_r, <- !app_assoc. }
      split; [done|]. split; [by right|]. by repeat split. }
  unfold mbind at 1. unfold M_bind at 1. unfold invoke at 1. cbn [world calls].
  match goal with
  | |- context [Config containerID ?o w3] => set (copts := o)
  end.
  destruct (Config containerID copts w3) as [[e3|] w4].
  { exists evc, new1, new2, [{| ev_call := CallConfig containerID copts; ev_err := Some e3 |}].
    split.
    { unfold mret, M_ret. cbn [snd calls]. by rewrite <- !app_assoc. }
    split; [done|]. split; [by right|]. split; [done|]. split; [done|].
    constructor; [by left|constructor]. }
  unfold mbind at 1. unfold M_bind at 1. unfold invoke at 1. cbn [world calls].
  match goal with
  | |- context [Commit containerID ?o w4] => set (mopts := o)
  end.
  destruct (Commit containerID mopts w4) as [[imgID e4] w5].
  exists evc, new1, new2,
    [{| ev_call := CallConfig containerID copts; ev_err := None |};
     {| ev_call := CallCommit containerID mopts; ev_err := e4 |}].
  split.
  { destruct e4; unfold mret, M_ret; cbn [snd calls]; by rewrite <- !app_assoc. }
  split; [done|]. split; [by right|]. split; [done|]. split; [done|].
  constructor; [by left|]. constructor; [by right|constructor].
Qed.

Lemma prepareTrace_events containerID root n prep :
  prepareTrace containerID root n prep →
  ∀ ev, ev ∈ prep →
    ev_call ev = CallMount containerID (getBuildahCommonOpts true)
    ∨ (∃ i, ev_call ev = CallPrepareContainer i root)
    ∨ ev_call ev = CallUmount root (getBuildahCommonOpts true).
Proof.
  intros [[_ ->]|[(_ & e & ->)|(_ & acts & eu & -> & Hacts)]].
  - intros ev Hin. by apply elem_of_nil in Hin.
  - intros ev Hin%list_elem_of_singleton. subst ev. by left.
  - intros ev Hin. apply elem_of_cons in Hin as [->|Hin]; [by left|].
    apply elem_of_app in Hin as [Hin|Hin%list_elem_of_singleton].
    + right. left. rewrite Forall_forall in Hacts. by apply Hacts.
    + subst ev. by right; right.
Qed.

Lemma filter_all {A} (f : A → bool) l :
  (∀ x, x ∈ l → f x = true) → List.filter f l = l.
Proof.
  induction l as [|x l IH]; intros H; simpl; [done|].
  rewrite (H x) by (by left). rewrite IH; [done|]. intros y Hy. apply H. by right.
Qed.

Lemma filter_none {A} (f : A → bool) l :
  (∀ x, x ∈ l → f x = false) → List.filter f l = [].
Proof.
  induction l as [|x l IH]; intros H; simpl; [done|].
  rewrite (H x) by (by left). apply IH. intros y Hy. apply H. by right.
Qed.

(** X5. Every user command of a stapel stage build is run as
    [sh -c <command>] with the engine's log writer attached and with one
    bind mount per entry of [BuildVolumes], in order, whose source is the
    part before the first [:] and whose destination is all that follows. *)
Theorem X5_user_commands_run_with_bind_mounts
        baseImage (opts : BuildStapelStageOpts World) st :
  ∃ new,
    calls (BuildStapelStage baseImage opts st).2 = calls st ++ new
    ∧ ∀ ev container command ropts,
        ev ∈ new → ev_call ev = CallRunCommand container command ropts →
        (∃ cmd, cmd ∈ UserCommands opts ∧ command = ["sh"; "-c"; cmd])
        ∧ LogWriter (RunCommandOpts_CommonOpts ropts) = Some OutStream
        ∧ Forall2 (λ volume m, Type_ m = "bind"
                               ∧ volume = Source m +:+ ":" +:+ Destination m
                               ∧ containsByte ":" (Source m) = false)
                  (BuildVolumes opts) (Mounts ropts).
Proof.
  destruct (BuildStapelStage_trace baseImage opts st)
    as (ec & prep & runs & tail & Hcalls & Hec & Hprep & Hruns & Hvalid & Htail).
  eexists. split; [exact Hcalls|].
  intros ev container command ropts Hin Hcall.
  apply elem_of_cons in Hin as [->|Hin]; [congruence|].
  apply elem_of_app in Hin as [Hin|Hin].
  { destruct Hprep as [->|Hprep]; [by apply elem_of_nil in Hin|].
    destruct (prepareTrace_events _ _ _ _ Hprep ev Hin) as [?|[[i ?]|?]]; congruence. }
  apply elem_of_app in Hin as [Hin|Hin].
  2:{ rewrite Forall_forall in Htail. destruct (Htail ev Hin); congruence. }
  assert (runs ≠ []) as Hne by (intros ->; by apply elem_of_nil in Hin).
  rewrite Forall_forall in Hruns. destruct (Hruns ev Hin) as (cmd & Hcmd & Hev).
  rewrite Hev in Hcall. injection Hcall as <- <- <-.
  split; [by exists cmd|]. split; [done|].
  apply mountsOf_valid. by apply Hvalid.
Qed.

(** X6. All engine calls of one stapel stage build work on one container,
    named [werf-stage-build-] followed by the drawn UUID; all prepare
    actions and the clean-up work on the root directory that [Mount]
    returned for that container; the build makes no other call. *)
Theorem X6_one_container_one_root baseImage (opts : BuildStapelStageOpts World) st :
  ∃ new,
    calls (BuildStapelStage baseImage opts st).2 = calls st ++ new
    ∧ ∀ ev, ev ∈ new →
        containerOf (ev_call ev) = Some ("werf-stage-build-" +:+ (uuid_New_String (world st)).1)
        ∨ rootOf (ev_call ev) = Some (mountedRoot baseImage (world st)).
Proof.
  destruct (BuildStapelStage_trace baseImage opts st)
    as (ec & prep & runs & tail & Hcalls & Hec & Hprep & Hruns & _ & Htail).
  assert (∀ ev, ev ∈ prep →
            ev_call ev = CallMount (GoStrings.Sprintf_ss "werf-stage-build-"
                                      (uuid_New_String (world st)).1)
                           (getBuildahCommonOpts true)
            ∨ (∃ i, ev_call ev = CallPrepareContainer i (mountedRoot baseImage (world st)))
            ∨ ev_call ev = CallUmount (mountedRoot baseImage (world st))
                             (getBuildahCommonOpts true)) as Hevents.
  { destruct Hprep as [->|Hprep]; [|by eapply prepareTrace_events].
    intros ev Hin. by apply elem_of_nil in Hin. }
  eexists. split; [exact Hcalls|].
  intros ev Hin.
  apply elem_of_cons in Hin as [->|Hin]; [left; by rewrite Hec|].
  apply elem_of_app in Hin as [Hin|Hin].
  { destruct (Hevents ev Hin) as [-> |[[i ->]| ->]]; [by left|by right|by right]. }
  apply elem_of_app in Hin as [Hin|Hin].
  - rewrite Forall_forall in Hruns. destruct (Hruns ev Hin) as (cmd & _ & ->). by left.
  - rewrite Forall_forall in Htail. destruct (Htail ev Hin) as [->| ->]; by left.
Qed.

(** X7. The calls of a build on the container's root are none at all (always
    so without prepare actions), or a single failed [Mount], or a
    successful [Mount], then prepare actions on the root directory the
    [Mount] returned and nothing else, then one [Umount] of that
    directory: a mounted root is always unmounted, also after a failing
    action. *)
Theorem X7_mounted_root_is_unmounted baseImage (opts : BuildStapelStageOpts World) st :
  ∃ new,
    calls (BuildStapelStage baseImage opts st).2 = calls st ++ new
    ∧ (PrepareContainerActions opts = [] → List.filter isBlockEvent new = [])
    ∧ (List.filter isBlockEvent new = []
       ∨ (∃ evm, List.filter isBlockEvent new = [evm]
                 ∧ isMount evm = true ∧ is_Some (ev_err evm))
       ∨ (∃ evm acts evu,
            List.filter isBlockEvent new = evm :: acts ++ [evu]
            ∧ isMounted evm = true
            ∧ containerOf (ev_call evm)
              = Some ("werf-stage-build-" +:+ (uuid_New_String (world st)).1)
            ∧ forallb isPrepare acts = true
            ∧ Forall (λ ev, rootOf (ev_call ev) = Some (mountedRoot baseImage (world st))) acts
            ∧ ev_call evu = CallUmount (mountedRoot baseImage (world st))
                              (getBuildahCommonOpts true))).
Proof.
  destruct (BuildStapelStage_trace baseImage opts st)
    as (ec & prep & runs & tail & Hcalls & Hec & Hprep & Hruns & _ & Htail).
  eexists. split; [exact Hcalls|].
  assert (List.filter isBlockEvent (ec :: prep ++ runs ++ tail) = prep) as ->.
  { simpl. unfold isBlockEvent at 1, isMount, isPrepare, isCleanup. rewrite Hec. simpl.
    rewrite !List.filter_app.
    rewrite (filter_none _ runs), (filter_none _ tail), !app_nil_r.
    - apply filter_all. intros ev Hin.
      destruct Hprep as [->|Hprep]; [by apply elem_of_nil in Hin|].
      unfold isBlockEvent, isMount, isPrepare, isCleanup.
      destruct (prepareTrace_events _ _ _ _ Hprep ev Hin) as [-> |[[i ->]| ->]]; done.
    - intros ev Hin. rewrite Forall_forall in Htail.
      unfold isBlockEvent, isMount, isPrepare, isCleanup.
      destruct (Htail ev Hin) as [->| ->]; done.
    - intros ev Hin. rewrite Forall_forall in Hruns.
      unfold isBlockEvent, isMount, isPrepare, isCleanup.
      destruct (Hruns ev Hin) as (cmd & _ & ->). done. }
  destruct Hprep as [->|[[Hn ->]|[(Hn & e & ->)|(Hn & acts & eu & -> & Hacts)]]].
  - split; [done|by left].
  - split; [done|by left].
  - split.
    + intros Hnil. rewrite Hnil in Hn. simpl in Hn. lia.
    + right. left. eexists. split; [done|]. split; [done|by eexists].
  - split.
    + intros Hnil. rewrite Hnil in Hn. simpl in Hn. lia.
    + right. right. eexists _, acts, _. split; [done|]. split; [done|]. split; [done|].
      split; [|split; [|done]].
      * apply forallb_forall. intros ev Hin%list_elem_of_In.
        rewrite Forall_forall in Hacts. destruct (Hacts ev Hin) as [i Hcall].
        unfold isPrepare. by rewrite Hcall.
      * eapply Forall_impl; [exact Hacts|]. intros ev [i ->]. done.
Qed.

End WithEngine.

Example failing_action_is_cleaned_up :
  stepsOf (calls (BuildStapelStage "alpine:3.12" fakeFailingPrepareOpts (fakeStart fakeOK)).2)
  = [CreateContainer "alpine:3.12"; MountRoot; PrepareAction 0; PrepareAction 1; UmountRoot].
Proof. reflexivity. Qed.

Lemma X5_witness :
  ∃ ev ropts,
    calls (BuildStapelStage "alpine:3.12" (fakeOpts ["make"] ["/src:/app:ro"])
                            (fakeStart fakeOK)).2 !! 4 = Some ev
    ∧ ev_call ev = CallRunCommand "werf-stage-build-b7e1f0c2" ["sh"; "-c"; "make"] ropts
    ∧ Forall2 (λ volume m, Type_ m = "bind"
                           ∧ volume = Source m +:+ ":" +:+ Destination m
                           ∧ containsByte ":" (Source m) = false)
              ["/src:/app:ro"] (Mounts ropts).
Proof.
  destruct (X5_user_commands_run_with_bind_mounts "alpine:3.12"
              (fakeOpts ["make"] ["/src:/app:ro"]) (fakeStart fakeOK)) as (new & Hcalls & Hruns).
  vm_compute in Hcalls. subst new.
  set (ropts := {| RunCommandOpts_CommonOpts := {| LogWriter := Some OutStream |};
                   Mounts := [{| Type_ := "bind"; Source := "/src";
                                 Destination := "/app:ro" |}] |}).
  set (ev := {| ev_call := CallRunCommand "werf-stage-build-b7e1f0c2" ["sh"; "-c"; "make"]
                             ropts;
                ev_err := None |}).
  exists ev, ropts. split; [reflexivity|]. split; [reflexivity|].
  refine (proj2 (proj2 (Hruns ev _ _ ropts _ eq_refl))).
  do 4 apply list_elem_of_further. apply list_elem_of_here.
Defined.

Example mountedRoot_fake :
  mountedRoot "alpine:3.12" fakeOK = "/var/lib/containers/werf-stage-build-b7e1f0c2".
Proof. reflexivity. Qed.

Lemma X6_witness :
  ∃ new,
    calls (BuildStapelStage "alpine:3.12" fakeFailingPrepareOpts (fakeStart fakeOK)).2 = new
    ∧ length new = 5
    ∧ ∀ ev, ev ∈ new →
        containerOf (ev_call ev) = Some "werf-stage-build-b7e1f0c2"
        ∨ rootOf (ev_call ev) = Some "/var/lib/containers/werf-stage-build-b7e1f0c2".
Proof.
  destruct (X6_one_container_one_root "alpine:3.12" fakeFailingPrepareOpts (fakeStart fakeOK))
    as (new & Hcalls & Hone).
  exists new. split; [exact Hcalls|]. split; [|exact Hone].
  change (calls (BuildStapelStage "alpine:3.12" fakeFailingPrepareOpts (fakeStart fakeOK)).2
          = new) in Hcalls.
  rewrite <- Hcalls. reflexivity.
Defined.

Lemma X7_witness :
  ∃ evu,
    last (List.filter isBlockEvent
            (calls (BuildStapelStage "alpine:3.12" fakeFailingPrepareOpts
                                     (fakeStart fakeOK)).2)) = Some evu
    ∧ ev_call evu = CallUmount "/var/lib/containers/werf-stage-build-b7e1f0c2"
                      {| LogWriter := None |}.
Proof.
  destruct (X7_mounted_root_is_unmounted "alpine:3.12" fakeFailingPrepareOpts
              (fakeStart fakeOK)) as (new & Hcalls & _ & Hcases).
  change (calls (BuildStapelStage "alpine:3.12" fakeFailingPrepareOpts (fakeStart fakeOK)).2
          = new) in Hcalls.
  rewrite Hcalls.
  destruct Hcases as [Hnone|[(evm & Hone & _)
                            |(evm & acts & evu & Hblock & _ & _ & _ & _ & Hu)]].
  - rewrite <- Hcalls in Hnone. vm_compute in Hnone. discriminate Hnone.
  - rewrite <- Hcalls in Hone. vm_compute in Hone. discriminate Hone.
  - exists evu. split; [|exact Hu].
    rewrite Hblock. change (evm :: acts ++ [evu]) with ((evm :: acts) ++ [evu]).
    apply last_snoc.
Defined.

End BackendMoreFacts.

(** ** The image operations *)

Module ImageFacts.
Import ContainerBackend ImageBackend ImageSpec.

Section WithEngine.

Context {World : Type} {engine : Buildah World} {registry : BuildahImages World}.
Context {Img : Type} {object : LegacyImage.LegacyImageInterface Img}.

Variable parse : string → string * string.

Lemma liftM_GetImageInfo ref (st : @IState World) inspect ierr w' :
  Inspect ref (iworld st) = ((inspect, ierr), w') →
  ∃ info,
    liftM (GetImageInfo parse ref) st
    = (Return (info, inspectError ref <$> ierr),
       {| iworld := w'; icalls := icalls st ++ [inspectEvent ref ierr] |})
    ∧ (is_Some ierr → info = None)
    ∧ (ierr = None → (info = None ↔ inspect = None)).
Proof.
  intros Hinspect. unfold liftM, GetImageInfo, mbind, M_bind, invoke. cbn [world calls].
  rewrite Hinspect. destruct ierr as [e|]; [|destruct inspect as [i|]].
  - exists None. split; [done|]. split; [done|]. intros Hd. discriminate Hd.
  - destruct (parse ref) as [repository tag]. eexists. split; [reflexivity|].
    split; [by intros [? Hd]|]. intros _. split; intros Hd; discriminate Hd.
  - exists None. split; [done|]. split; done.
Qed.

(** X8. [RefreshImageObject] inspects the image under the name of the
    object, once. An inspect error is returned as [GetImageInfo] wraps it
    and the object is left alone; otherwise the info is set, to [nil]
    exactly when the image was not found, and no error is returned. *)
Theorem X8_RefreshImageObject_results (img : Img) (st : @IState World) inspect ierr w' :
  Inspect (LegacyImage.Name img) (iworld st) = ((inspect, ierr), w') →
  ∃ r img',
    RefreshImageObject parse img st
    = (Return (r, img'),
       {| iworld := w';
          icalls := icalls st ++ [inspectEvent (LegacyImage.Name img) ierr] |})
    ∧ (∀ e, ierr = Some e →
            r = Some (inspectError (LegacyImage.Name img) e) ∧ img' = img)
    ∧ (ierr = None →
       r = None
       ∧ ∃ info, img' = LegacyImage.SetInfo info img ∧ (info = None ↔ inspect = None)).
Proof.
  intros Hinspect. unfold RefreshImageObject, mbind, IM_bind.
  destruct (liftM_GetImageInfo (LegacyImage.Name img) st _ _ _ Hinspect)
    as (info & -> & Herr & Hok).
  destruct ierr as [e|]; simpl.
  - eexists _, _. split; [reflexivity|]. split; [|done]. by intros e' [= <-].
  - eexists _, _. split; [reflexivity|]. split; [done|]. intros _. split; [done|].
    exists info. split; [done|]. by apply Hok.
Qed.

(** X9. [PullImageFromRegistry] pulls and then inspects, both under the
    name of the object. After a failed pull nothing is inspected; the
    object is changed only when both calls succeed, and each error comes
    back wrapped with the step that failed. *)
Theorem X9_PullImageFromRegistry_cases (img : Img) (st : @IState World) :
  ∃ r img' w' new,
    PullImageFromRegistry parse img st
    = (Return (r, img'), {| iworld := w'; icalls := icalls st ++ new |})
    ∧ ((∃ e, new = [pullEvent (LegacyImage.Name img) (Some e)]
             ∧ r = Some (Errorf "unable to pull image %s: %w" [LegacyImage.Name img] e)
             ∧ img' = img)
       ∨ (∃ e, new = [pullEvent (LegacyImage.Name img) None;
                      inspectEvent (LegacyImage.Name img) (Some e)]
               ∧ r = Some (Errorf "unable to get inspect of image %s: %w"
                                  [LegacyImage.Name img]
                                  (inspectError (LegacyImage.Name img) e))
               ∧ img' = img)
       ∨ (∃ info, new = [pullEvent (LegacyImage.Name img) None;
                         inspectEvent (LegacyImage.Name img) None]
                  ∧ r = None
                  ∧ img' = LegacyImage.SetInfo info img)).
Proof.
  unfold PullImageFromRegistry, Pull. unfold mbind at 1. unfold IM_bind at 1. unfold invokeI.
  destruct (buildah_Pull (LegacyImage.Name img) _ (iworld st)) as [[e|] w1].
  - eexists _, _, _, [_]. split; [reflexivity|]. left. by exists e.
  - unfold mbind, IM_bind.
    destruct (Inspect (LegacyImage.Name img) w1) as [[inspect ierr] w2] eqn:Hinspect.
    destruct (liftM_GetImageInfo (LegacyImage.Name img)
                {| iworld := w1;
                   icalls := icalls st ++ [pullEvent (LegacyImage.Name img) None] |}
                inspect ierr w2 Hinspect) as (info & Hlift & _ & _).
    unfold pullEvent in Hlift. cbn [id]. rewrite Hlift. cbn [icalls].
    destruct ierr as [e|]; simpl.
    + eexists _, _, _, [_; _]. split; [by rewrite <- app_assoc|]. right. left. by exists e.
    + eexists _, _, _, [_; _]. split; [by rewrite <- app_assoc|]. right. right. by exists info.
Qed.

(** The ways [RenameImage] ends. *)
Lemma RenameImage_cases (img : Img) newImageName removeOldName (st : @IState World) :
  ∃ out w' new,
    RenameImage parse img newImageName removeOldName st
    = (out, {| iworld := w'; icalls := icalls st ++ new |})
    ∧ ((∃ e, new = [tagEvent (LegacyImage.Name img) newImageName (Some e)]
             ∧ out = Return (Some (Errorf "unable to tag image %s by name %s: %w"
                                          [LegacyImage.Name img; newImageName] e), img))
       ∨ (∃ e, removeOldName = true
               ∧ new = [tagEvent (LegacyImage.Name img) newImageName None;
                        rmiEvent (LegacyImage.Name img) (Some e)]
               ∧ out = Return (Some (Errorf "unable to remove image %q: %w"
                                            [LegacyImage.Name img] e), img))
       ∨ (∃ e, new = tagEvent (LegacyImage.Name img) newImageName None
                     :: (if removeOldName then [rmiEvent (LegacyImage.Name img) None] else [])
                     ++ [inspectEvent
                           (LegacyImage.Name (LegacyImage.SetName newImageName img)) (Some e)]
               ∧ out = Return (Some (inspectError
                                       (LegacyImage.Name
                                          (LegacyImage.SetName newImageName img)) e),
                               LegacyImage.SetName newImageName img))
       ∨ (∃ info, new = renameCalls img newImageName removeOldName
                  ∧ match LegacyImage.GetStageDescription
                            (LegacyImage.SetInfo info
                               (LegacyImage.SetName newImageName img)) with
                    | Some {| LegacyImage.Info := Some descInfo |} =>
                        out = Return
                                (None,
                                 LegacyImage.StoreStageDescriptionInfo
                                   (withTag (parse newImageName).2
                                      (withRepository (parse newImageName).1 descInfo))
                                   (LegacyImage.StoreStageDescriptionInfo
                                      (withRepository (parse newImageName).1 descInfo)
                                      (LegacyImage.SetInfo info
                                         (LegacyImage.SetName newImageName img))))
                    | _ => out = Panic "invalid memory address or nil pointer dereference" []
                    end)).
Proof.
  unfold RenameImage, renameCalls.
  unfold mbind at 1. unfold IM_bind at 1.
  unfold tagImage, Tag. unfold mbind at 1. unfold IM_bind at 1. unfold invokeI at 1.
  destruct (buildah_Tag (LegacyImage.Name img) newImageName _ (iworld st)) as [[e|] w1].
  { eexists _, _, [_]. split; [reflexivity|]. left. by exists e. }
  unfold mret at 1. unfold IM_ret at 1. cbn [id].
  unfold mbind at 1. unfold IM_bind at 1.
  assert (∃ r w2 rm,
            (if removeOldName then removeImageTag img else mret None)
              {| iworld := w1;
                 icalls := icalls st ++ [tagEvent (LegacyImage.Name img) newImageName None] |}
            = (Return r,
               {| iworld := w2;
                  icalls := (icalls st
                             ++ [tagEvent (LegacyImage.Name img) newImageName None]) ++ rm |})
            ∧ ((∃ e, removeOldName = true
                     ∧ rm = [rmiEvent (LegacyImage.Name img) (Some e)]
                     ∧ r = Some (Errorf "unable to remove image %q: %w"
                                        [LegacyImage.Name img] e))
               ∨ (r = None
                  ∧ rm = if removeOldName then [rmiEvent (LegacyImage.Name img) None]
                         else [])))
    as (r & w2 & rm & Hrm & Hcases).
  { destruct removeOldName.
    - unfold removeImageTag, Rmi, mbind, IM_bind, invokeI. cbn [iworld icalls].
      destruct (buildah_Rmi (LegacyImage.Name img) _ w1) as [[e|] w2].
      + eexists _, _, [_]. split; [reflexivity|]. left. by exists e.
      + eexists _, _, [_]. split; [reflexivity|]. by right.
    - eexists None, w1, []. split; [|by right].
      unfold mret, IM_ret. by rewrite app_nil_r. }
  unfold tagEvent in Hrm at 1. rewrite Hrm. clear Hrm.
  destruct Hcases as [(e & -> & -> & ->)|[-> ->]].
  { eexists _, _, [_; _]. split; [unfold mret, IM_ret; by rewrite <- app_assoc|].
    right. left. by exists e. }
  unfold mbind at 1. unfold IM_bind at 1.
  set (img1 := LegacyImage.SetName newImageName img).
  set (rm := if removeOldName then [rmiEvent (LegacyImage.Name img) None] else []).
  destruct (Inspect (LegacyImage.Name img1) w2) as [[inspect ierr] w3] eqn:Hinspect.
  destruct (liftM_GetImageInfo (LegacyImage.Name img1)
              {| iworld := w2;
                 icalls := (icalls st
                            ++ [tagEvent (LegacyImage.Name img) newImageName None]) ++ rm |}
              inspect ierr w3 Hinspect) as (info & Hlift & _ & _).
  rewrite Hlift. cbn [icalls].
  destruct ierr as [e|]; simpl fmap; cbv iota.
  { eexists _, _, (_ :: rm ++ [_]). split.
    { unfold mret, IM_ret. by rewrite <- !app_assoc. }
    right. right. left. by exists e. }
  destruct (parse newImageName) as [repository tag]. cbn [fst snd].
  destruct (LegacyImage.GetStageDescription (LegacyImage.SetInfo info img1))
    as [[[descInfo|]]|] eqn:Hdesc.
  all: eexists _, _, (_ :: rm ++ [_]); split;
    [ cbn [fmap option_fmap option_map LegacyImage.Info];
      unfold mret, IM_ret, ipanic; rewrite <- !app_assoc; reflexivity
    | right; right; right; exists info; split; [reflexivity|rewrite Hdesc; reflexivity] ].
Qed.

(** X10. [RenameImage] tags the image by the new name, then removes the
    old tag if asked for, then inspects the image under the name the
    object reports after [SetName]; it stops at the first call that
    fails. The old tag is therefore removed only after the new one was
    made, and never when [removeOldName] is false. *)
Theorem X10_RenameImage_calls (img : Img) newImageName removeOldName (st : @IState World) :
  ∃ new,
    icalls (RenameImage parse img newImageName removeOldName st).2 = icalls st ++ new
    ∧ (new = renameCalls img newImageName removeOldName
       ∨ ∃ pre ev post e,
           renameCalls img newImageName removeOldName = pre ++ ev :: post
           ∧ new = pre ++ [{| iev_call := iev_call ev; iev_err := Some e |}])
    ∧ (removeOldName = false → List.filter isRmi new = []).
Proof.
  destruct (RenameImage_cases img newImageName removeOldName st)
    as (out & w' & new & -> & Hcases).
  exists new. split; [done|]. unfold renameCalls.
  destruct Hcases as [(e & -> & _)|[(e & -> & -> & _)|[(e & -> & _)|(info & -> & _)]]].
  - split; [|done]. right.
    by eexists [], (tagEvent (LegacyImage.Name img) newImageName None), _, e.
  - split; [|done]. right.
    by eexists [tagEvent (LegacyImage.Name img) newImageName None],
               (rmiEvent (LegacyImage.Name img) None), _, e.
  - split; [|by intros ->]. right.
    exists (tagEvent (LegacyImage.Name img) newImageName None
            :: (if removeOldName then [rmiEvent (LegacyImage.Name img) None] else [])),
      (inspectEvent (LegacyImage.Name (LegacyImage.SetName newImageName img)) None), [], e.
    done.
  - split; [by left|by intros ->].
Qed.

(** X11. When [RenameImage] returns an error the image object is as it
    was, unless the failing call is the inspect: then the object already
    has the new name but not the new info. It returns no error only for an
    object whose stage description and info are set, and then has stored
    the repository and the tag of the new name through them. *)
Theorem X11_RenameImage_object
        (img : Img) newImageName removeOldName (st : @IState World) r img' :
  (RenameImage parse img newImageName removeOldName st).1 = Return (r, img') →
  ∃ new,
    icalls (RenameImage parse img newImageName removeOldName st).2 = icalls st ++ new
    ∧ (∀ e, r = Some e →
         (img' = img
          ∧ ∀ ev ref, ev ∈ new → iev_call ev ≠ BackendCall (CallInspect ref))
         ∨ (img' = LegacyImage.SetName newImageName img
            ∧ ∃ pre e0,
                new = pre ++ [inspectEvent (LegacyImage.Name img') (Some e0)]
                ∧ e = inspectError (LegacyImage.Name img') e0))
    ∧ (r = None →
       new = renameCalls img newImageName removeOldName
       ∧ ∃ info descInfo,
           LegacyImage.GetStageDescription
             (LegacyImage.SetInfo info (LegacyImage.SetName newImageName img))
           = Some {| LegacyImage.Info := Some descInfo |}
           ∧ img' = LegacyImage.StoreStageDescriptionInfo
                      (withTag (parse newImageName).2
                         (withRepository (parse newImageName).1 descInfo))
                      (LegacyImage.StoreStageDescriptionInfo
                         (withRepository (parse newImageName).1 descInfo)
                         (LegacyImage.SetInfo info
                            (LegacyImage.SetName newImageName img)))).
Proof.
  destruct (RenameImage_cases img newImageName removeOldName st)
    as (out & w' & new & -> & Hcases).
  cbn [fst snd icalls]. intros ->. exists new. split; [done|].
  destruct Hcases as [(e & -> & Hout)|[(e & _ & -> & Hout)|[(e & -> & Hout)|(info & -> & Hout)]]].
  - injection Hout as -> ->. split; [|done]. intros e' _. left. split; [done|].
    intros ev ref Hin%list_elem_of_singleton. by subst ev.
  - injection Hout as -> ->. split; [|done]. intros e' _. left. split; [done|].
    intros ev ref Hin. apply elem_of_cons in Hin as [->|Hin%list_elem_of_singleton]; [done|].
    by subst ev.
  - injection Hout as -> ->. split; [|done]. intros e' [= <-]. right. split; [done|].
    by eexists (_ :: _), e.
  - destruct (LegacyImage.GetStageDescription _) as [[[descInfo|]]|] eqn:Hdesc; try done.
    injection Hout as -> ->. split; [done|]. intros _. split; [done|].
    by exists info, descInfo.
Qed.

(** X12. [RenameImage] panics only after the image has been tagged by
    the new name, the old tag removed if asked for, and the image
    inspected, all with success, and only when the stage description of
    the object, or the info in it, is nil. For an object whose stage
    description is nil once it carries the new name and the info, the
    rename never returns without an error, and it panics whenever those
    calls have all succeeded. *)
Theorem X12_RenameImage_nil_stage_description
        (img : Img) newImageName removeOldName (st : @IState World) :
  (∀ format operands,
     (RenameImage parse img newImageName removeOldName st).1 = Panic format operands →
     icalls (RenameImage parse img newImageName removeOldName st).2
     = icalls st ++ renameCalls img newImageName removeOldName
     ∧ ∃ info,
         LegacyImage.GetStageDescription
           (LegacyImage.SetInfo info (LegacyImage.SetName newImageName img)) = None
         ∨ LegacyImage.GetStageDescription
             (LegacyImage.SetInfo info (LegacyImage.SetName newImageName img))
           = Some {| LegacyImage.Info := None |})
  ∧ ((∀ info, LegacyImage.GetStageDescription
                (LegacyImage.SetInfo info (LegacyImage.SetName newImageName img)) = None) →
     (∀ img', (RenameImage parse img newImageName removeOldName st).1 ≠ Return (None, img'))
     ∧ (icalls (RenameImage parse img newImageName removeOldName st).2
        = icalls st ++ renameCalls img newImageName removeOldName →
        (RenameImage parse img newImageName removeOldName st).1
        = Panic "invalid memory address or nil pointer dereference" [])).
Proof.
  destruct (RenameImage_cases img newImageName removeOldName st)
    as (out & w' & new & -> & Hcases).
  cbn [fst snd icalls]. unfold renameCalls.
  destruct Hcases as [(e & -> & ->)|[(e & -> & -> & ->)|[(e & -> & ->)|(info & -> & Hout)]]].
  - split; [intros format operands Hp; discriminate Hp|]. intros _.
    split; [intros img' Hr; discriminate Hr|].
    intros Heq%app_inv_head. discriminate Heq.
  - split; [intros format operands Hp; discriminate Hp|]. intros _.
    split; [intros img' Hr; discriminate Hr|].
    intros Heq%app_inv_head. discriminate Heq.
  - split; [intros format operands Hp; discriminate Hp|]. intros _.
    split; [intros img' Hr; discriminate Hr|].
    intros Heq%app_inv_head. injection Heq as Heq.
    apply app_inv_head in Heq. discriminate Heq.
  - split.
    + intros format operands ->. split; [done|]. exists info.
      destruct (LegacyImage.GetStageDescription _) as [[[descInfo|]]|];
        [done|by right|by left].
    + intros Hnil. rewrite Hnil in Hout. subst out. done.
Qed.

End WithEngine.

Lemma X8_witness :
  ∃ img',
    (RefreshImageObject BackendSpec.fakeParse fakeStageImage (fakeStoreStart [])).1
    = Return (None, img')
    ∧ ∃ info, img' = LegacyImage.SetInfo info fakeStageImage ∧ info = None.
Proof.
  assert (Inspect (LegacyImage.Name fakeStageImage) (iworld (fakeStoreStart []))
          = ((None, None), {| images := [] |})) as Hinspect by reflexivity.
  destruct (X8_RefreshImageObject_results BackendSpec.fakeParse fakeStageImage
              (fakeStoreStart []) None None _ Hinspect) as (r & img' & Heq & _ & Hok).
  destruct (Hok eq_refl) as (-> & info & -> & Hinfo).
  eexists. rewrite Heq. split; [reflexivity|]. exists info. split; [reflexivity|].
  apply Hinfo. reflexivity.
Defined.

Lemma X11_witness :
  ∃ new,
    icalls (RenameImage BackendSpec.fakeParse fakeStageImage "repo:final" true
                        (fakeStoreStart [])).2 = [] ++ new
    ∧ (∀ ev ref, ev ∈ new → iev_call ev ≠ BackendCall (CallInspect ref)).
Proof.
  assert ((RenameImage BackendSpec.fakeParse fakeStageImage "repo:final" true
                       (fakeStoreStart [])).1
          = Return (Some (Errorf "unable to tag image %s by name %s: %w"
                                 ["repo:stage"; "repo:final"]
                                 (ExternalError "image not known")),
                    fakeStageImage)) as Hrun by reflexivity.
  destruct (X11_RenameImage_object BackendSpec.fakeParse fakeStageImage "repo:final" true
              (fakeStoreStart []) _ _ Hrun) as (new & Hcalls & Herr & _).
  exists new. split; [exact Hcalls|].
  destruct (Herr _ eq_refl) as [[_ Hno]|[Hname _]]; [exact Hno|discriminate Hname].
Defined.

Lemma X12_witness :
  icalls (RenameImage BackendSpec.fakeParse fakeStageImage "repo:final" true
                      (fakeStoreStart ["repo:stage"])).2
  = [tagEvent "repo:stage" "repo:final" None; rmiEvent "repo:stage" None;
     inspectEvent "repo:final" None]
  ∧ (RenameImage BackendSpec.fakeParse fakeStageImage "repo:final" true
                 (fakeStoreStart ["repo:stage"])).1
    = Panic "invalid memory address or nil pointer dereference" []
  ∧ (RenameImage BackendSpec.fakeParse fakeStageImage "repo:final" true
                 (fakeStoreStart [])).1
    ≠ Return (None, fakeStageImage).
Proof.
  assert ((RenameImage BackendSpec.fakeParse fakeStageImage "repo:final" true
                       (fakeStoreStart ["repo:stage"])).1
          = Panic "invalid memory address or nil pointer dereference" []) as Hrun
      by reflexivity.
  assert (∀ info, LegacyImage.GetStageDescription
                    (LegacyImage.SetInfo info (LegacyImage.SetName "repo:final" fakeStageImage))
                  = None) as Hnil by reflexivity.
  pose proof (proj1 (proj1 (X12_RenameImage_nil_stage_description BackendSpec.fakeParse
                              fakeStageImage "repo:final" true
                              (fakeStoreStart ["repo:stage"]))
                       _ _ Hrun)) as Hcalls.
  split; [exact Hcalls|]. split.
  - exact (proj2 (proj2 (X12_RenameImage_nil_stage_description BackendSpec.fakeParse
                           fakeStageImage "repo:final" true
                           (fakeStoreStart ["repo:stage"])) Hnil) Hcalls).
  - exact (proj1 (proj2 (X12_RenameImage_nil_stage_description BackendSpec.fakeParse
                           fakeStageImage "repo:final" true (fakeStoreStart [])) Hnil)
             fakeStageImage).
Defined.

End ImageFacts.

(** ** The helm action configuration *)

Module HelmFacts.
Import GoStrings GoStringsSplit Helm HelmSpec.

Lemma genSplit_loop_nonempty n s sep : genSplit_loop n s sep ≠ [].
Proof. destruct n; simpl; [done|]. by destruct (Index s sep). Qed.

Lemma Split_nonempty s sep : length (Split s sep) ≠ 0.
Proof.
  unfold Split. pose proof (genSplit_loop_nonempty
                              (Nat.min (Count s sep + 1) (len s + 1) - 1) s sep) as Hne.
  destruct (genSplit_loop _ s sep); [done|]. simpl. lia.
Qed.

Lemma Count_loop_ge turns s substr (n : nat) : (n ≤ Count_loop turns s substr n)%nat.
Proof.
  revert s n. induction turns as [|turns IH]; intros s n; simpl; [lia|].
  destruct (Index s substr); [|lia].
  etrans; [|apply IH]. lia.
Qed.

(** [Split] at [:] starts with the part before the first [:]. *)
Lemma Split_head s : ∃ rest, Split s ":" = firstDataFile s :: rest.
Proof.
  unfold Split, firstDataFile.
  pose proof (SplitFacts.Index_byte ":" s) as Hindex.
  destruct (BackendSpec.cut ":" s) as [[k v]|] eqn:Hcut.
  - apply SplitFacts.cut_Some in Hcut as [Heq _]. simpl in Hindex.
    assert (1 ≤ Count s ":")%nat as Hcount.
    { unfold Count. destruct s as [|a s']; [by destruct k|].
      change (len (String a s')) with (S (len s')). cbn [Count_loop].
      rewrite Hindex. apply Count_loop_ge. }
    assert (1 ≤ len s)%nat as Hlen.
    { destruct s as [|a s']; [by destruct k|]. unfold len. simpl. lia. }
    destruct (Nat.min (Count s ":" + 1) (len s + 1) - 1) as [|m] eqn:Hm; [lia|].
    cbn [genSplit_loop]. rewrite Hindex. eexists. f_equal.
    rewrite Heq at 1. apply SplitFacts.take_app_length.
  - simpl in Hindex. exists [].
    destruct (Nat.min (Count s ":" + 1) (len s + 1) - 1); cbn [genSplit_loop]; [done|].
    by rewrite Hindex.
Qed.

Section WithCollaborators.

Context {Release Memory RegistryClient : Type}.

Variable Getenv : string → string.
Variable ReadFile : string → string * option error.
Variable yaml_Unmarshal : string → list Release * option error.
Variable store_Create : Release → Memory → option error * Memory.
Variable mem_SetNamespace : string → Memory → Memory.
Variable envSettings_Namespace : EnvSettings → string.
Variable actionConfig_Init :
  EnvSettings → string → string → Configuration Memory RegistryClient →
  option error * Configuration Memory RegistryClient.
Variable NewRegistryClient : option RegistryClient * option error.
Variable time_Now : Z.

(** What [loadReleasesInMemory] does by the driver of the release store. *)
Lemma loadReleasesInMemory_cases envSettings (actionConfig : Configuration Memory RegistryClient) :
  match Releases_Driver actionConfig with
  | OtherDriver =>
      loadReleasesInMemory Getenv ReadFile yaml_Unmarshal store_Create mem_SetNamespace
        envSettings_Namespace envSettings actionConfig = Returned actionConfig
  | MemoryDriver mem =>
      (∃ msg err,
         loadReleasesInMemory Getenv ReadFile yaml_Unmarshal store_Create mem_SetNamespace
           envSettings_Namespace envSettings actionConfig = Fatal msg err)
      ∨ (∃ mem',
           loadReleasesInMemory Getenv ReadFile yaml_Unmarshal store_Create mem_SetNamespace
             envSettings_Namespace envSettings actionConfig
           = Returned {| Releases_Driver :=
                           MemoryDriver (mem_SetNamespace (envSettings_Namespace envSettings)
                                                          mem');
                         Configuration_KubeClient := PrintingKubeClient;
                         RegistryClient_ := RegistryClient_ actionConfig |})
  end.
Proof.
  unfold loadReleasesInMemory.
  rewrite bool_decide_eq_false_2 by apply Split_nonempty.
  destruct (Releases_Driver actionConfig) as [mem|]; [|done].
  assert (∀ rels m, (∃ msg err, createReleases store_Create rels m = Fatal msg err)
                    ∨ ∃ m', createReleases store_Create rels m = Returned m') as Hcreate.
  { induction rels as [|rel rels IH]; intros m; simpl; [right; by eexists|].
    destruct (store_Create rel m) as [[e|] m1]; [left; by eexists _, _|apply IH]. }
  assert (∀ paths m,
            (∃ msg err, loadFiles ReadFile yaml_Unmarshal store_Create paths m = Fatal msg err)
            ∨ ∃ m', loadFiles ReadFile yaml_Unmarshal store_Create paths m = Returned m')
    as Hload.
  { induction paths as [|path paths IH]; intros m; simpl; [right; by eexists|].
    destruct (ReadFile path) as [b [e|]]; [left; by eexists _, _|].
    destruct (yaml_Unmarshal b) as [rels [e|]]; [left; by eexists _, _|].
    destruct (Hcreate rels m) as [(msg & err & ->)|[m' ->]]; [left; by eexists _, _|].
    apply IH. }
  destruct (Hload (Split (Getenv "HELM_MEMORY_DRIVER_DATA") ":") mem)
    as [(msg & err & ->)|[m' ->]].
  - left. by eexists _, _.
  - right. by exists m'.
Qed.

(** X13. However [InitActionConfig] ends, it leaves [envSettings] with
    the given namespace and with [MaxHistory] equal to
    [opts.ReleasesHistoryMax] (zero included), and replaces the kube
    context and the kube config path only by non-empty values. *)
Theorem X13_InitActionConfig_settings
        namespace envSettings (actionConfig : Configuration Memory RegistryClient) opts :
  namespaceP (InitActionConfig Getenv ReadFile yaml_Unmarshal store_Create mem_SetNamespace
       envSettings_Namespace actionConfig_Init NewRegistryClient time_Now
       namespace envSettings actionConfig opts).1 = namespace
  ∧ MaxHistory (InitActionConfig Getenv ReadFile yaml_Unmarshal store_Create mem_SetNamespace
       envSettings_Namespace actionConfig_Init NewRegistryClient time_Now
       namespace envSettings actionConfig opts).1 = ReleasesHistoryMax opts
  ∧ (KubeConfigOptions_Context (InitActionConfigOptions_KubeConfigOptions opts) ≠ "" →
     KubeContext (InitActionConfig Getenv ReadFile yaml_Unmarshal store_Create mem_SetNamespace
       envSettings_Namespace actionConfig_Init NewRegistryClient time_Now
       namespace envSettings actionConfig opts).1
     = KubeConfigOptions_Context (InitActionConfigOptions_KubeConfigOptions opts))
  ∧ (KubeConfigOptions_Context (InitActionConfigOptions_KubeConfigOptions opts) = "" →
     KubeContext (InitActionConfig Getenv ReadFile yaml_Unmarshal store_Create mem_SetNamespace
       envSettings_Namespace actionConfig_Init NewRegistryClient time_Now
       namespace envSettings actionConfig opts).1 = KubeContext envSettings)
  ∧ (KubeConfigOptions_ConfigPath (InitActionConfigOptions_KubeConfigOptions opts) ≠ "" →
     KubeConfig (InitActionConfig Getenv ReadFile yaml_Unmarshal store_Create mem_SetNamespace
       envSettings_Namespace actionConfig_Init NewRegistryClient time_Now
       namespace envSettings actionConfig opts).1
     = KubeConfigOptions_ConfigPath (InitActionConfigOptions_KubeConfigOptions opts))
  ∧ (KubeConfigOptions_ConfigPath (InitActionConfigOptions_KubeConfigOptions opts) = "" →
     KubeConfig (InitActionConfig Getenv ReadFile yaml_Unmarshal store_Create mem_SetNamespace
       envSettings_Namespace actionConfig_Init NewRegistryClient time_Now
       namespace envSettings actionConfig opts).1 = KubeConfig envSettings).
Proof.
  unfold InitActionConfig, initEnvSettings. cbn [fst].
  repeat case_bool_decide; cbn; repeat split; try done; try congruence.
Qed.

(** X14. With [HELM_DRIVER=memory] and a release store that is a memory
    driver after [actionConfig.Init], [InitActionConfig] never returns:
    it ends the process while loading the release files, or, when they
    are loaded, panics on the kube client, which is then the printing one
    and not a [*helm_kube.Client]. *)
Theorem X14_memory_driver_never_returns
        namespace envSettings (actionConfig : Configuration Memory RegistryClient) opts
        actionConfig1 mem :
  Getenv "HELM_DRIVER" = "memory" →
  actionConfig_Init (initEnvSettings namespace envSettings opts)
    (envSettings_Namespace (initEnvSettings namespace envSettings opts)) "memory" actionConfig
  = (None, actionConfig1) →
  Releases_Driver actionConfig1 = MemoryDriver mem →
  (∃ msg err, (InitActionConfig Getenv ReadFile yaml_Unmarshal store_Create mem_SetNamespace
       envSettings_Namespace actionConfig_Init NewRegistryClient time_Now
       namespace envSettings actionConfig opts).2 = Fatal msg err)
  ∨ (InitActionConfig Getenv ReadFile yaml_Unmarshal store_Create mem_SetNamespace
       envSettings_Namespace actionConfig_Init NewRegistryClient time_Now
       namespace envSettings actionConfig opts).2 = Panicked "interface conversion: interface is not *kube.Client".
Proof.
  intros Hdriver Hinit Hmem. unfold InitActionConfig. cbn [snd].
  rewrite Hdriver, Hinit. rewrite bool_decide_eq_true_2 by done.
  pose proof (loadReleasesInMemory_cases (initEnvSettings namespace envSettings opts) actionConfig1) as Hload.
  rewrite Hmem in Hload. destruct Hload as [(msg & err & ->)|[mem' ->]].
  - left. by eexists _, _.
  - by right.
Qed.

(** X15. [InitActionConfig] returns without error exactly when
    [actionConfig.Init] succeeds, no release files are to be loaded into a
    memory driver, the kube client is a [*helm_kube.Client] and the
    registry client can be made; the configuration then has the new
    resources waiter, with the two periods of the options, and the
    registry client. *)
Theorem X15_InitActionConfig_success
        namespace envSettings (actionConfig : Configuration Memory RegistryClient) opts actionConfig' :
  (InitActionConfig Getenv ReadFile yaml_Unmarshal store_Create mem_SetNamespace
       envSettings_Namespace actionConfig_Init NewRegistryClient time_Now
       namespace envSettings actionConfig opts).2 = Returned (None, actionConfig')
  ↔ ∃ actionConfig1 waiter registryClient,
      actionConfig_Init (initEnvSettings namespace envSettings opts)
        (envSettings_Namespace (initEnvSettings namespace envSettings opts))
        (Getenv "HELM_DRIVER") actionConfig
      = (None, actionConfig1)
      ∧ (Getenv "HELM_DRIVER" ≠ "memory" ∨ Releases_Driver actionConfig1 = OtherDriver)
      ∧ Configuration_KubeClient actionConfig1 = HelmKubeClient waiter
      ∧ NewRegistryClient = (registryClient, None)
      ∧ actionConfig'
        = {| Releases_Driver := Releases_Driver actionConfig1;
             Configuration_KubeClient :=
               HelmKubeClient (Some (NewResourcesWaiter time_Now (StatusProgressPeriod opts)
                                                        (HooksStatusProgressPeriod opts)));
             RegistryClient_ := registryClient |}.
Proof.
  unfold InitActionConfig. cbn [snd].
  destruct (actionConfig_Init _ _ _ actionConfig) as [[e|] actionConfig1].
  { split; [done|]. by intros (? & ? & ? & ? & _). }
  pose proof (loadReleasesInMemory_cases (initEnvSettings namespace envSettings opts) actionConfig1) as Hload.
  case_bool_decide as Hdriver.
  - destruct (Releases_Driver actionConfig1) as [mem|] eqn:Hmem.
    + destruct Hload as [(msg & err & ->)|[mem' ->]]; cbn.
      * split; [done|]. intros (c1 & w & rc & [= <-] & [?|Hd] & _); [done|].
        rewrite Hmem in Hd. discriminate Hd.
      * split; [done|]. intros (c1 & w & rc & [= <-] & [?|Hd] & _); [done|].
        rewrite Hmem in Hd. discriminate Hd.
    + rewrite Hload.
      destruct (Configuration_KubeClient actionConfig1) as [waiter| |] eqn:Hclient.
      * destruct NewRegistryClient as [rc [e|]].
        -- split; [done|]. by intros (c1 & w & rc' & [= <-] & _ & _ & ? & _).
        -- split.
           ++ intros [= <-]. exists actionConfig1, waiter, rc. rewrite Hmem.
              repeat split; try done. by right.
           ++ intros (c1 & w & rc' & [= <-] & _ & _ & [= <-] & ->). by rewrite Hmem.
      * split; [done|]. intros (c1 & w & rc & [= <-] & _ & Hc & _).
        rewrite Hclient in Hc. discriminate Hc.
      * split; [done|]. intros (c1 & w & rc & [= <-] & _ & Hc & _).
        rewrite Hclient in Hc. discriminate Hc.
  - clear Hload.
    destruct (Configuration_KubeClient actionConfig1) as [waiter| |] eqn:Hclient.
    + destruct NewRegistryClient as [rc [e|]].
      * split; [done|]. by intros (c1 & w & rc' & [= <-] & _ & _ & ? & _).
      * split.
        -- intros [= <-]. exists actionConfig1, waiter, rc. repeat split; try done. by left.
        -- by intros (c1 & w & rc' & [= <-] & _ & _ & [= <-] & ->).
    + split; [done|]. intros (c1 & w & rc & [= <-] & _ & Hc & _).
      rewrite Hclient in Hc. discriminate Hc.
    + split; [done|]. intros (c1 & w & rc & [= <-] & _ & Hc & _).
      rewrite Hclient in Hc. discriminate Hc.
Qed.

(** X16. An error [InitActionConfig] returns is that of
    [actionConfig.Init], or that of the registry client; in the second
    case the resources waiter has been installed already and the registry
    client of the configuration is left as it was. *)
Theorem X16_InitActionConfig_errors
        namespace envSettings (actionConfig : Configuration Memory RegistryClient) opts
        e actionConfig' :
  (InitActionConfig Getenv ReadFile yaml_Unmarshal store_Create mem_SetNamespace
       envSettings_Namespace actionConfig_Init NewRegistryClient time_Now
       namespace envSettings actionConfig opts).2 = Returned (Some e, actionConfig') →
  (∃ e0, actionConfig_Init (initEnvSettings namespace envSettings opts)
           (envSettings_Namespace (initEnvSettings namespace envSettings opts))
           (Getenv "HELM_DRIVER") actionConfig
         = (Some e0, actionConfig')
         ∧ e = Errorf "action config init failed: %s" [] e0)
  ∨ (∃ e0 registryClient actionConfig1,
       actionConfig_Init (initEnvSettings namespace envSettings opts)
         (envSettings_Namespace (initEnvSettings namespace envSettings opts))
         (Getenv "HELM_DRIVER") actionConfig
       = (None, actionConfig1)
       ∧ NewRegistryClient = (registryClient, Some e0)
       ∧ e = Errorf "unable to create registry client: %s" [] e0
       ∧ Configuration_KubeClient actionConfig'
         = HelmKubeClient (Some (NewResourcesWaiter time_Now (StatusProgressPeriod opts)
                                                    (HooksStatusProgressPeriod opts)))
       ∧ RegistryClient_ actionConfig' = RegistryClient_ actionConfig1).
Proof.
  unfold InitActionConfig. cbn [snd].
  destruct (actionConfig_Init _ _ _ actionConfig) as [[e0|] actionConfig1].
  { intros [= <- <-]. left. by exists e0. }
  pose proof (loadReleasesInMemory_cases (initEnvSettings namespace envSettings opts) actionConfig1) as Hload.
  assert (∀ c : Configuration Memory RegistryClient,
            RegistryClient_ c = RegistryClient_ actionConfig1 →
            match Configuration_KubeClient c with
            | HelmKubeClient _ =>
                match NewRegistryClient with
                | (_, Some err) =>
                    Returned
                      (Some (Errorf "unable to create registry client: %s" [] err),
                       {| Releases_Driver := Releases_Driver c;
                          Configuration_KubeClient :=
                            HelmKubeClient
                              (Some (NewResourcesWaiter time_Now (StatusProgressPeriod opts)
                                                        (HooksStatusProgressPeriod opts)));
                          RegistryClient_ := RegistryClient_ c |})
                | (registryClient, None) =>
                    Returned
                      (None,
                       {| Releases_Driver := Releases_Driver c;
                          Configuration_KubeClient :=
                            HelmKubeClient
                              (Some (NewResourcesWaiter time_Now (StatusProgressPeriod opts)
                                                        (HooksStatusProgressPeriod opts)));
                          RegistryClient_ := registryClient |})
                end
            | _ => Panicked "interface conversion: interface is not *kube.Client"
            end = Returned (Some e, actionConfig') →
            ∃ e0 registryClient,
              NewRegistryClient = (registryClient, Some e0)
              ∧ e = Errorf "unable to create registry client: %s" [] e0
              ∧ Configuration_KubeClient actionConfig'
                = HelmKubeClient
                    (Some (NewResourcesWaiter time_Now (StatusProgressPeriod opts)
                                              (HooksStatusProgressPeriod opts)))
              ∧ RegistryClient_ actionConfig' = RegistryClient_ actionConfig1) as Htail.
  { intros c Hrc. destruct (Configuration_KubeClient c); [|done|done].
    destruct NewRegistryClient as [rc [e1|]]; [|done].
    intros [= <- <-]. by exists e1, rc. }
  case_bool_decide as Hdriver.
  - destruct (Releases_Driver actionConfig1) as [mem|].
    + destruct Hload as [(msg & err & ->)|[mem' ->]]; [done|]. cbn. done.
    + rewrite Hload. intros Hr. right.
      destruct (Htail actionConfig1 eq_refl Hr) as (e0 & rc & ?). by exists e0, rc, actionConfig1.
  - intros Hr. right.
    destruct (Htail actionConfig1 eq_refl Hr) as (e0 & rc & ?). by exists e0, rc, actionConfig1.
Qed.

(** X17. [loadReleasesInMemory] leaves a release store that is not a
    memory driver alone, without reading a file. For a memory driver it
    never takes the early return for an empty path list: it reads first
    the part of [HELM_MEMORY_DRIVER_DATA] before its first [:] (the empty
    path when the variable is unset) and ends the process when that read
    fails; when it returns, the kube client is the printing one and the
    namespace of the driver has been reset. *)
Theorem X17_loadReleasesInMemory_cases
        envSettings (actionConfig : Configuration Memory RegistryClient) :
  (Releases_Driver actionConfig = OtherDriver →
   loadReleasesInMemory Getenv ReadFile yaml_Unmarshal store_Create mem_SetNamespace
         envSettings_Namespace envSettings actionConfig = Returned actionConfig)
  ∧ (∀ mem, Releases_Driver actionConfig = MemoryDriver mem →
       (∀ b e, ReadFile (firstDataFile (Getenv "HELM_MEMORY_DRIVER_DATA")) = (b, Some e) →
          loadReleasesInMemory Getenv ReadFile yaml_Unmarshal store_Create mem_SetNamespace
         envSettings_Namespace envSettings actionConfig = Fatal "Unable to read memory driver data" e)
       ∧ (∀ actionConfig',
            loadReleasesInMemory Getenv ReadFile yaml_Unmarshal store_Create mem_SetNamespace
         envSettings_Namespace envSettings actionConfig = Returned actionConfig' →
            Configuration_KubeClient actionConfig' = PrintingKubeClient
            ∧ RegistryClient_ actionConfig' = RegistryClient_ actionConfig
            ∧ ∃ mem', Releases_Driver actionConfig'
                      = MemoryDriver (mem_SetNamespace (envSettings_Namespace envSettings)
                                                       mem'))).
Proof.
  pose proof (loadReleasesInMemory_cases envSettings actionConfig) as Hload.
  split.
  - intros Hother. by rewrite Hother in Hload.
  - intros mem Hmem. rewrite Hmem in Hload. split.
    + intros b e Hread. unfold loadReleasesInMemory.
      rewrite bool_decide_eq_false_2 by apply Split_nonempty. rewrite Hmem.
      destruct (Split_head (Getenv "HELM_MEMORY_DRIVER_DATA")) as [rest ->].
      cbn [loadFiles]. by rewrite Hread.
    + intros actionConfig' Hret.
      destruct Hload as [(msg & err & Hf)|[mem' Hr]]; [congruence|].
      rewrite Hr in Hret. injection Hret as <-. cbn. split; [done|]. split; [done|].
      by exists mem'.
Qed.

End WithCollaborators.

Lemma X13_witness :
  KubeContext (InitActionConfig sampleGetenv sampleReadFile sampleUnmarshal sampleCreate
                 sampleSetNamespace namespaceP (sampleInit OtherDriver) sampleRegistryClient 0
                 "staging" sampleEnvSettings sampleConfiguration sampleOptions).1 = "prod"
  ∧ KubeConfig (InitActionConfig sampleGetenv sampleReadFile sampleUnmarshal sampleCreate
                  sampleSetNamespace namespaceP (sampleInit OtherDriver) sampleRegistryClient 0
                  "staging" sampleEnvSettings sampleConfiguration sampleOptions).1
    = "/home/ci/kube"
  ∧ MaxHistory (InitActionConfig sampleGetenv sampleReadFile sampleUnmarshal sampleCreate
                  sampleSetNamespace namespaceP (sampleInit OtherDriver) sampleRegistryClient 0
                  "staging" sampleEnvSettings sampleConfiguration sampleOptions).1 = 0%Z.
Proof.
  destruct (X13_InitActionConfig_settings sampleGetenv sampleReadFile sampleUnmarshal
              sampleCreate sampleSetNamespace namespaceP (sampleInit OtherDriver)
              sampleRegistryClient 0 "staging" sampleEnvSettings sampleConfiguration
              sampleOptions) as (_ & Hmax & _ & Hcontext & Hpath & _).
  split; [apply Hcontext; reflexivity|]. split; [apply Hpath; discriminate|exact Hmax].
Defined.

Lemma X14_witness :
  (InitActionConfig sampleGetenv sampleReadFile sampleUnmarshal sampleCreate
     sampleSetNamespace namespaceP (sampleInit (MemoryDriver [])) sampleRegistryClient 0
     "staging" sampleEnvSettings sampleConfiguration sampleOptions).2
  = Panicked "interface conversion: interface is not *kube.Client".
Proof.
  assert (sampleInit (MemoryDriver [])
            (initEnvSettings "staging" sampleEnvSettings sampleOptions)
            (namespaceP (initEnvSettings "staging" sampleEnvSettings sampleOptions))
            "memory" sampleConfiguration
          = (None, {| Releases_Driver := MemoryDriver [];
                      Configuration_KubeClient := HelmKubeClient None;
                      RegistryClient_ := None |})) as Hinit by reflexivity.
  destruct (X14_memory_driver_never_returns sampleGetenv sampleReadFile sampleUnmarshal
              sampleCreate sampleSetNamespace namespaceP (sampleInit (MemoryDriver []))
              sampleRegistryClient 0 "staging" sampleEnvSettings sampleConfiguration
              sampleOptions _ [] eq_refl Hinit eq_refl) as [(msg & err & Hfatal)|Hpanic].
  - vm_compute in Hfatal. discriminate Hfatal.
  - exact Hpanic.
Defined.

Lemma X15_witness :
  (InitActionConfig noGetenv sampleReadFile sampleUnmarshal sampleCreate
     sampleSetNamespace namespaceP (sampleInit (MemoryDriver [])) sampleRegistryClient 0
     "staging" sampleEnvSettings sampleConfiguration sampleOptions).2
  = Returned (None, {| Releases_Driver := MemoryDriver [];
                       Configuration_KubeClient :=
                         HelmKubeClient (Some (NewResourcesWaiter 0 5 5));
                       RegistryClient_ := Some () |}).
Proof.
  apply (proj2 (X15_InitActionConfig_success noGetenv sampleReadFile sampleUnmarshal
                  sampleCreate sampleSetNamespace namespaceP (sampleInit (MemoryDriver []))
                  sampleRegistryClient 0 "staging" sampleEnvSettings sampleConfiguration
                  sampleOptions _)).
  exists {| Releases_Driver := MemoryDriver [];
            Configuration_KubeClient := HelmKubeClient None;
            RegistryClient_ := None |}, None, (Some ()).
  split; [reflexivity|]. split; [left; discriminate|]. split; [reflexivity|].
  split; reflexivity.
Defined.

Lemma X16_witness :
  ∃ e actionConfig',
    (InitActionConfig noGetenv sampleReadFile sampleUnmarshal sampleCreate
       sampleSetNamespace namespaceP (sampleInit OtherDriver) failingRegistryClient 0
       "staging" sampleEnvSettings sampleConfiguration sampleOptions).2
    = Returned (Some e, actionConfig')
    ∧ Configuration_KubeClient actionConfig'
      = HelmKubeClient (Some (NewResourcesWaiter 0 5 5))
    ∧ RegistryClient_ actionConfig' = None.
Proof.
  pose (actionConfig' := {| Releases_Driver := @OtherDriver (list string);
                            Configuration_KubeClient :=
                              HelmKubeClient (Some (NewResourcesWaiter 0 5 5));
                            RegistryClient_ := @None unit |}).
  assert ((InitActionConfig noGetenv sampleReadFile sampleUnmarshal sampleCreate
             sampleSetNamespace namespaceP (sampleInit OtherDriver) failingRegistryClient 0
             "staging" sampleEnvSettings sampleConfiguration sampleOptions).2
          = Returned (Some (Errorf "unable to create registry client: %s" []
                                   (ExternalError "no registry")), actionConfig'))
    as Hrun by reflexivity.
  eexists _, actionConfig'. split; [exact Hrun|].
  destruct (X16_InitActionConfig_errors noGetenv sampleReadFile sampleUnmarshal sampleCreate
              sampleSetNamespace namespaceP (sampleInit OtherDriver) failingRegistryClient 0
              "staging" sampleEnvSettings sampleConfiguration sampleOptions _ _ Hrun)
    as [(e0 & Hinit & _)|(e0 & rc & c1 & _ & _ & _ & Hclient & _)].
  - vm_compute in Hinit. discriminate Hinit.
  - split; [exact Hclient|reflexivity].
Defined.

Lemma X17_witness :
  loadReleasesInMemory noGetenv sampleReadFile sampleUnmarshal sampleCreate
    sampleSetNamespace namespaceP sampleEnvSettings sampleMemoryConfiguration
  = Fatal "Unable to read memory driver data" (ExternalError "no such file or directory").
Proof.
  apply (proj1 (proj2 (X17_loadReleasesInMemory_cases noGetenv sampleReadFile sampleUnmarshal
                         sampleCreate sampleSetNamespace namespaceP sampleEnvSettings
                         sampleMemoryConfiguration) [] eq_refl) "").
  reflexivity.
Defined.

End HelmFacts.

(** ** More on the build from a Dockerfile *)

Module DockerfileFacts.
Import ContainerBackend BackendSpec.

Lemma parseBuildArgs_first_invalid pre arg post :
  ∀ acc,
    (∀ a, a ∈ pre → containsByte "=" a = true) →
    containsByte "=" arg = false →
    parseBuildArgs (pre ++ arg :: post) acc
    = inr (Errorf0 "invalid build argument %q given, expected string in the key=value format"
                   [arg]).
Proof.
  induction pre as [|a pre IH]; intros acc Hpre Harg.
  - cbn [app parseBuildArgs]. rewrite SplitFacts.SplitN_byte_length, Harg.
    by rewrite bool_decide_eq_true_2 by lia.
  - cbn [app parseBuildArgs]. rewrite SplitFacts.SplitN_byte_length.
    rewrite (Hpre a) by (by left). rewrite bool_decide_eq_false_2 by lia.
    apply IH; [|done]. intros a' Hin. apply Hpre. by right.
Qed.

(** X18. [BuildDockerfile] reports the first build argument without [=],
    by its text, whatever follows it, and leaves the engine alone. *)
Theorem X18_BuildDockerfile_first_invalid_argument
        {World : Type} `{!Buildah World} dockerfile opts (st : @State World) pre arg post :
  BuildArgs opts = pre ++ arg :: post →
  (∀ a, a ∈ pre → containsByte "=" a = true) →
  containsByte "=" arg = false →
  BuildDockerfile dockerfile opts st
  = (Return ("", Some (Errorf0 "invalid build argument %q given, expected string in the key=value format"
                               [arg])), st).
Proof.
  intros Hargs Hpre Harg. unfold BuildDockerfile.
  by rewrite Hargs, (parseBuildArgs_first_invalid pre arg post ∅ Hpre Harg).
Qed.

Lemma X18_witness :
  BuildDockerfile "FROM scratch" (fakeDockerfileOpts ["VERSION=1.2"; "DEBUG"; "TRACE"])
                  (fakeStart fakeOK)
  = (Return ("", Some (Errorf0 "invalid build argument %q given, expected string in the key=value format"
                               ["DEBUG"])), fakeStart fakeOK).
Proof.
  apply (X18_BuildDockerfile_first_invalid_argument "FROM scratch"
           (fakeDockerfileOpts ["VERSION=1.2"; "DEBUG"; "TRACE"]) (fakeStart fakeOK)
           ["VERSION=1.2"] "DEBUG" ["TRACE"]).
  - reflexivity.
  - intros a Hin. apply list_elem_of_singleton in Hin. rewrite Hin. reflexivity.
  - reflexivity.
Defined.

End DockerfileFacts.
